(** * mcprox: the OpenAPI-to-tool compiler, embedded in Rocq

    The development follows the Go sources:
    - [internal/openapi] : [preprocessOpenAPISpec], [fixNullTypes], [fixAnyOf],
      [removeNonStandardFields] (the schema normalizer);
    - [internal/mcp] : [sanitizePathForToolID] (tool identifiers);
    - [internal/mcp/generator/tools.go] : [processPathsIntoTools],
      [createToolHandler], [buildURL], [createHTTPRequest];
    - [internal/mcp/generator] tool builder : the Python text written by
      [WriteBuildURL] and, for a tool, by [WriteToolDefinition]
      ([writeParametersDictionary], [writeBuildURLCall], [writeHeadersSetup]),
      and the signature built by [buildParameterLists];
    - [internal/mcp/generator], [internal/mcp/utils] : the names of the
      generated project, [sanitizeParamName], [sanitizeForPackageName] and
      the folder name of [Generate].

    Go strings are byte sequences and are modelled by [string]; a Go
    [map[string]T] is a [gmap string T]; a tree decoded by [encoding/json] is
    a value of [json]. *)

From Stdlib Require Import String Ascii ZArith Bool Lia DecimalString.
From stdpp Require Import gmap strings list sorting.

Local Open Scope string_scope.
Local Open Scope list_scope.

(** ** The [strings] package, on byte strings *)

Definition HasPrefix (s prefix : string) : bool := String.prefix prefix s.

Fixpoint string_rev_app (s acc : string) : string :=
  match s with
  | EmptyString => acc
  | String c s' => string_rev_app s' (String c acc)
  end.

Definition string_rev (s : string) : string := string_rev_app s "".

Definition HasSuffix (s suffix : string) : bool :=
  String.prefix (string_rev suffix) (string_rev s).

Definition TrimPrefix (s prefix : string) : string :=
  if HasPrefix s prefix
  then String.substring (String.length prefix) (String.length s - String.length prefix) s
  else s.

(** [path[1:]] *)
Definition drop1 (s : string) : string :=
  match s with
  | EmptyString => EmptyString
  | String _ s' => s'
  end.

(** [strings.Replace(s, old, new, -1)] for a non-empty [old]: the
    non-overlapping occurrences of [old] are replaced from left to right.
    [skip] counts the bytes of a matched occurrence still to be dropped. *)
Fixpoint replace_from (old new : string) (skip : nat) (s : string) : string :=
  match s with
  | EmptyString => EmptyString
  | String c s' =>
      match skip with
      | S k => replace_from old new k s'
      | O =>
          if String.prefix old s
          then new +:+ replace_from old new (String.length old - 1) s'
          else String c (replace_from old new 0 s')
      end
  end.

(** With an empty [old], Go inserts [new] before every character and at the
    end of the string. *)
Fixpoint intersperse_all (new s : string) : string :=
  match s with
  | EmptyString => new
  | String c s' => new +:+ String c (intersperse_all new s')
  end.

Definition ReplaceAll (s old new : string) : string :=
  match old with
  | EmptyString => intersperse_all new s
  | _ => replace_from old new 0 s
  end.

(** [strings.Contains] *)
Fixpoint Contains (s substr : string) : bool :=
  String.prefix substr s ||
  match s with
  | EmptyString => false
  | String _ s' => Contains s' substr
  end.

Fixpoint string_map (f : ascii -> ascii) (s : string) : string :=
  match s with
  | EmptyString => EmptyString
  | String c s' => String (f c) (string_map f s')
  end.

Definition is_upper (c : ascii) : bool :=
  (65 <=? nat_of_ascii c)%nat && (nat_of_ascii c <=? 90)%nat.
Definition is_lower (c : ascii) : bool :=
  (97 <=? nat_of_ascii c)%nat && (nat_of_ascii c <=? 122)%nat.
Definition is_digit (c : ascii) : bool :=
  (48 <=? nat_of_ascii c)%nat && (nat_of_ascii c <=? 57)%nat.

Definition to_lower (c : ascii) : ascii :=
  if is_upper c then ascii_of_nat (nat_of_ascii c + 32) else c.
Definition to_upper (c : ascii) : ascii :=
  if is_lower c then ascii_of_nat (nat_of_ascii c - 32) else c.

(** [strings.ToLower] on ASCII text (HTTP methods and route templates);
    bytes outside ASCII are left as they are. *)
Definition ToLower (s : string) : string := string_map to_lower s.

(** [isSeparator] of [strings.Title]: ASCII letters, digits and the
    underscore are not separators, every other ASCII character is. *)
Definition isSeparator (c : ascii) : bool :=
  if (nat_of_ascii c <=? 127)%nat
  then negb (is_digit c || is_lower c || is_upper c || Ascii.eqb c "_")
  else false.

(** [strings.Title]: the first letter of every word goes to title case; a
    word starts after a separator, and the string starts after a space. *)
Fixpoint title_from (prev : ascii) (s : string) : string :=
  match s with
  | EmptyString => EmptyString
  | String c s' =>
      String (if isSeparator prev then to_upper c else c) (title_from c s')
  end.

Definition Title (s : string) : string := title_from " " s.

(** ** Tool identifiers *)

(** [sanitizePathForToolID] converts an OpenAPI path to a tool ID. *)
Definition sanitizePathForToolID (path method : string) : string :=
  let sanitized := ReplaceAll path "{" "" in
  let sanitized := ReplaceAll sanitized "}" "" in
  let sanitized := ReplaceAll sanitized "/" "_" in
  let sanitized := ReplaceAll sanitized "-" "_" in
  let sanitized := TrimPrefix sanitized "_" in
  ToLower method +:+ Title sanitized.

(** ** Library boundary

    What the program takes from its runtimes and cannot be read off the
    repository: the float64 values of decoded JSON numbers with the text
    printed for them, and [net/url]'s parser and printer. *)
Class GoLib := {
  float64 : Type;
  (** [strconv.FormatFloat(f, 'g', -1, 64)], the text of [%v] on a float64 *)
  FormatFloat : float64 -> string;
  (** Python's [str] on the same float, for the emitted server *)
  PyFloatStr : float64 -> string;
  (** [*url.URL] *)
  URL : Type;
  (** [url.Parse]; [None] is a parse error *)
  url_Parse : string -> option URL;
  (** [u.Query()]: the values parsed from [u.RawQuery] *)
  URL_Query : URL -> gmap string (list string);
  (** [u.RawQuery = q; u.String()] *)
  URL_String : URL -> string -> string;
}.

Section Definitions.
Context `{!GoLib}.

(** ** Generic trees: the [interface{}] values that [encoding/json] decodes *)

Inductive json : Type :=
| JNull
| JBool (b : bool)
| JNum (f : float64)
| JStr (s : string)
| JArr (elems : list json)
| JObj (fields : gmap string json).

(** Nesting depth; the recursive walks over schemas are bounded by it. *)
Fixpoint depth (v : json) : nat :=
  match v with
  | JArr elems => S (foldr (fun x acc => max (depth x) acc) 0%nat elems)
  | JObj fields => S (map_fold (fun _ x acc => max (depth x) acc) 0%nat fields)
  | _ => 0%nat
  end.

(** [v.(map[string]interface{})] followed by an update in place *)
Definition on_obj (f : gmap string json -> gmap string json) (v : json) : json :=
  match v with
  | JObj m => JObj (f m)
  | _ => v
  end.

(** [v.([]interface{})] followed by an update of every element *)
Definition on_arr (f : json -> json) (v : json) : json :=
  match v with
  | JArr l => JArr (f <$> l)
  | _ => v
  end.

(** ** Schema normalizer *)

(** One step of the loop of [fixAnyOf] over the two alternatives:
    [acc] is [(mainType, hasNull)]. *)
Definition scan_alternative (acc : option (gmap string json) * bool) (typeObj : json)
  : option (gmap string json) * bool :=
  match typeObj with
  | JObj obj =>
      match obj !! "type" with
      | Some (JStr t) => if String.eqb t "null" then (acc.1, true) else (Some obj, acc.2)
      | _ => acc
      end
  | _ => acc
  end.

(** [fixAnyOf] handles anyOf with null type by converting to a standard
    type with nullable. *)
Definition fixAnyOf (schema : gmap string json) : gmap string json :=
  match schema !! "anyOf" with
  | Some (JArr anyOf) =>
      if (length anyOf =? 2)%nat then
        match foldl scan_alternative (None, false) anyOf with
        | (Some mainType, true) =>
            delete "anyOf" (<["nullable" := JBool true]> (mainType ∪ schema))
        | _ => schema
        end
      else schema
  | _ => schema
  end.

(** [fixNullTypes] recursively finds and fixes null types in schemas.  The
    recursion of the source descends one [properties] level per call; [fuel]
    bounds the number of levels. *)
Fixpoint fixNullTypes_fuel (fuel : nat) (schema : gmap string json) : gmap string json :=
  match fuel with
  | O => schema
  | S fuel' =>
      match schema !! "properties" with
      | Some (JObj properties) =>
          <["properties" :=
              JObj (on_obj (fun propObj =>
                              fixNullTypes_fuel fuel'
                                (if decide (is_Some (propObj !! "anyOf"))
                                 then fixAnyOf propObj else propObj))
                      <$> properties)]> schema
      | _ => schema
      end
  end.

Definition fixNullTypes (schema : gmap string json) : gmap string json :=
  fixNullTypes_fuel (depth (JObj schema)) schema.

Definition nonStandardFields : list string :=
  ["error_messages"; "hide_error_details"].

(** [removeNonStandardFields] removes fields that are not standard in
    OpenAPI 3.0, at the top level, in [properties.*] and in [items]. *)
Fixpoint removeNonStandardFields_fuel (fuel : nat) (schema : gmap string json) : gmap string json :=
  match fuel with
  | O => schema
  | S fuel' =>
      let schema := foldl (fun m field => delete field m) schema nonStandardFields in
      let schema :=
        match schema !! "properties" with
        | Some (JObj properties) =>
            <["properties" :=
                JObj (on_obj (removeNonStandardFields_fuel fuel') <$> properties)]> schema
        | _ => schema
        end in
      match schema !! "items" with
      | Some (JObj items) =>
          <["items" := JObj (removeNonStandardFields_fuel fuel' items)]> schema
      | _ => schema
      end
  end.

Definition removeNonStandardFields (schema : gmap string json) : gmap string json :=
  removeNonStandardFields_fuel (depth (JObj schema)) schema.

(** The buffer given to, and returned by, the normalizer, as [encoding/json]
    reads it: either it is not a JSON text, or it is the text of one tree.
    [json.Marshal] of a decoded tree cannot fail, and decoding its output
    gives the tree back. *)
Inductive jsonbytes : Type :=
| Malformed
| Text (v : json).

Inductive result (A : Type) : Type :=
| Ok (a : A)
| Err (msg : string).
Global Arguments Ok {A} a.
Global Arguments Err {A} msg.

(** [json.Unmarshal(data, &spec)] with [spec] a [map[string]interface{}]:
    a syntax error and a top-level value that is neither an object nor
    [null] are errors; [null] leaves the map nil. *)
Definition Unmarshal_map (data : jsonbytes) : result (option (gmap string json)) :=
  match data with
  | Malformed => Err "invalid character"
  | Text (JObj m) => Ok (Some m)
  | Text JNull => Ok None
  | Text _ => Err "cannot unmarshal into Go value of type map[string]interface {}"
  end.

(** [json.Marshal(spec)]; a nil map is written as [null]. *)
Definition Marshal_map (spec : option (gmap string json)) : jsonbytes :=
  match spec with
  | Some m => Text (JObj m)
  | None => Text JNull
  end.

(** Check OpenAPI version *)
Definition fixVersion (spec : gmap string json) : gmap string json :=
  match spec !! "openapi" with
  | Some (JStr version) =>
      if HasPrefix version "3.1" then <["openapi" := JStr "3.0.0"]> spec else spec
  | _ => spec
  end.

(** Process components.schemas to handle null types *)
Definition fixComponents (spec : gmap string json) : gmap string json :=
  alter (on_obj (alter (on_obj (fmap (on_obj (fun schema =>
           removeNonStandardFields (fixNullTypes schema))))) "schemas")) "components" spec.

(** Fix anyOf in parameters *)
Definition fixParameters (spec : gmap string json) : gmap string json :=
  alter (on_obj (fmap (on_obj (fmap (on_obj
           (alter (on_arr (on_obj (alter (on_obj fixAnyOf) "schema"))) "parameters"))))))
        "paths" spec.

(** [preprocessOpenAPISpec] adapts OpenAPI 3.1.0 to be compatible with
    OpenAPI 3.0.x. *)
Definition preprocessOpenAPISpec (data : jsonbytes) : result jsonbytes :=
  match Unmarshal_map data with
  | Err msg => Err ("error unmarshaling OpenAPI spec: " +:+ msg)
  | Ok spec =>
      Ok (Marshal_map ((fun m => fixParameters (fixComponents (fixVersion m))) <$> spec))
  end.

(** *** The null-union pattern, in the words of the specification

    A two-element [anyOf] whose members are [{type: T}], for a string [T]
    other than ["null"], and [{type: "null"}], in either order. *)

Definition type_of (alternative : json) : option string :=
  match alternative with
  | JObj obj =>
      match obj !! "type" with
      | Some (JStr t) => Some t
      | _ => None
      end
  | _ => None
  end.

Definition null_alternative (alternative : json) : bool :=
  bool_decide (type_of alternative = Some "null").

Definition typed_alternative (alternative : json) : bool :=
  match type_of alternative with
  | Some t => negb (String.eqb t "null")
  | None => false
  end.

(** The non-null alternative of a null-union *)
Definition main_alternative (schema : gmap string json) : option (gmap string json) :=
  match schema !! "anyOf" with
  | Some (JArr [JObj a; JObj b]) =>
      if typed_alternative (JObj a) && null_alternative (JObj b) then Some a
      else if null_alternative (JObj a) && typed_alternative (JObj b) then Some b
      else None
  | _ => None
  end.

Definition null_union (schema : gmap string json) : bool :=
  bool_decide (is_Some (main_alternative schema)).

(** [child] is the schema of one of the [properties] of [parent]. *)
Definition property_of (parent child : gmap string json) : Prop :=
  exists properties name,
    parent !! "properties" = Some (JObj properties) /\
    properties !! name = Some (JObj child).

(** The buffer decodes into a [map[string]interface{}]: it holds a JSON
    object or [null]. *)
Definition decodes_to_map (data : jsonbytes) : bool :=
  match data with
  | Text (JObj _) | Text JNull => true
  | _ => false
  end.

(** The buffer holds a JSON text. *)
Definition decodable (data : jsonbytes) : bool :=
  match data with
  | Text _ => true
  | Malformed => false
  end.

(** Some object of the tree is a null-union. *)
Fixpoint contains_null_union (v : json) : bool :=
  match v with
  | JObj fields =>
      null_union fields
      || map_fold (fun _ (found acc : bool) => found || acc) false
           (contains_null_union <$> fields)
  | JArr elems => existsb contains_null_union elems
  | _ => false
  end.

(** The [openapi] version string of a document *)
Definition version_of (data : jsonbytes) : option string :=
  match data with
  | Text (JObj spec) =>
      match spec !! "openapi" with
      | Some (JStr version) => Some version
      | _ => None
      end
  | _ => None
  end.

Definition no_null_unions (data : jsonbytes) : bool :=
  match data with
  | Text v => negb (contains_null_union v)
  | Malformed => true
  end.

(** [normalize(normalize(d))] *)
Definition preprocess_twice (data : jsonbytes) : result jsonbytes :=
  match preprocessOpenAPISpec data with
  | Ok out => preprocessOpenAPISpec out
  | Err msg => Err msg
  end.


(** The value found by following [keys] through nested objects *)
Fixpoint at_path (keys : list string) (v : json) : option json :=
  match keys with
  | [] => Some v
  | key :: keys' =>
      match v with
      | JObj fields =>
          match fields !! key with
          | Some v' => at_path keys' v'
          | None => None
          end
      | _ => None
      end
  end.

(** *** The rewrite of properties, in the words of the specification *)


(** The schema a property stands for: a null-union stands for its non-null
    alternative, completed by the fields of its own that the alternative
    does not have. *)
Definition merged (node0 : gmap string json) : gmap string json :=
  match main_alternative node0 with
  | Some mainType => mainType ∪ node0
  | None => node0
  end.

(** The schema found by following property names from a schema *)
Fixpoint property_at (names : list string) (schema : gmap string json)
  : option (gmap string json) :=
  match names with
  | [] => Some schema
  | name :: names' =>
      match schema !! "properties" with
      | Some (JObj properties) =>
          match properties !! name with
          | Some (JObj child) => property_at names' child
          | _ => None
          end
      | _ => None
      end
  end.

(** The schema of the document given to the normalizer from which the
    property at [names] of an entry is made: the names are followed through
    the properties of the entry and, below a null-union, through the
    properties of what the null-union stands for. *)
Fixpoint source_at (names : list string) (schema0 : gmap string json)
  : option (gmap string json) :=
  match names with
  | [] => Some schema0
  | name :: names' =>
      match schema0 !! "properties" with
      | Some (JObj properties) =>
          match properties !! name with
          | Some (JObj child0) =>
              match names' with
              | [] => Some child0
              | _ :: _ => source_at names' (merged child0)
              end
          | _ => None
          end
      | _ => None
      end
  end.


(** ** The document model ([openapi3.T]) as far as the generator reads it *)

Record Schema := {
  schema_Type : string;
  schema_Enum : list json;
}.

(** [openapi3.Parameter]: a [*ParameterRef] with a non-nil [Value]. *)
Record Param := {
  param_Name : string;
  param_In : string;
  param_Required : bool;
  param_Description : string;
  param_Schema : option Schema;
}.

Record MediaType := {
  media_Schema : option Schema;
}.

Record RequestBody := {
  body_Required : bool;
  body_Description : string;
  body_Content : gmap string MediaType;
}.

(** [op_Parameters] holds [None] for a nil [*ParameterRef] or a nil
    [Value]; [op_RequestBody] is [None] likewise. *)
Record Operation := {
  op_Summary : string;
  op_Description : string;
  op_Parameters : list (option Param);
  op_RequestBody : option RequestBody;
}.

(** [doc.Paths.Map()], every path item given by its [Operations()]: the
    operations by upper-case HTTP method. *)
Record Document := {
  doc_Title : string;
  doc_Paths : gmap string (gmap string (option Operation));
}.

(** ** Tool model builder *)

Inductive PropertyOption : Type :=
| Required
| Description (desc : string)
| Enum (values : list string).

Inductive ToolOption : Type :=
| WithDescription (desc : string)
| WithString (name : string) (opts : list PropertyOption)
| WithNumber (name : string) (opts : list PropertyOption)
| WithBoolean (name : string) (opts : list PropertyOption).

(** [mcp.NewTool(toolID, toolOpts...)] *)
Record Tool := NewTool {
  tool_ID : string;
  tool_Opts : list ToolOption;
}.

(** The string-valued members of [schema.Enum], in source order. *)
Definition enumValues (enum : list json) : list string :=
  omap (fun v => match v with JStr s => Some s | _ => None end) enum.

(** The tool option one parameter contributes, if any. *)
Definition parameterOption (paramRef : option Param) : option ToolOption :=
  match paramRef with
  | None => None
  | Some param =>
      match param_Schema param with
      | None => None
      | Some schema =>
          let propOpts :=
            (if param_Required param then [Required] else []) ++
            (if String.eqb (param_Description param) "" then []
             else [Description (param_Description param)]) in
          Some
            (if String.eqb (schema_Type schema) "string" then
               WithString (param_Name param)
                 (propOpts ++
                  match schema_Enum schema, enumValues (schema_Enum schema) with
                  | _ :: _, (_ :: _) as values => [Enum values]
                  | _, _ => []
                  end)
             else if String.eqb (schema_Type schema) "integer"
                     || String.eqb (schema_Type schema) "number" then
               WithNumber (param_Name param) propOpts
             else if String.eqb (schema_Type schema) "boolean" then
               WithBoolean (param_Name param) propOpts
             else
               WithString (param_Name param) propOpts)
      end
  end.

(** Some media type of the request body carries a schema.  The loop of the
    source stops at the first such entry it meets; what it appends does not
    depend on which entry that is. *)
Definition hasBody (op : Operation) : bool :=
  match op_RequestBody op with
  | None => false
  | Some reqBody =>
      bool_decide (map_Exists (fun _ mediaType => is_Some (media_Schema mediaType))
                     (body_Content reqBody))
  end.

Definition bodyOption (op : Operation) : list ToolOption :=
  match op_RequestBody op with
  | None => []
  | Some reqBody =>
      if hasBody op then
        [WithString "body"
           ((if body_Required reqBody then [Required] else []) ++
            [Description (if String.eqb (body_Description reqBody) "" then "Request body"
                          else body_Description reqBody)])]
      else []
  end.

(** The tool built by one iteration of the inner loop of
    [processPathsIntoTools]. *)
Definition buildTool (path method : string) (op : Operation) : Tool :=
  let toolID := sanitizePathForToolID path method in
  let toolDesc := if String.eqb (op_Summary op) "" then op_Description op else op_Summary op in
  NewTool toolID
    ([WithDescription toolDesc]
     ++ omap parameterOption (op_Parameters op)
     ++ bodyOption op).

(** One call [s.AddTool(tool, g.createToolHandler(op, path, method))]. *)
Record Registration := AddTool {
  reg_Tool : Tool;
  reg_Op : Operation;
  reg_Path : string;
  reg_Method : string;
}.

(** [for k, v := range m] visits the entries of a Go map in an order the
    language leaves unspecified: any enumeration of the entries. *)
Definition ranges_over {A} (m : gmap string A) (visited : list (string * A)) : Prop :=
  visited ≡ₚ map_to_list m.

(** The registrations of the inner loop for one path, the methods being
    visited in the order [visited]. *)
Definition pathRegistrations (path : string) (visited : list (string * option Operation))
  : list Registration :=
  omap (fun '(method, opRef) =>
          match opRef with
          | None => None
          | Some op => Some (AddTool (buildTool path method op) op path method)
          end) visited.

(** [processPathsIntoTools] converts OpenAPI paths to MCP tools: [regs] is a
    sequence of [AddTool] calls the function may make on [doc].  It always
    returns a nil error. *)
Definition processPathsIntoTools (doc : Document) (regs : list Registration) : Prop :=
  exists (paths : list (string * gmap string (option Operation)))
         (chunks : list (list Registration)),
    ranges_over (doc_Paths doc) paths /\
    Forall2 (fun '(path, pathItem) chunk =>
               exists visited, ranges_over pathItem visited /\
                               chunk = pathRegistrations path visited)
            paths chunks /\
    regs = concat chunks.

(** The registrations of one path, its methods taken in the order of
    [map_to_list]. *)
Definition registrationsOf (entry : string * gmap string (option Operation))
  : list Registration :=
  pathRegistrations entry.1 (map_to_list entry.2).

(** One run of [processPathsIntoTools], taken as the reference order. *)
Definition allRegistrations (doc : Document) : list Registration :=
  map_to_list (doc_Paths doc) ≫= registrationsOf.

(** ** Request planner *)

(** Go compares strings byte by byte. *)
Definition key_le {A} (x y : string * A) : Prop := String.leb x.1 y.1 = true.

Global Instance key_le_dec {A} (x y : string * A) : Decision (key_le x y).
Proof. unfold key_le. apply _. Defined.

Definition string_le (x y : string) : Prop := String.leb x y = true.

Global Instance string_le_dec (x y : string) : Decision (string_le x y).
Proof. unfold string_le. apply _. Defined.

(** [fmt.Sprintf("%v", v)] on a decoded tree: strings as they are, [<nil>],
    [true]/[false], a slice as [[a b]], a map as [map[k:v ...]] with its keys
    sorted. *)
Fixpoint Sprint_v (v : json) : string :=
  match v with
  | JNull => "<nil>"
  | JBool b => if b then "true" else "false"
  | JNum f => FormatFloat f
  | JStr s => s
  | JArr elems => "[" +:+ String.concat " " (Sprint_v <$> elems) +:+ "]"
  | JObj fields =>
      "map[" +:+
      String.concat " "
        ((fun kv => kv.1 +:+ ":" +:+ kv.2)
           <$> merge_sort key_le (map_to_list (Sprint_v <$> fields))) +:+
      "]"
  end.

Definition hex_digit (n : nat) : ascii :=
  match String.get n "0123456789ABCDEF" with
  | Some c => c
  | None => "0"%char
  end.

(** [shouldEscape(c, encodeQueryComponent)]: everything but the unreserved
    characters. *)
Definition shouldEscape (c : ascii) : bool :=
  negb (is_lower c || is_upper c || is_digit c
        || Ascii.eqb c "-" || Ascii.eqb c "_" || Ascii.eqb c "." || Ascii.eqb c "~").

(** [url.QueryEscape] *)
Fixpoint QueryEscape (s : string) : string :=
  match s with
  | EmptyString => EmptyString
  | String c s' =>
      if Ascii.eqb c " " then String "+" (QueryEscape s')
      else if shouldEscape c then
        String "%" (String (hex_digit (nat_of_ascii c / 16))
                      (String (hex_digit (nat_of_ascii c mod 16)) (QueryEscape s')))
      else String c (QueryEscape s')
  end.

(** [url.Values.Add] *)
Definition Values_Add (v : gmap string (list string)) (key value : string)
  : gmap string (list string) :=
  <[key := default [] (v !! key) ++ [value]]> v.

(** The pairs in the order [url.Values.Encode] writes them: by sorted key,
    the values of one key in their order. *)
Definition Values_pairs (v : gmap string (list string)) : list (string * string) :=
  flat_map (fun key => (fun value => (key, value)) <$> default [] (v !! key))
           (merge_sort string_le (elements (dom v))).

Definition encode_pair (kv : string * string) : string :=
  QueryEscape kv.1 +:+ "=" +:+ QueryEscape kv.2.

(** [url.Values.Encode] *)
Definition Values_Encode (v : gmap string (list string)) : string :=
  String.concat "&" (encode_pair <$> Values_pairs v).

Definition placeholder (name : string) : string := "{" +:+ name +:+ "}".

(** Replace path parameters *)
Definition substitutePath (path : string) (args : gmap string json)
    (parameters : list (option Param)) : string :=
  foldl (fun path paramRef =>
           match paramRef with
           | None => path
           | Some param =>
               if String.eqb (param_In param) "path" then
                 match args !! param_Name param with
                 | Some val => ReplaceAll path (placeholder (param_Name param)) (Sprint_v val)
                 | None => path
                 end
               else path
           end) path parameters.

(** Normalize base URL and path *)
Definition joinURL (baseURL path : string) : string :=
  if negb (HasSuffix baseURL "/") && negb (HasPrefix path "/") then
    (baseURL +:+ "/") +:+ path
  else if HasSuffix baseURL "/" && HasPrefix path "/" then
    baseURL +:+ drop1 path
  else baseURL +:+ path.

(** Add query parameters *)
Definition addQueryParams (q : gmap string (list string)) (args : gmap string json)
    (parameters : list (option Param)) : gmap string (list string) :=
  foldl (fun q paramRef =>
           match paramRef with
           | None => q
           | Some param =>
               if String.eqb (param_In param) "query" then
                 match args !! param_Name param with
                 | Some val => Values_Add q (param_Name param) (Sprint_v val)
                 | None => q
                 end
               else q
           end) q parameters.

(** [buildURL] constructs the full URL with path parameters and query
    parameters. *)
Definition buildURL (baseURL path : string) (args : gmap string json)
    (parameters : list (option Param)) : string :=
  let path := substitutePath path args parameters in
  let full := joinURL baseURL path in
  match url_Parse full with
  | None => full
  | Some u => URL_String u (Values_Encode (addQueryParams (URL_Query u) args parameters))
  end.

(** The bytes of a request body: those of a string ([[]byte(bodyStr)]) or
    the output of [json.Marshal] on a tree, which cannot fail on the trees
    of [json]. *)
Inductive payload : Type :=
| BodyBytes (s : string)
| BodyJSON (v : json).

Record Request := {
  req_Method : string;
  req_URL : URL;
  req_Header : gmap string string;
  req_Body : option payload;
}.

(** [isTokenRune] of [net/http] *)
Definition isToken (c : ascii) : bool :=
  is_lower c || is_upper c || is_digit c
  || existsb (Ascii.eqb c) (list_ascii_of_string "!#$%&'*+-.^_`|~").

Definition validMethod (method : string) : bool :=
  negb (String.eqb method "") && forallb isToken (list_ascii_of_string method).

(** [http.NewRequestWithContext] with a non-nil context *)
Definition NewRequest (method url : string) (body : option payload) : result Request :=
  let method := if String.eqb method "" then "GET" else method in
  if negb (validMethod method) then Err ("net/http: invalid method " +:+ method)
  else
    match url_Parse url with
    | None => Err ("parse " +:+ url)
    | Some u => Ok {| req_Method := method; req_URL := u; req_Header := ∅; req_Body := body |}
    end.

(** Some path or query parameter of the operation has this name. *)
Definition isPathOrQuery (op : Operation) (name : string) : bool :=
  existsb (fun paramRef =>
             match paramRef with
             | None => false
             | Some param =>
                 (String.eqb (param_In param) "path" || String.eqb (param_In param) "query")
                 && String.eqb (param_Name param) name
             end) (op_Parameters op).

(** [createHTTPRequest] creates an HTTP request with the appropriate method
    and body. *)
Definition createHTTPRequest (method url : string) (args : gmap string json)
    (op : Operation) : result Request :=
  let body : option payload :=
    if String.eqb method "POST" || String.eqb method "PUT" || String.eqb method "PATCH" then
      match args !! "body" with
      | Some (JStr bodyStr) => Some (BodyBytes bodyStr)
      | Some bodyArg => Some (BodyJSON bodyArg)
      | None =>
          let bodyMap := filter (fun kv => isPathOrQuery op kv.1 = false) args in
          if (0 <? size bodyMap)%nat then Some (BodyJSON (JObj bodyMap)) else None
      end
    else None in
  NewRequest method url body.

(** The process-wide configuration the handler reads. *)
Record Config := {
  service_url : string;
  service_authorization : string;
}.

Record Response := {
  resp_StatusCode : Z;
  (** [io.ReadAll(resp.Body)] *)
  resp_Body : result string;
}.

(** [mcp.NewToolResultText] *)
Record CallToolResult := NewToolResultText {
  result_Text : string;
}.

Definition Header_Set (key value : string) (req : Request) : Request :=
  {| req_Method := req_Method req; req_URL := req_URL req;
     req_Header := <[key := value]> (req_Header req); req_Body := req_Body req |}.

Definition newline : string := String (ascii_of_nat 10) EmptyString.

(** [createToolHandler] returns a handler function for an MCP tool.  [Do] is
    [client.Do]; the handler's result comes with the requests it issued. *)
Definition createToolHandler (config : Config) (Do : Request -> result Response)
    (op : Operation) (path method : string) (arguments : gmap string json)
  : list Request * result CallToolResult :=
  let serviceURL := service_url config in
  if String.eqb serviceURL "" then
    ([], Ok (NewToolResultText
               ("Mock response for " +:+ method +:+ " " +:+ path +:+ newline +:+
                "Params: " +:+ Sprint_v (JObj arguments))))
  else
    let fullURL := buildURL serviceURL path arguments (op_Parameters op) in
    match createHTTPRequest method fullURL arguments op with
    | Err err => ([], Err ("failed to create request: " +:+ err))
    | Ok httpReq =>
        let authHeader := service_authorization config in
        let httpReq :=
          if String.eqb authHeader "" then httpReq
          else Header_Set "Authorization" authHeader httpReq in
        let httpReq := Header_Set "Content-Type" "application/json" httpReq in
        let httpReq := Header_Set "Accept" "application/json" httpReq in
        match Do httpReq with
        | Err err => ([httpReq], Err ("API request failed: " +:+ err))
        | Ok resp =>
            match resp_Body resp with
            | Err err => ([httpReq], Err ("failed to read response: " +:+ err))
            | Ok body =>
                if (400 <=? resp_StatusCode resp)%Z then
                  ([httpReq],
                   Err ("API returned error status: " +:+
                        NilZero.string_of_int (Z.to_int (resp_StatusCode resp)) +:+
                        " - " +:+ body))
                else ([httpReq], Ok (NewToolResultText body))
            end
        end
    end.

(** *** The planner, in the words of the specification *)

(** The pair is written under this parameter name. *)
Definition has_key {A} (name : string) (kv : string * A) : Prop := kv.1 = name.

Global Instance has_key_dec {A} (name : string) (kv : string * A) : Decision (has_key name kv).
Proof. unfold has_key. apply _. Defined.

(** The methods for which [createHTTPRequest] builds a body *)
Definition methodCarriesBody (method : string) : bool :=
  String.eqb method "POST" || String.eqb method "PUT" || String.eqb method "PATCH".

(** The entries of [args] whose key is not the name of a path or query
    parameter of the operation *)
Definition extraArguments (op : Operation) (args : gmap string json) : gmap string json :=
  filter (fun kv => isPathOrQuery op kv.1 = false) args.

(** The query parameters present in [args], in declaration order, with
    their values as [%v] prints them *)
Definition queryArgs (args : gmap string json) (parameters : list (option Param))
  : list (string * string) :=
  omap (fun paramRef =>
          match paramRef with
          | None => None
          | Some param =>
              if String.eqb (param_In param) "query" then
                (fun val => (param_Name param, Sprint_v val)) <$> args !! param_Name param
              else None
          end) parameters.

(** ** The emitted Python server

    [generateServerCode] writes Python source; the functions below are that
    source, read as Python: [build_url] of [WriteBuildURL], the choice of the
    request statement and, further down, the tool function written by
    [WriteToolDefinition]. *)

(** [sanitizeParamName] converts an OpenAPI parameter name to a valid Python
    variable name (on ASCII names). *)
Definition sanitizeParamName (name : string) : string :=
  string_map (fun r => if is_lower r || is_upper r || is_digit r || Ascii.eqb r "_"
                       then r else "_"%char)
             (ReplaceAll name "-" "_").

(** The values a tool function receives for its typed parameters
    ([str], [int], [float], [bool]); [None] is the absent value. *)
Inductive pyval : Type :=
| PyStr (s : string)
| PyInt (z : Z)
| PyFloat (f : float64)
| PyBool (b : bool).

(** Python's [str(value)] *)
Definition py_str (v : pyval) : string :=
  match v with
  | PyStr s => s
  | PyInt z => NilZero.string_of_int (Z.to_int z)
  | PyFloat f => PyFloatStr f
  | PyBool b => if b then "True" else "False"
  end.

(** A Python [dict] keeps its keys in insertion order; [d[k] = v] *)
Fixpoint dict_set {A} (d : list (string * A)) (k : string) (v : A) : list (string * A) :=
  match d with
  | [] => [(k, v)]
  | (k', v') :: d' =>
      if String.eqb k' k then (k, v) :: d' else (k', v') :: dict_set d' k v
  end.

(** [urllib.parse.quote(s, safe)] on byte strings *)
Fixpoint py_quote (safe : string) (s : string) : string :=
  match s with
  | EmptyString => EmptyString
  | String c s' =>
      if negb (shouldEscape c) || existsb (Ascii.eqb c) (list_ascii_of_string safe)
      then String c (py_quote safe s')
      else String "%" (String (hex_digit (nat_of_ascii c / 16))
                         (String (hex_digit (nat_of_ascii c mod 16)) (py_quote safe s')))
  end.

(** [urllib.parse.quote_plus(s)] *)
Definition quote_plus (s : string) : string :=
  if Contains s " " then ReplaceAll (py_quote " " s) " " "+" else py_quote "" s.

(** [urllib.parse.urlencode(query)] on a dict *)
Definition urlencode (query : list (string * pyval)) : string :=
  String.concat "&"
    ((fun kv => quote_plus kv.1 +:+ "=" +:+ quote_plus (py_str kv.2)) <$> query).

Definition startswith (s prefix : string) : bool := String.prefix prefix s.
Definition endswith (s suffix : string) : bool := HasSuffix s suffix.

(** [build_url(base_url, path, params)] of the emitted module *)
Definition build_url (base_url path : string) (params : list (string * pyval)) : string :=
  (* Handle path parameters *)
  let path :=
    match params with
    | [] => path
    | _ =>
        foldl (fun path kv =>
                 if Contains path (placeholder kv.1)
                 then ReplaceAll path (placeholder kv.1) (py_str kv.2)
                 else path) path params
    end in
  (* Normalize URL joining *)
  let '(base_url, path) :=
    if endswith base_url "/" && startswith path "/" then (base_url, drop1 path)
    else if negb (endswith base_url "/") && negb (startswith path "/")
         then (base_url +:+ "/", path)
         else (base_url, path) in
  let url := base_url +:+ path in
  (* Add query parameters *)
  match params with
  | [] => url
  | _ =>
      let query_params :=
        List.filter (fun kv => negb (Contains path (placeholder kv.1))) params in
      match query_params with
      | [] => url
      | _ => (url +:+ "?") +:+ urlencode query_params
      end
  end.

(** The request statement chosen by [writeRequestCode]: the call carries the
    [body] argument or not. *)
Inductive RequestCode : Type :=
| CallWithoutBody (httpx_method : string)
| CallWithBody (httpx_method : string).

Definition writeRequestCode (method : string) (op : Operation) : RequestCode :=
  if String.eqb method "GET" then CallWithoutBody "get"
  else
    match op_RequestBody op with
    | Some _ => CallWithBody (ToLower method)
    | None => CallWithoutBody (ToLower method)
    end.

(** *** The emitted code, in the words of the specification *)

(** The arguments the tool function received, in declaration order *)
Definition pyArgs (op : Operation) (kwargs : gmap string pyval) : list (string * pyval) :=
  omap (fun paramRef =>
          match paramRef with
          | None => None
          | Some param =>
              (fun v => (param_Name param, v))
                <$> kwargs !! sanitizeParamName (param_Name param)
          end) (op_Parameters op).

(** The call supplies string values for query parameters only, none of
    which names a placeholder of the path, and the tool function receives
    the same strings. *)
Definition string_query_call (path : string) (op : Operation)
    (args : gmap string json) (kwargs : gmap string pyval) : Prop :=
  forall param, Some param ∈ op_Parameters op ->
    match args !! param_Name param with
    | None => kwargs !! sanitizeParamName (param_Name param) = None
    | Some (JStr s) =>
        param_In param = "query" /\
        Contains path (placeholder (param_Name param)) = false /\
        kwargs !! sanitizeParamName (param_Name param) = Some (PyStr s)
    | Some _ => False
    end.

(** ** Names of the generated project *)

(** [sanitizeForPackageName] sanitizes a string to be used as a package
    name (on ASCII titles). *)
Definition sanitizeForPackageName (name : string) : string :=
  let name := ToLower name in
  let name := ReplaceAll name " " "_" in
  let name :=
    string_map (fun r => if is_lower r || is_upper r || is_digit r || Ascii.eqb r "_"
                         then r else "_"%char) name in
  match name with
  | String c _ => if negb (is_lower c || is_upper c) then "mcp_" +:+ name else name
  | EmptyString => name
  end.

(** The [projectName] that [generatePyprojectToml] writes under [name =] *)
Definition projectName (title : string) : string :=
  let projectName := sanitizeForPackageName title in
  if String.eqb projectName "" then "mcp_server" else projectName.

(** The [folderName] of [Generate]: the directory of the project, below the
    output directory *)
Definition folderName (title : string) : string :=
  ToLower (ReplaceAll title " " "_") +:+ "_mcp_server".

(** ** The signature of an emitted tool function *)

(** The Python annotation of a parameter *)
Definition paramType (param : Param) : string :=
  match param_Schema param with
  | Some schema =>
      if String.eqb (schema_Type schema) "integer" then "int"
      else if String.eqb (schema_Type schema) "number" then "float"
      else if String.eqb (schema_Type schema) "boolean" then "bool"
      else "str"
  | None => "str"
  end.

(** [buildParameterLists] builds the lists of required and optional
    parameters: [(requiredParams, optionalParams)]. *)
Definition buildParameterLists (op : Operation) : list string * list string :=
  let lists :=
    foldl (fun (lists : list string * list string) paramRef =>
             match paramRef with
             | None => lists
             | Some param =>
                 let paramName := sanitizeParamName (param_Name param) in
                 if param_Required param
                 then (lists.1 ++ [paramName +:+ ": " +:+ paramType param], lists.2)
                 else (lists.1,
                       lists.2 ++ [paramName +:+ ": Optional[" +:+ paramType param +:+ "] = None"])
             end) ([], []) (op_Parameters op) in
  match op_RequestBody op with
  | Some reqBody =>
      if body_Required reqBody
      then (lists.1 ++ ["body: Union[str, Dict[str, Any]]"], lists.2)
      else (lists.1, lists.2 ++ ["body: Optional[Union[str, Dict[str, Any]]] = None"])
  | None => lists
  end.

(** The [params] of [WriteToolDefinition], joined with [", "] between the
    parentheses of the [def]: required ones first, then optional ones. *)
Definition toolParams (op : Operation) : list string :=
  (buildParameterLists op).1 ++ (buildParameterLists op).2.

(** The [description] of [WriteToolDefinition], written as the docstring *)
Definition toolDescription (path method : string) (op : Operation) : string :=
  let description := op_Summary op in
  let description := if String.eqb description "" then op_Description op else description in
  if String.eqb description "" then method +:+ " " +:+ path else description.

(** *** Characters and names, in the words of the properties *)

(** Every character of the string satisfies [p]. *)
Fixpoint all_chars (p : ascii -> bool) (s : string) : bool :=
  match s with
  | EmptyString => true
  | String c s' => p c && all_chars p s'
  end.

(** ASCII text: on it, bytes are runes, and [string_map], [ToLower] and
    [Title] are [strings.Map], [strings.ToLower] and [strings.Title]. *)
Definition isASCII (s : string) : bool :=
  all_chars (fun c => (nat_of_ascii c <? 128)%nat) s.

(** The characters of a Python identifier *)
Definition isIdentifierRune (r : ascii) : bool :=
  is_lower r || is_upper r || is_digit r || Ascii.eqb r "_".

(** The characters of a package name *)
Definition isPackageRune (r : ascii) : bool :=
  is_lower r || is_digit r || Ascii.eqb r "_".

(** The characters of a route template that a tool ID never keeps *)
Definition isPathPunctuation (c : ascii) : bool :=
  Ascii.eqb c "{" || Ascii.eqb c "}" || Ascii.eqb c "/" || Ascii.eqb c "-".

(** Every character replaced by a string *)
Fixpoint string_flat_map (f : ascii -> string) (s : string) : string :=
  match s with
  | EmptyString => EmptyString
  | String c s' => f c +:+ string_flat_map f s'
  end.

(** What the four replacements of [sanitizePathForToolID] make of one
    character *)
Definition sanitizeRune (c : ascii) : string :=
  if Ascii.eqb c "{" || Ascii.eqb c "}" then ""
  else if Ascii.eqb c "/" || Ascii.eqb c "-" then "_"
  else String c "".

(** What the three passes of [sanitizeForPackageName] make of one
    character *)
Definition packageRune (c : ascii) : ascii :=
  let c := to_lower c in
  let c := if Ascii.eqb c " " then "_"%char else c in
  if isIdentifierRune c then c else "_"%char.

(** The entry of a Python signature declares a default value. *)
Definition hasDefault (entry : string) : bool := HasSuffix entry " = None".

(** The name of the property a tool option declares *)
Definition optionName (opt : ToolOption) : option string :=
  match opt with
  | WithDescription _ => None
  | WithString name _ | WithNumber name _ | WithBoolean name _ => Some name
  end.

(** The name of a parameter that carries a schema *)
Definition exposedName (paramRef : option Param) : option string :=
  match paramRef with
  | Some param =>
      match param_Schema param with
      | Some _ => Some (param_Name param)
      | None => None
      end
  | None => None
  end.

(** [child] is the schema under [items] of [parent]. *)
Definition items_of (parent child : gmap string json) : Prop :=
  parent !! "items" = Some (JObj child).

(** The schemas that [removeNonStandardFields] visits from a schema *)
Definition visited_child (parent child : gmap string json) : Prop :=
  property_of parent child \/ items_of parent child.

(** The version the normalizer writes for a version it reads *)
Definition normalized_version (version : string) : string :=
  if HasPrefix version "3.1" then "3.0.0" else version.

(** The headers the handler sets on the request it sends *)
Definition handlerHeaders (config : Config) : gmap string string :=
  <["Accept" := "application/json"]>
    (<["Content-Type" := "application/json"]>
       (if String.eqb (service_authorization config) "" then ∅
        else {["Authorization" := service_authorization config]})).

(** The document declares operation [op] for [method] on [path]. *)
Definition declares (doc : Document) (path method : string) (op : Operation) : Prop :=
  exists pathItem, doc_Paths doc !! path = Some pathItem /\
                   pathItem !! method = Some (Some op).

(** Python's [d.get(k)] on a dictionary *)
Fixpoint dict_get {A} (d : list (string * A)) (k : string) : option A :=
  match d with
  | [] => None
  | (k', v) :: d' => if String.eqb k' k then Some v else dict_get d' k
  end.

(** The characters of an encoded query string: the unreserved characters,
    the escapes and the separators *)
Definition isQueryRune (c : ascii) : bool :=
  negb (shouldEscape c) || Ascii.eqb c "%" || Ascii.eqb c "+"
  || Ascii.eqb c "=" || Ascii.eqb c "&".

(** ** The emitted tool function

    [WriteToolDefinition] writes the tool ID, the sanitized parameter names,
    the description, the path and the parameter names into the source as
    they are.  The text is a function definition of Python, with the
    meaning read below, when the names are identifiers and the texts can
    stand between quotes. *)

(** The keywords of Python 3 *)
Definition pythonKeywords : list string :=
  ["False"; "None"; "True"; "and"; "as"; "assert"; "async"; "await"; "break";
   "class"; "continue"; "def"; "del"; "elif"; "else"; "except"; "finally";
   "for"; "from"; "global"; "if"; "import"; "in"; "is"; "lambda"; "nonlocal";
   "not"; "or"; "pass"; "raise"; "return"; "try"; "while"; "with"; "yield"].

(** An ASCII identifier of Python: a letter or [_], then letters, digits
    and [_]; no keyword *)
Definition python_identifier (name : string) : bool :=
  match name with
  | EmptyString => false
  | String c _ =>
      negb (is_digit c) && all_chars isIdentifierRune name
      && negb (bool_decide (name ∈ pythonKeywords))
  end.

(** Text that stands for itself between the quotes of a Python string
    literal: printable ASCII without the double quote and the backslash *)
Definition python_text (s : string) : bool :=
  all_chars (fun c => (32 <=? nat_of_ascii c)%nat && (nat_of_ascii c <=? 126)%nat
                      && negb (nat_of_ascii c =? 34)%nat
                      && negb (nat_of_ascii c =? 92)%nat) s.

(** The names that the emitted module and the body of a tool function use
    for themselves; a parameter of one of these names would change what the
    body reads under it. *)
Definition moduleNames : list string :=
  ["params"; "url"; "headers"; "response"; "json_body"; "error_msg"; "e";
   "build_url"; "service_url"; "logger"; "mcp"; "os"; "httpx"; "logging"; "json";
   "urlencode"; "Dict"; "Any"; "Optional"; "Union"; "FastMCP";
   "str"; "isinstance"].

(** A name under which the body reads the argument of a parameter: an
    identifier that starts with a letter (a leading underscore is left
    out, the tool decorator may refuse it) and is no name of the module *)
Definition parameter_name (name : string) : bool :=
  python_identifier name
  && match name with
     | String c _ => is_lower c || is_upper c
     | EmptyString => false
     end
  && negb (bool_decide (name ∈ moduleNames)).

(** The methods for which [httpx] has a function of the lower-case name *)
Definition httpxMethods : list string :=
  ["DELETE"; "GET"; "HEAD"; "OPTIONS"; "PATCH"; "POST"; "PUT"].

(** The names of the parameters of the [def], as [buildParameterLists]
    writes them before the colon *)
Definition parameterNames (op : Operation) : list string :=
  omap (fun paramRef : option Param =>
          (fun param => sanitizeParamName (param_Name param)) <$> paramRef)
       (op_Parameters op)
  ++ match op_RequestBody op with
     | Some _ => ["body"]
     | None => []
     end.

(** The text written by [WriteToolDefinition] is within the Python that the
    model reads: the method is one of [httpx], the function name is an
    identifier, the parameter names are parameter names as above and
    pairwise distinct, and the description, the path and the names of the
    parameters of the operation can stand between quotes.  The condition is
    sufficient for the text to be a function definition with the meaning
    read by [py_tool]; it is not necessary (a docstring may, for instance,
    hold a line break). *)
Definition loadable (path method : string) (op : Operation) : bool :=
  bool_decide (method ∈ httpxMethods)
  && python_identifier (sanitizePathForToolID path method)
  && forallb parameter_name (parameterNames op)
  && bool_decide (NoDup (parameterNames op))
  && python_text (toolDescription path method op)
  && python_text path
  && forallb (fun paramRef : option Param =>
                match paramRef with
                | Some param => python_text (param_Name param)
                | None => true
                end) (op_Parameters op).

(** What a tool function has built when it reaches its request statement *)
Record PyRequest := {
  py_url : string;
  py_headers : list (string * string);
}.

(** The tool function written by [WriteToolDefinition] for an operation,
    run in a module that loads: [kwargs] gives the value each parameter
    holds when the body starts, by Python name; a parameter that holds
    [None] has no entry.  The body fills the [params] dictionary
    ([writeParametersDictionary]), calls [build_url] ([writeBuildURLCall])
    and fills the headers ([writeHeadersSetup]).  The result is what the
    function has built when it reaches its request statement.  Outside
    [loadable] the text may be no Python, or Python that reads its
    parameters otherwise, and the model gives no result. *)
Definition py_tool (py_service_url path method : string) (op : Operation)
    (kwargs : gmap string pyval) : option PyRequest :=
  if loadable path method op then
    let params :=
      foldl (fun params paramRef =>
               match paramRef with
               | None => params
               | Some param =>
                   match kwargs !! sanitizeParamName (param_Name param) with
                   | Some v => dict_set params (param_Name param) v
                   | None => params
                   end
               end) [] (op_Parameters op) in
    let url := build_url py_service_url path params in
    let headers :=
      foldl (fun headers paramRef =>
               match paramRef with
               | None => headers
               | Some param =>
                   if String.eqb (param_In param) "header" then
                     match kwargs !! sanitizeParamName (param_Name param) with
                     | Some v => dict_set headers (param_Name param) (py_str v)
                     | None => headers
                     end
                   else headers
               end) [("Content-Type", "application/json")] (op_Parameters op) in
    Some {| py_url := url; py_headers := headers |}
  else None.

End Definitions.

(** ** A reference instance of the library boundary

    It runs the model on concrete calls.  Numbers are the integral float64
    values (exact up to 2^53); URLs are strings of the shape
    [scheme://host/path?query#fragment] whose scheme, host, path and fragment
    [net/url] prints back as written. *)

Definition decimal (n : N) : string := NilZero.string_of_uint (N.to_uint n).

Fixpoint strip_zeros_rev (digits_rev : string) : string :=
  match digits_rev with
  | String "0" rest => strip_zeros_rev rest
  | _ => digits_rev
  end.

(** The digits without their trailing zeros *)
Definition significant (digits : string) : string :=
  string_rev (strip_zeros_rev (string_rev digits)).

(** [d.ddde+XX], the exponent with at least two digits *)
Definition scientific (digits : string) : string :=
  let exp := N.of_nat (String.length digits - 1) in
  match significant digits with
  | EmptyString => "0"
  | String d EmptyString => String d EmptyString
  | String d rest => String d ("." +:+ rest)
  end +:+ "e+" +:+ (if (exp <? 10)%N then "0" else "") +:+ decimal exp.

Definition sign (z : Z) : string := if (z <? 0)%Z then "-" else "".

(** [%v] on an integral float64: plain digits below 10^6, the exponent
    form from there on. *)
Definition FormatFloat_integral (z : Z) : string :=
  let digits := decimal (Z.abs_N z) in
  sign z +:+ (if (String.length digits <=? 6)%nat then digits else scientific digits).

(** Python's [str] on an integral float: [d.0] up to 16 digits, the exponent
    form beyond. *)
Definition PyFloatStr_integral (z : Z) : string :=
  let digits := decimal (Z.abs_N z) in
  sign z +:+ (if (String.length digits <=? 16)%nat then digits +:+ ".0" else scientific digits).

(** [strings.Cut(s, sep)] for a one-byte separator *)
Fixpoint Cut (sep : ascii) (s : string) : string * option string :=
  match s with
  | EmptyString => (EmptyString, None)
  | String c s' =>
      if Ascii.eqb c sep then (EmptyString, Some s')
      else let '(before, after) := Cut sep s' in (String c before, after)
  end.

Fixpoint split_on (sep : ascii) (s : string) : list string :=
  match s with
  | EmptyString => [EmptyString]
  | String c s' =>
      if Ascii.eqb c sep then EmptyString :: split_on sep s'
      else match split_on sep s' with
           | [] => [String c EmptyString]
           | piece :: pieces => String c piece :: pieces
           end
  end.

Definition unhex (c : ascii) : option nat :=
  let n := nat_of_ascii c in
  if is_digit c then Some (n - 48)%nat
  else if (97 <=? n)%nat && (n <=? 102)%nat then Some (n - 97 + 10)%nat
  else if (65 <=? n)%nat && (n <=? 70)%nat then Some (n - 65 + 10)%nat
  else None.

(** [url.QueryUnescape]; [None] is an escape error *)
Fixpoint QueryUnescape (s : string) : option string :=
  match s with
  | EmptyString => Some EmptyString
  | String c s' =>
      if Ascii.eqb c "%" then
        match s' with
        | String a (String b s'') =>
            match unhex a, unhex b with
            | Some x, Some y => String (ascii_of_nat (16 * x + y)) <$> QueryUnescape s''
            | _, _ => None
            end
        | _ => None
        end
      else String (if Ascii.eqb c "+" then " "%char else c) <$> QueryUnescape s'
  end.

(** [url.ParseQuery], its error dropped as [u.Query()] does: a pair with a
    semicolon or a bad escape is skipped. *)
Definition ParseQuery (query : string) : gmap string (list string) :=
  foldl (fun m pair =>
           if Contains pair ";" || String.eqb pair "" then m
           else
             let '(key, value) := Cut "=" pair in
             match QueryUnescape key, QueryUnescape (default "" value) with
             | Some key, Some value => Values_Add m key value
             | _, _ => m
             end) ∅ (split_on "&" query).

Record PlainURL := {
  (** scheme, authority and path *)
  url_Prefix : string;
  url_ForceQuery : bool;
  url_RawQuery : string;
  url_Fragment : string;
}.

Definition containsCTLByte (s : string) : bool :=
  existsb (fun c => (nat_of_ascii c <? 32)%nat || (nat_of_ascii c =? 127)%nat)
          (list_ascii_of_string s).

Definition plain_Parse (rawURL : string) : option PlainURL :=
  if containsCTLByte rawURL then None
  else
    let '(rest, frag) := Cut "#" rawURL in
    let '(prefix, query) := Cut "?" rest in
    Some {| url_Prefix := prefix;
            url_ForceQuery := bool_decide (query = Some EmptyString);
            url_RawQuery := default "" query;
            url_Fragment := default "" frag |}.

Definition plain_String (u : PlainURL) (rawQuery : string) : string :=
  url_Prefix u
  +:+ (if url_ForceQuery u || negb (String.eqb rawQuery "") then "?" +:+ rawQuery else "")
  +:+ (if String.eqb (url_Fragment u) "" then "" else "#" +:+ url_Fragment u).

Definition reference : GoLib := {|
  float64 := Z;
  FormatFloat := FormatFloat_integral;
  PyFloatStr := PyFloatStr_integral;
  URL := PlainURL;
  url_Parse := plain_Parse;
  URL_Query := fun u => ParseQuery (url_RawQuery u);
  URL_String := plain_String;
|}.

(** ** Concrete documents and calls *)

Section Examples.
Local Existing Instance reference.

(** A 3.0.0 document with a vendor field and no null-union *)
Definition plain_document : jsonbytes :=
  Text (JObj {[
    "openapi" := JStr "3.0.0";
    "components" := JObj {[
      "schemas" := JObj {[
        "User" := JObj {[
          "type" := JStr "object";
          "error_messages" := JObj {[ "required" := JStr "missing" ]};
          "properties" := JObj {[ "id" := JObj {[ "type" := JStr "integer" ]} ]} ]} ]} ]} ]}).

(** A 3.1 document whose [User.nick] is a null-union *)
Definition nullable_spec : gmap string json :=
  {[ "openapi" := JStr "3.1.0";
     "components" := JObj {[
       "schemas" := JObj {[
         "User" := JObj {[
           "type" := JStr "object";
           "properties" := JObj {[
             "nick" := JObj {[
               "anyOf" := JArr [JObj {[ "type" := JStr "string"; "maxLength" := JNum 8%Z ]};
                                JObj {[ "type" := JStr "null" ]}] ]} ]} ]} ]} ]} ]}.

Definition nullable_nick : gmap string json :=
  {[ "type" := JStr "string"; "maxLength" := JNum 8%Z; "nullable" := JBool true ]}.

Definition nullable_User : gmap string json :=
  {[ "type" := JStr "object"; "properties" := JObj {[ "nick" := JObj nullable_nick ]} ]}.


(** [Tags.items] is a null-union *)
Definition nullable_items_document : jsonbytes :=
  Text (JObj {[
    "components" := JObj {[
      "schemas" := JObj {[
        "Tags" := JObj {[
          "type" := JStr "array";
          "items" := JObj {[
            "anyOf" := JArr [JObj {[ "type" := JStr "string" ]};
                             JObj {[ "type" := JStr "null" ]}] ]} ]} ]} ]} ]}).

(** A document without the keys the normalizer looks at *)
Definition bare_spec : gmap string json :=
  {[ "info" := JObj {[ "title" := JStr "Test API" ]} ]}.

Definition path_id : Param :=
  {| param_Name := "id"; param_In := "path"; param_Required := true;
     param_Description := ""; param_Schema := Some {| schema_Type := "string"; schema_Enum := [] |} |}.

Definition query_param (name : string) : Param :=
  {| param_Name := name; param_In := "query"; param_Required := false;
     param_Description := ""; param_Schema := Some {| schema_Type := "string"; schema_Enum := [] |} |}.

Definition json_body : RequestBody :=
  {| body_Required := true; body_Description := "";
     body_Content := {[ "application/json" :=
                          {| media_Schema := Some {| schema_Type := "object"; schema_Enum := [] |} |} ]} |}.

(** [GET /users/{id}] *)
Definition get_user : Operation :=
  {| op_Summary := "Get a user"; op_Description := "";
     op_Parameters := [Some path_id]; op_RequestBody := None |}.

(** [GET /items?b=&a=], the parameters declared in this order *)
Definition list_items : Operation :=
  {| op_Summary := "List items"; op_Description := "";
     op_Parameters := [Some (query_param "b"); Some (query_param "a")];
     op_RequestBody := None |}.

(** [GET /items?a=&b=], the parameters declared by ascending name *)
Definition search_items : Operation :=
  {| op_Summary := "Search items"; op_Description := "";
     op_Parameters := [Some (query_param "a"); Some (query_param "b")];
     op_RequestBody := None |}.

(** [POST /orders] without a request body *)
Definition post_plain : Operation :=
  {| op_Summary := "Create"; op_Description := "";
     op_Parameters := []; op_RequestBody := None |}.

(** [POST /users/{id}/activate] with a JSON request body *)
Definition post_activate : Operation :=
  {| op_Summary := "Activate"; op_Description := "";
     op_Parameters := [Some path_id]; op_RequestBody := Some json_body |}.

Definition two_paths : Document :=
  {| doc_Title := "Test API";
     doc_Paths := {[ "/users/{id}" := {[ "GET" := Some get_user ]};
                     "/items" := {[ "GET" := Some list_items ]} ]} |}.

Definition mock_config : Config :=
  {| service_url := ""; service_authorization := "" |}.

Definition no_transport (req : Request) : result Response := Err "no network".

Definition orders_request (body : option payload) : Request :=
  {| req_Method := "POST";
     req_URL := {| url_Prefix := "https://api.example.com/orders"; url_ForceQuery := false;
                   url_RawQuery := ""; url_Fragment := "" |};
     req_Header := ∅;
     req_Body := body |}.

Definition activate_request (body : option payload) : Request :=
  {| req_Method := "POST";
     req_URL := {| url_Prefix := "https://api.example.com/users/7/activate";
                   url_ForceQuery := false; url_RawQuery := ""; url_Fragment := "" |};
     req_Header := ∅;
     req_Body := body |}.

(** The normalized [nullable_spec] *)
Definition nullable_normalized : gmap string json :=
  {[ "openapi" := JStr "3.0.0";
     "components" := JObj {[ "schemas" := JObj {[ "User" := JObj nullable_User ]} ]} ]}.

(** [User.address] is a null-union of an object whose property [zip] is a
    null-union too *)
Definition nested_zip : gmap string json :=
  {[ "anyOf" := JArr [JObj {[ "type" := JStr "null" ]};
                      JObj {[ "type" := JStr "string"; "pattern" := JStr "[0-9]+" ]}];
     "description" := JStr "zip code" ]}.

Definition nested_User : gmap string json :=
  {[ "type" := JStr "object";
     "properties" := JObj {[
       "address" := JObj {[
         "anyOf" := JArr [JObj {[ "type" := JStr "object";
                                  "properties" := JObj {[ "zip" := JObj nested_zip ]} ]};
                          JObj {[ "type" := JStr "null" ]}];
         "properties" := JObj {[ "old" := JObj {[ "type" := JStr "integer" ]} ]} ]} ]} ]}.

Definition nested_spec : gmap string json :=
  {[ "openapi" := JStr "3.1.0";
     "components" := JObj {[ "schemas" := JObj {[ "User" := JObj nested_User ]} ]} ]}.

(** [User] of [plain_document] without its vendor field *)
Definition plain_User : gmap string json :=
  {[ "type" := JStr "object";
     "properties" := JObj {[ "id" := JObj {[ "type" := JStr "integer" ]} ]} ]}.

Definition plain_normalized : gmap string json :=
  {[ "openapi" := JStr "3.0.0";
     "components" := JObj {[ "schemas" := JObj {[ "User" := JObj plain_User ]} ]} ]}.

(** [GET /items?q=] with the given schema for [q] *)
Definition items_parameter (schema : gmap string json) : gmap string json :=
  {[ "name" := JStr "q"; "in" := JStr "query"; "schema" := JObj schema ]}.

Definition items_spec (schema : gmap string json) : gmap string json :=
  {[ "paths" := JObj {[
       "/items" := JObj {[
         "get" := JObj {[
           "parameters" := JArr [JObj (items_parameter schema)] ]} ]} ]} ]}.

Definition string_or_null : gmap string json :=
  {[ "anyOf" := JArr [JObj {[ "type" := JStr "string" ]}; JObj {[ "type" := JStr "null" ]}] ]}.

Definition nullable_string : gmap string json :=
  {[ "type" := JStr "string"; "nullable" := JBool true ]}.

(** The entry [Nick] of [components.schemas] is itself a null-union *)
Definition nullable_entry_document : jsonbytes :=
  Text (JObj {[
    "components" := JObj {[ "schemas" := JObj {[ "Nick" := JObj string_or_null ]} ]} ]}).

Definition header_param (name : string) : Param :=
  {| param_Name := name; param_In := "header"; param_Required := false;
     param_Description := ""; param_Schema := Some {| schema_Type := "string"; schema_Enum := [] |} |}.

(** [GET /items] with a header parameter *)
Definition traced_items : Operation :=
  {| op_Summary := ""; op_Description := "";
     op_Parameters := [Some (header_param "X-Trace")]; op_RequestBody := None |}.

Definition live_config : Config :=
  {| service_url := "https://api.example.com"; service_authorization := "Bearer t" |}.

(** A transport that answers every request with [200 ok] *)
Definition found_transport (req : Request) : result Response :=
  Ok {| resp_StatusCode := 200; resp_Body := Ok "ok" |}.

(** The request the handler sends for [GET /users/{id}] with [id = "7"] *)
Definition user_request : Request :=
  {| req_Method := "GET";
     req_URL := {| url_Prefix := "https://api.example.com/users/7"; url_ForceQuery := false;
                   url_RawQuery := ""; url_Fragment := "" |};
     req_Header := {[ "Accept" := "application/json"; "Content-Type" := "application/json";
                      "Authorization" := "Bearer t" ]};
     req_Body := None |}.

End Examples.

(** * Properties *)

(** ** Byte order on strings *)

Lemma ascii_compare_N (a b : ascii) :
  Ascii.compare a b = N.compare (N_of_ascii a) (N_of_ascii b).
Proof. reflexivity. Qed.

Lemma string_compare_le_trans (a b c : string) :
  String.compare a b <> Gt -> String.compare b c <> Gt -> String.compare a c <> Gt.
Proof.
  revert b c. induction a as [|x a IH]; intros [|y b] [|z c]; simpl; try congruence.
  rewrite !ascii_compare_N.
  destruct (N.compare_spec (N_of_ascii x) (N_of_ascii y)) as [Hxy|Hxy|Hxy];
    destruct (N.compare_spec (N_of_ascii y) (N_of_ascii z)) as [Hyz|Hyz|Hyz];
    destruct (N.compare_spec (N_of_ascii x) (N_of_ascii z)) as [Hxz|Hxz|Hxz];
    try congruence; try lia; eauto.
Qed.

Lemma leb_compare (a b : string) : String.leb a b = true <-> String.compare a b <> Gt.
Proof. unfold String.leb. destruct (String.compare a b); split; congruence. Qed.

Global Instance string_le_trans : Transitive string_le.
Proof.
  intros a b c. unfold string_le. rewrite !leb_compare. apply string_compare_le_trans.
Qed.

Global Instance string_le_total : Total string_le.
Proof. intros a b. apply String.leb_total. Qed.

Global Instance string_le_antisym : AntiSymm (=) string_le.
Proof. intros a b. apply String.leb_antisym. Qed.

Global Instance string_le_refl : Reflexive string_le.
Proof. intros a. destruct (String.leb_total a a); assumption. Qed.

(** ** Appending and matching strings *)

Lemma append_assoc (a b c : string) : (a +:+ b) +:+ c = a +:+ (b +:+ c).
Proof.
  induction a as [|x a IH]; [done|].
  change (String x ((a +:+ b) +:+ c) = String x (a +:+ (b +:+ c))). by rewrite IH.
Qed.

Lemma append_nil_r (a : string) : a +:+ "" = a.
Proof.
  induction a as [|x a IH]; [done|].
  change (String x (a +:+ "") = String x a). by rewrite IH.
Qed.

Lemma prefix_single (a c : ascii) (rest : string) :
  String.prefix (String a "") (String c rest) = Ascii.eqb c a.
Proof.
  simpl. destruct (ascii_dec a c) as [->|Hne].
  - rewrite Ascii.eqb_refl. by destruct rest.
  - symmetry. apply Ascii.eqb_neq. congruence.
Qed.

Lemma replace_space_cons (c : ascii) (s : string) :
  replace_from " " "+" 0 (String c s) =
  String (if Ascii.eqb c " " then "+"%char else c) (replace_from " " "+" 0 s).
Proof.
  cbn [replace_from]. rewrite prefix_single.
  by destruct (Ascii.eqb c " ").
Qed.

Section Properties.
Context `{!GoLib}.

(** ** Depth of trees *)

Lemma foldr_max_elem {A} (f : A -> nat) (l : list A) (x : A) :
  x ∈ l -> f x <= foldr (fun y acc => max (f y) acc) 0 l.
Proof.
  induction 1 as [|? ? ? ? IH]; simpl; lia.
Qed.

Lemma foldr_max_bound {A} (f : A -> nat) (l : list A) (n : nat) :
  (forall x, x ∈ l -> f x <= n) -> foldr (fun y acc => max (f y) acc) 0 l <= n.
Proof.
  induction l as [|y l IH]; intros Hall; simpl; [lia|].
  apply Nat.max_lub.
  - apply Hall. left.
  - apply IH. intros x Hx. apply Hall. by right.
Qed.

Lemma depth_obj (m : gmap string json) :
  depth (JObj m) = S (foldr (fun kv acc => max (depth kv.2) acc) 0 (map_to_list m)).
Proof.
  simpl. f_equal. rewrite map_fold_foldr.
  induction (map_to_list m) as [|[k v] l IH]; simpl; congruence.
Qed.

Lemma depth_lookup (m : gmap string json) (k : string) (v : json) :
  m !! k = Some v -> depth v < depth (JObj m).
Proof.
  intros Hk. rewrite depth_obj.
  apply elem_of_map_to_list in Hk.
  pose proof (foldr_max_elem (fun kv : string * json => depth kv.2) _ _ Hk) as Hle.
  simpl in Hle. lia.
Qed.

Lemma depth_obj_bound (m : gmap string json) (n : nat) :
  (forall k v, m !! k = Some v -> depth v <= n) -> depth (JObj m) <= S n.
Proof.
  intros Hall. rewrite depth_obj. apply le_n_S, foldr_max_bound.
  intros [k v] Hkv. apply Hall with k. by apply elem_of_map_to_list.
Qed.

Lemma depth_elem (l : list json) (v : json) :
  v ∈ l -> depth v < depth (JArr l).
Proof.
  intros Hv. simpl. pose proof (foldr_max_elem depth l v Hv). lia.
Qed.

Lemma depth_obj_pos (m : gmap string json) : 1 <= depth (JObj m).
Proof. simpl. lia. Qed.

(** ** [fixAnyOf] *)

Lemma fixAnyOf_main (schema : gmap string json) :
  fixAnyOf schema =
  match main_alternative schema with
  | Some mainType => delete "anyOf" (<["nullable" := JBool true]> (mainType ∪ schema))
  | None => schema
  end.
Proof.
  unfold fixAnyOf, main_alternative, null_alternative, typed_alternative, type_of.
  destruct (schema !! "anyOf") as [[| ? | ? | ? |anyOf| ? ]|]; try reflexivity.
  destruct anyOf as [|a [|b [|c anyOf]]];
    [reflexivity | by destruct a | | by destruct a, b].
  cbn [length Nat.eqb foldl scan_alternative].
  destruct a as [| ? | ? | ? | ? |a], b as [| ? | ? | ? | ? |b]; cbn; try reflexivity;
    repeat (case_match; simplify_eq; cbn in *; try reflexivity; try done).
  all: repeat (case_bool_decide; simplify_eq; cbn in *; try reflexivity; try done).
  all: repeat match goal with
         | E : String.eqb _ _ = true |- _ => apply String.eqb_eq in E
         | E : String.eqb _ _ = false |- _ => apply String.eqb_neq in E
         end; congruence.
Qed.

Lemma main_alternative_None (schema : gmap string json) :
  schema !! "anyOf" = None -> main_alternative schema = None.
Proof. unfold main_alternative. by intros ->. Qed.

Lemma main_alternative_ext (schema schema' : gmap string json) :
  schema !! "anyOf" = schema' !! "anyOf" ->
  main_alternative schema = main_alternative schema'.
Proof. unfold main_alternative. by intros ->. Qed.

Lemma main_alternative_elem (schema mainType : gmap string json) :
  main_alternative schema = Some mainType ->
  exists anyOf, schema !! "anyOf" = Some (JArr anyOf) /\ JObj mainType ∈ anyOf.
Proof.
  unfold main_alternative. intros Hmain.
  repeat (case_match; simplify_eq); eexists; (split; [reflexivity|]); set_solver.
Qed.

Lemma fixAnyOf_main_None (schema : gmap string json) :
  main_alternative (fixAnyOf schema) = None.
Proof.
  rewrite fixAnyOf_main. destruct (main_alternative schema) eqn:Hmain; [|done].
  apply main_alternative_None, lookup_delete_eq.
Qed.

Lemma fixAnyOf_noop (schema : gmap string json) :
  main_alternative schema = None -> fixAnyOf schema = schema.
Proof. intros Hmain. by rewrite fixAnyOf_main, Hmain. Qed.

Lemma fixAnyOf_idem (schema : gmap string json) :
  fixAnyOf (fixAnyOf schema) = fixAnyOf schema.
Proof. apply fixAnyOf_noop, fixAnyOf_main_None. Qed.

Lemma fix_if_anyOf (propObj : gmap string json) :
  (if decide (is_Some (propObj !! "anyOf")) then fixAnyOf propObj else propObj)
  = fixAnyOf propObj.
Proof.
  case_decide as Hany; [done|].
  symmetry. apply fixAnyOf_noop, main_alternative_None. by apply eq_None_not_Some.
Qed.

Lemma fixAnyOf_depth (schema : gmap string json) :
  depth (JObj (fixAnyOf schema)) <= depth (JObj schema).
Proof.
  rewrite fixAnyOf_main. destruct (main_alternative schema) as [mainType|] eqn:Hmain; [|done].
  destruct (main_alternative_elem _ _ Hmain) as (anyOf & Hany & Hin).
  pose proof (depth_lookup _ _ _ Hany) as H1. pose proof (depth_elem _ _ Hin) as H2.
  destruct (depth (JObj schema)) as [|d] eqn:Hd; [lia|].
  apply depth_obj_bound. intros k v Hkv.
  apply lookup_delete_Some in Hkv as [_ Hkv].
  apply lookup_insert_Some in Hkv as [[_ <-]|[_ Hkv]]; [simpl; lia|].
  apply lookup_union_Some_raw in Hkv as [Hkv|[_ Hkv]].
  - pose proof (depth_lookup _ _ _ Hkv). lia.
  - pose proof (depth_lookup _ _ _ Hkv). lia.
Qed.

(** ** Depth under the updates of the walks *)

Lemma depth_fmap_le (f : json -> json) (m : gmap string json) :
  (forall k v, m !! k = Some v -> depth (f v) <= depth v) ->
  depth (JObj (f <$> m)) <= depth (JObj m).
Proof.
  intros Hf. destruct (depth (JObj m)) as [|d] eqn:Hd; [simpl in Hd; lia|].
  apply depth_obj_bound. intros k v Hkv.
  apply lookup_fmap_Some in Hkv as (w & <- & Hw).
  pose proof (depth_lookup _ _ _ Hw). specialize (Hf _ _ Hw). lia.
Qed.

Lemma depth_insert_le (m : gmap string json) (k : string) (old v : json) :
  m !! k = Some old -> depth v <= depth old ->
  depth (JObj (<[k := v]> m)) <= depth (JObj m).
Proof.
  intros Hold Hle. pose proof (depth_lookup _ _ _ Hold).
  destruct (depth (JObj m)) as [|d] eqn:Hd; [lia|].
  apply depth_obj_bound. intros k' v' Hkv.
  apply lookup_insert_Some in Hkv as [[_ <-]|[_ Hkv]]; [lia|].
  pose proof (depth_lookup _ _ _ Hkv). lia.
Qed.

Lemma depth_delete_le (m : gmap string json) (k : string) :
  depth (JObj (delete k m)) <= depth (JObj m).
Proof.
  destruct (depth (JObj m)) as [|d] eqn:Hd; [simpl in Hd; lia|].
  apply depth_obj_bound. intros k' v' Hkv.
  apply lookup_delete_Some in Hkv as [_ Hkv].
  pose proof (depth_lookup _ _ _ Hkv). lia.
Qed.

(** ** [fixNullTypes]: the fuel is enough *)

Lemma fixNullTypes_fuel_S (n : nat) (schema : gmap string json) :
  fixNullTypes_fuel (S n) schema =
  match schema !! "properties" with
  | Some (JObj properties) =>
      <["properties" :=
          JObj (on_obj (fun propObj => fixNullTypes_fuel n (fixAnyOf propObj))
                  <$> properties)]> schema
  | _ => schema
  end.
Proof.
  simpl. repeat case_match; try done.
  do 2 f_equal. apply map_fmap_ext. intros k [] _; simpl; try done.
  by rewrite fix_if_anyOf.
Qed.

Lemma fixNullTypes_fuel_lookup (n : nat) (schema : gmap string json) (k : string) :
  k <> "properties" -> fixNullTypes_fuel n schema !! k = schema !! k.
Proof.
  intros Hk. destruct n; [done|]. rewrite fixNullTypes_fuel_S.
  repeat case_match; try done. by rewrite lookup_insert_ne.
Qed.

Lemma fixNullTypes_fuel_depth (n : nat) (schema : gmap string json) :
  depth (JObj (fixNullTypes_fuel n schema)) <= depth (JObj schema).
Proof.
  revert schema. induction n as [|n IH]; intros schema; [done|].
  rewrite fixNullTypes_fuel_S.
  destruct (schema !! "properties") as [[| ? | ? | ? | ? |properties]|] eqn:Hprops; try done.
  eapply depth_insert_le; [done|].
  apply depth_fmap_le. intros k [] _; simpl; try done.
  etrans; [apply IH|apply fixAnyOf_depth].
Qed.

Lemma fixNullTypes_fuel_stable (n m : nat) (schema : gmap string json) :
  depth (JObj schema) <= n -> depth (JObj schema) <= m ->
  fixNullTypes_fuel n schema = fixNullTypes_fuel m schema.
Proof.
  revert m schema. induction n as [|n IH]; intros m schema Hn Hm.
  { pose proof (depth_obj_pos schema). lia. }
  destruct m as [|m]; [pose proof (depth_obj_pos schema); lia|].
  rewrite !fixNullTypes_fuel_S.
  destruct (schema !! "properties") as [[| ? | ? | ? | ? |properties]|] eqn:Hprops; try done.
  do 2 f_equal. apply map_fmap_ext. intros k v Hkv.
  destruct v as [| ? | ? | ? | ? |propObj]; simpl; try done. f_equal.
  pose proof (depth_lookup _ _ _ Hprops). pose proof (depth_lookup _ _ _ Hkv).
  pose proof (fixAnyOf_depth propObj).
  apply IH; lia.
Qed.

Lemma fixNullTypes_fuel_enough (n : nat) (schema : gmap string json) :
  depth (JObj schema) <= n -> fixNullTypes_fuel n schema = fixNullTypes schema.
Proof. intros Hn. unfold fixNullTypes. by apply fixNullTypes_fuel_stable. Qed.

(** ** [removeNonStandardFields] *)

Lemma removeNonStandardFields_fuel_lookup (n : nat) (schema : gmap string json) (k : string) :
  removeNonStandardFields_fuel (S n) schema !! k =
  if decide (k = "error_messages" \/ k = "hide_error_details") then None
  else if decide (k = "properties") then
    match schema !! "properties" with
    | Some (JObj properties) =>
        Some (JObj (on_obj (removeNonStandardFields_fuel n) <$> properties))
    | other => other
    end
  else if decide (k = "items") then
    match schema !! "items" with
    | Some (JObj items) => Some (JObj (removeNonStandardFields_fuel n items))
    | other => other
    end
  else schema !! k.
Proof.
  cbn [removeNonStandardFields_fuel nonStandardFields foldl].
  set (s1 := delete "hide_error_details" (delete "error_messages" schema)).
  assert (Hs1 : forall j, s1 !! j =
                  if decide (j = "error_messages" \/ j = "hide_error_details")
                  then None else schema !! j).
  { intros j. unfold s1. case_decide as Hj.
    - destruct Hj as [->| ->]; [by rewrite lookup_delete_ne, lookup_delete_eq|
                                by rewrite lookup_delete_eq].
    - rewrite !lookup_delete_ne; [done|intros <-; tauto|intros <-; tauto]. }
  pose proof (Hs1 "properties") as Hp. pose proof (Hs1 "items") as Hi.
  rewrite decide_False in Hp by (intros [?|?]; done).
  rewrite decide_False in Hi by (intros [?|?]; done).
  rewrite Hp. clear Hp.
  destruct (schema !! "properties") as [[| ? | ? | ? | ? |properties]|] eqn:Hprops;
    rewrite ?lookup_insert, ?Hi;
    destruct (schema !! "items") as [[| ? | ? | ? | ? |items]|] eqn:Hitems;
    repeat (first [rewrite lookup_insert | rewrite Hs1 | case_decide
                  | progress simplify_eq]);
    try done; naive_solver.
Qed.

Lemma removeNonStandardFields_fuel_anyOf (n : nat) (schema : gmap string json) :
  removeNonStandardFields_fuel n schema !! "anyOf" = schema !! "anyOf".
Proof.
  destruct n; [done|]. rewrite removeNonStandardFields_fuel_lookup.
  rewrite decide_False by (intros [?|?]; done).
  by rewrite !decide_False by done.
Qed.

Lemma removeNonStandardFields_fuel_idem (n : nat) (schema : gmap string json) :
  removeNonStandardFields_fuel n (removeNonStandardFields_fuel n schema)
  = removeNonStandardFields_fuel n schema.
Proof.
  revert schema. induction n as [|n IH]; intros schema; [done|].
  apply map_eq. intros k.
  rewrite (removeNonStandardFields_fuel_lookup n (removeNonStandardFields_fuel (S n) schema)).
  rewrite !removeNonStandardFields_fuel_lookup.
  repeat case_decide; simplify_eq; try done.
  - destruct (schema !! "properties") as [[| ? | ? | ? | ? |properties]|]; try done.
    do 2 f_equal. rewrite <- map_fmap_compose. apply map_fmap_ext.
    intros j [] _; simpl; try done. by rewrite IH.
  - destruct (schema !! "items") as [[| ? | ? | ? | ? |items]|]; try done.
    by rewrite IH.
Qed.

Lemma removeNonStandardFields_fuel_depth (n : nat) (schema : gmap string json) :
  depth (JObj (removeNonStandardFields_fuel n schema)) <= depth (JObj schema).
Proof.
  revert schema. induction n as [|n IH]; intros schema; [done|].
  destruct (depth (JObj schema)) as [|d] eqn:Hd; [simpl in Hd; lia|].
  apply depth_obj_bound. intros k v.
  rewrite removeNonStandardFields_fuel_lookup. intros Hkv.
  repeat case_decide; simplify_eq.
  - destruct (schema !! "properties") as [[| ? | ? | ? | ? |properties]|] eqn:Hprops;
      simplify_eq; try (pose proof (depth_lookup _ _ _ Hprops); lia).
    pose proof (depth_lookup _ _ _ Hprops).
    assert (depth (JObj (on_obj (removeNonStandardFields_fuel n) <$> properties))
            <= depth (JObj properties)); [|lia].
    apply depth_fmap_le. intros j [] _; simpl; try done. apply IH.
  - destruct (schema !! "items") as [[| ? | ? | ? | ? |items]|] eqn:Hitems;
      simplify_eq; try (pose proof (depth_lookup _ _ _ Hitems); lia).
    pose proof (depth_lookup _ _ _ Hitems). pose proof (IH items). lia.
  - pose proof (depth_lookup _ _ _ Hkv). lia.
Qed.

Lemma removeNonStandardFields_fuel_stable (n m : nat) (schema : gmap string json) :
  depth (JObj schema) <= n -> depth (JObj schema) <= m ->
  removeNonStandardFields_fuel n schema = removeNonStandardFields_fuel m schema.
Proof.
  revert m schema. induction n as [|n IH]; intros m schema Hn Hm.
  { pose proof (depth_obj_pos schema). lia. }
  destruct m as [|m]; [pose proof (depth_obj_pos schema); lia|].
  apply map_eq. intros k. rewrite !removeNonStandardFields_fuel_lookup.
  repeat case_decide; simplify_eq; try done.
  - destruct (schema !! "properties") as [[| ? | ? | ? | ? |properties]|] eqn:Hprops; try done.
    do 2 f_equal. apply map_fmap_ext. intros j v Hjv.
    destruct v as [| ? | ? | ? | ? |propObj]; simpl; try done. f_equal.
    pose proof (depth_lookup _ _ _ Hprops). pose proof (depth_lookup _ _ _ Hjv).
    apply IH; lia.
  - destruct (schema !! "items") as [[| ? | ? | ? | ? |items]|] eqn:Hitems; try done.
    do 2 f_equal. pose proof (depth_lookup _ _ _ Hitems). apply IH; lia.
Qed.

Lemma removeNonStandardFields_fuel_enough (n : nat) (schema : gmap string json) :
  depth (JObj schema) <= n ->
  removeNonStandardFields_fuel n schema = removeNonStandardFields schema.
Proof. intros Hn. unfold removeNonStandardFields. by apply removeNonStandardFields_fuel_stable. Qed.

(** ** Idempotence of the schema walks *)

Lemma fixNullTypes_fuel_main (n : nat) (schema : gmap string json) :
  main_alternative (fixNullTypes_fuel n schema) = main_alternative schema.
Proof. apply main_alternative_ext. by apply fixNullTypes_fuel_lookup. Qed.

Lemma fixNullTypes_fuel_idem (n : nat) (schema : gmap string json) :
  fixNullTypes_fuel n (fixNullTypes_fuel n schema) = fixNullTypes_fuel n schema.
Proof.
  revert schema. induction n as [|n IH]; intros schema; [done|].
  rewrite (fixNullTypes_fuel_S n schema).
  destruct (schema !! "properties") as [[| ? | ? | ? | ? |properties]|] eqn:Hprops;
    try (by rewrite fixNullTypes_fuel_S, Hprops).
  rewrite fixNullTypes_fuel_S, lookup_insert_eq, insert_insert_eq.
  do 2 f_equal. rewrite <- map_fmap_compose. apply map_fmap_ext.
  intros k [| ? | ? | ? | ? |propObj] _; simpl; try done. f_equal.
  rewrite (fixAnyOf_noop (fixNullTypes_fuel n _)); [apply IH|].
  rewrite fixNullTypes_fuel_main. apply fixAnyOf_main_None.
Qed.

(** A schema on which [fixNullTypes] has nothing left to do stays so when
    the non-standard fields are removed. *)
Lemma fixNullTypes_fuel_remove (n k : nat) (schema : gmap string json) :
  fixNullTypes_fuel n schema = schema ->
  fixNullTypes_fuel n (removeNonStandardFields_fuel k schema)
  = removeNonStandardFields_fuel k schema.
Proof.
  revert k schema. induction n as [|n IH]; intros k schema Hfix; [done|].
  destruct k as [|k]; [done|].
  rewrite fixNullTypes_fuel_S in *.
  rewrite removeNonStandardFields_fuel_lookup.
  rewrite decide_False by (intros [?|?]; done). rewrite decide_True by done.
  destruct (schema !! "properties") as [[| ? | ? | ? | ? |properties]|] eqn:Hprops; try done.
  apply insert_id.
  rewrite removeNonStandardFields_fuel_lookup.
  rewrite decide_False by (intros [?|?]; done). rewrite decide_True by done.
  rewrite Hprops. do 2 f_equal.
  assert (Hpointwise : on_obj (fun propObj => fixNullTypes_fuel n (fixAnyOf propObj))
                         <$> properties = properties).
  { apply (f_equal (fun m => m !! "properties")) in Hfix.
    rewrite lookup_insert_eq, Hprops in Hfix. congruence. }
  rewrite <- map_fmap_compose. apply map_fmap_ext.
  intros j v Hjv.
  apply (f_equal (fun m => m !! j)) in Hpointwise.
  rewrite lookup_fmap, Hjv in Hpointwise.
  destruct v as [| ? | ? | ? | ? |propObj]; simpl in *; try done. f_equal.
  assert (Hsettled : fixNullTypes_fuel n (fixAnyOf propObj) = propObj) by congruence.
  assert (Hmain : main_alternative propObj = None).
  { rewrite <- Hsettled at 1. rewrite fixNullTypes_fuel_main. apply fixAnyOf_main_None. }
  rewrite (fixAnyOf_noop propObj Hmain) in Hsettled.
  rewrite fixAnyOf_noop; [symmetry; by apply IH|].
  rewrite <- Hmain. apply main_alternative_ext, removeNonStandardFields_fuel_anyOf.
Qed.

Lemma fixNullTypes_depth (schema : gmap string json) :
  depth (JObj (fixNullTypes schema)) <= depth (JObj schema).
Proof. apply fixNullTypes_fuel_depth. Qed.

Lemma removeNonStandardFields_depth (schema : gmap string json) :
  depth (JObj (removeNonStandardFields schema)) <= depth (JObj schema).
Proof. apply removeNonStandardFields_fuel_depth. Qed.

Lemma fixNullTypes_idem (schema : gmap string json) :
  fixNullTypes (fixNullTypes schema) = fixNullTypes schema.
Proof.
  rewrite <- (fixNullTypes_fuel_enough (depth (JObj schema)) (fixNullTypes schema))
    by apply fixNullTypes_depth.
  apply fixNullTypes_fuel_idem.
Qed.

Lemma removeNonStandardFields_idem (schema : gmap string json) :
  removeNonStandardFields (removeNonStandardFields schema) = removeNonStandardFields schema.
Proof.
  rewrite <- (removeNonStandardFields_fuel_enough (depth (JObj schema))
                (removeNonStandardFields schema))
    by apply removeNonStandardFields_depth.
  apply removeNonStandardFields_fuel_idem.
Qed.

Lemma fixNullTypes_remove (schema : gmap string json) :
  fixNullTypes schema = schema ->
  fixNullTypes (removeNonStandardFields schema) = removeNonStandardFields schema.
Proof.
  intros Hfix.
  rewrite <- (fixNullTypes_fuel_enough (depth (JObj schema)) (removeNonStandardFields schema))
    by apply removeNonStandardFields_depth.
  by apply fixNullTypes_fuel_remove.
Qed.

Lemma normalize_schema_idem (schema : gmap string json) :
  removeNonStandardFields (fixNullTypes
    (removeNonStandardFields (fixNullTypes schema)))
  = removeNonStandardFields (fixNullTypes schema).
Proof.
  rewrite fixNullTypes_remove by apply fixNullTypes_idem.
  apply removeNonStandardFields_idem.
Qed.

(** ** Idempotence of the normalizer *)

Lemma on_obj_idem (f : gmap string json -> gmap string json) :
  (forall m, f (f m) = f m) -> forall v, on_obj f (on_obj f v) = on_obj f v.
Proof. intros Hf [| ? | ? | ? | ? |m]; simpl; try done. by rewrite Hf. Qed.

Lemma on_arr_idem (f : json -> json) :
  (forall v, f (f v) = f v) -> forall v, on_arr f (on_arr f v) = on_arr f v.
Proof.
  intros Hf [| ? | ? | ? |l| ? ]; simpl; try done. f_equal.
  rewrite <- list_fmap_compose. apply list_fmap_ext. intros ? ? _. apply Hf.
Qed.

Lemma map_fmap_idem (f : json -> json) :
  (forall v, f (f v) = f v) -> forall m : gmap string json, f <$> (f <$> m) = f <$> m.
Proof.
  intros Hf m. rewrite <- map_fmap_compose. apply map_fmap_ext. intros ? ? _. apply Hf.
Qed.

Lemma alter_idem (f : json -> json) (k : string) :
  (forall v, f (f v) = f v) -> forall m : gmap string json, alter f k (alter f k m) = alter f k m.
Proof.
  intros Hf m. rewrite alter_alter_eq. apply alter_ext. intros ? _. apply Hf.
Qed.

Lemma fixVersion_alter (spec : gmap string json) :
  fixVersion spec =
  alter (fun v => match v with
                  | JStr version => if HasPrefix version "3.1" then JStr "3.0.0" else v
                  | _ => v
                  end) "openapi" spec.
Proof.
  unfold fixVersion. apply map_eq. intros k. rewrite lookup_alter.
  destruct (spec !! "openapi") as [[| ? | ? |version| ? | ? ]|] eqn:Hv;
    case_decide; simplify_eq; rewrite ?Hv; try done.
  - simpl. destruct (HasPrefix version "3.1"); [by rewrite lookup_insert_eq|done].
  - destruct (HasPrefix version "3.1"); [by rewrite lookup_insert_ne|done].
Qed.

Lemma fixVersion_idem (spec : gmap string json) :
  fixVersion (fixVersion spec) = fixVersion spec.
Proof.
  rewrite !fixVersion_alter, alter_alter_eq. apply alter_ext.
  intros [| ? | ? |version| ? | ? ] _; simpl; try done.
  destruct (HasPrefix version "3.1") eqn:Hp; simpl; [done|by rewrite Hp].
Qed.

Lemma fixComponents_idem (spec : gmap string json) :
  fixComponents (fixComponents spec) = fixComponents spec.
Proof.
  unfold fixComponents.
  apply alter_idem, on_obj_idem, alter_idem, on_obj_idem, map_fmap_idem, on_obj_idem.
  apply normalize_schema_idem.
Qed.

Lemma fixParameters_idem (spec : gmap string json) :
  fixParameters (fixParameters spec) = fixParameters spec.
Proof.
  unfold fixParameters.
  apply alter_idem, on_obj_idem, map_fmap_idem, on_obj_idem, map_fmap_idem, on_obj_idem,
    alter_idem, on_arr_idem, on_obj_idem, alter_idem, on_obj_idem, fixAnyOf_idem.
Qed.

Lemma fixComponents_fixParameters (spec : gmap string json) :
  fixComponents (fixParameters spec) = fixParameters (fixComponents spec).
Proof. unfold fixComponents, fixParameters. by apply alter_alter_ne. Qed.

Lemma fixVersion_fixParameters (spec : gmap string json) :
  fixVersion (fixParameters spec) = fixParameters (fixVersion spec).
Proof. rewrite !fixVersion_alter. unfold fixParameters. by apply alter_alter_ne. Qed.

Lemma fixVersion_fixComponents (spec : gmap string json) :
  fixVersion (fixComponents spec) = fixComponents (fixVersion spec).
Proof. rewrite !fixVersion_alter. unfold fixComponents. by apply alter_alter_ne. Qed.

Lemma normalize_tree_idem (spec : gmap string json) :
  fixParameters (fixComponents (fixVersion
    (fixParameters (fixComponents (fixVersion spec)))))
  = fixParameters (fixComponents (fixVersion spec)).
Proof.
  rewrite fixVersion_fixParameters, fixVersion_fixComponents, fixVersion_idem.
  rewrite fixComponents_fixParameters, fixComponents_idem.
  by rewrite fixParameters_idem.
Qed.

(** Normalizing twice is normalizing once, on every input. *)
Lemma preprocess_twice_once (data : jsonbytes) :
  preprocess_twice data = preprocessOpenAPISpec data.
Proof.
  unfold preprocess_twice, preprocessOpenAPISpec.
  destruct data as [|[| ? | ? | ? | ? |spec]]; simpl; try done.
  by rewrite normalize_tree_idem.
Qed.

(** C5. Normalization is idempotent on the documents that are already
    3.0.0 and contain no null-union: normalizing the output of the
    normalizer again returns that output. *)
Theorem normalize_idempotent (d : jsonbytes) :
  version_of d = Some "3.0.0" ->
  no_null_unions d = true ->
  preprocess_twice d = preprocessOpenAPISpec d.
Proof. intros _ _. apply preprocess_twice_once. Qed.

(** ** What the normalizer guarantees on schemas *)

Lemma null_union_false (schema : gmap string json) :
  null_union schema = false <-> main_alternative schema = None.
Proof.
  unfold null_union. rewrite bool_decide_eq_false, <- eq_None_not_Some. done.
Qed.


Lemma on_obj_JObj (f : gmap string json -> gmap string json) (v : json)
    (m : gmap string json) :
  on_obj f v = JObj m -> exists m0, v = JObj m0 /\ m = f m0.
Proof. destruct v; simpl; intros; simplify_eq. eauto. Qed.



Lemma property_of_removeNonStandardFields (n : nat) (schema child : gmap string json) :
  property_of (removeNonStandardFields_fuel (S n) schema) child ->
  exists child0, property_of schema child0 /\
                 child = removeNonStandardFields_fuel n child0.
Proof.
  unfold property_of. intros (properties' & name & Hprops' & Hchild).
  rewrite removeNonStandardFields_fuel_lookup in Hprops'.
  rewrite decide_False in Hprops' by (intros [?|?]; done).
  rewrite decide_True in Hprops' by done.
  destruct (schema !! "properties") as [[| ? | ? | ? | ? |properties]|] eqn:Hprops;
    try congruence.
  simplify_eq.
  apply lookup_fmap_Some in Hchild as (v & Hv & Hname).
  apply on_obj_JObj in Hv as (child0 & -> & ->). eauto 6.
Qed.










(** ** Errors of the normalizer *)

(** C4 (as amended). The normalizer returns an error exactly on the buffers
    that do not decode into a [map[string]interface{}]: malformed JSON, and
    well-formed JSON whose top-level value is an array, a string, a number
    or a boolean.  On every other buffer all later steps succeed, and a
    document without the keys they look at is returned as it is. *)
Theorem preprocess_fails_iff_not_a_map (data : jsonbytes) :
  (if decodes_to_map data
   then exists v, preprocessOpenAPISpec data = Ok (Text v)
   else exists msg, preprocessOpenAPISpec data = Err msg) /\
  (forall spec : gmap string json,
     data = Text (JObj spec) ->
     spec !! "openapi" = None -> spec !! "components" = None -> spec !! "paths" = None ->
     preprocessOpenAPISpec data = Ok data).
Proof.
  split.
  - destruct data as [|[| ? | ? | ? | ? |spec]]; simpl; eauto.
  - intros spec -> Hversion Hcomponents Hpaths. unfold preprocessOpenAPISpec. simpl.
    do 3 f_equal. unfold fixParameters, fixComponents, fixVersion. rewrite Hversion.
    apply map_eq. intros k. rewrite !lookup_alter.
    repeat case_decide; simplify_eq; by rewrite ?Hcomponents, ?Hpaths.
Qed.

(** ** Tool identifiers *)

(** C6. The derivation is the string transform of [sanitizePathForToolID];
    on [GET /users/{id}/posts] it yields [getUsers_id_posts]: [strings.Title]
    does not treat the underscore as a word separator, so [posts] keeps its
    lower-case initial.  The identifier documented for this route,
    [getUsers_idPosts], is not what the code returns. *)
Theorem toolID_users_id_posts :
  sanitizePathForToolID "/users/{id}/posts" "GET" = "getUsers_id_posts" /\
  sanitizePathForToolID "/users/{id}/posts" "GET" <> "getUsers_idPosts".
Proof. split; [vm_compute; reflexivity|vm_compute; discriminate]. Qed.

Lemma toolID_examples :
  sanitizePathForToolID "/users/{id}" "GET" = "getUsers_id" /\
  sanitizePathForToolID "/orders" "POST" = "postOrders" /\
  sanitizePathForToolID "/a-b/{c}" "DELETE" = "deleteA_b_c".
Proof. vm_compute. auto. Qed.

(** ** Tool model builder *)

Lemma chunks_Permutation (paths : list (string * gmap string (option Operation)))
    (chunks : list (list Registration)) :
  Forall2 (fun '(path, pathItem) chunk =>
             exists visited, ranges_over pathItem visited /\
                             chunk = pathRegistrations path visited)
          paths chunks ->
  concat chunks ≡ₚ paths ≫= registrationsOf.
Proof.
  induction 1 as [|[path pathItem] chunk paths chunks (visited & Hvisited & ->) _ IH];
    [done|].
  cbn [concat mbind list_bind]. rewrite IH. apply Permutation_app_tail.
  unfold registrationsOf, pathRegistrations, ranges_over in *. simpl. by rewrite Hvisited.
Qed.

Lemma processPathsIntoTools_Permutation (doc : Document) (regs : list Registration) :
  processPathsIntoTools doc regs -> regs ≡ₚ allRegistrations doc.
Proof.
  intros (paths & chunks & Hpaths & Hchunks & ->).
  rewrite (chunks_Permutation _ _ Hchunks). unfold allRegistrations, ranges_over in *.
  by rewrite Hpaths.
Qed.

(** Every enumeration of the paths is a possible run. *)
Lemma processPathsIntoTools_order (doc : Document)
    (paths : list (string * gmap string (option Operation))) :
  ranges_over (doc_Paths doc) paths ->
  processPathsIntoTools doc (paths ≫= registrationsOf).
Proof.
  intros Hpaths. exists paths, (registrationsOf <$> paths). split_and!; [done| |].
  - apply Forall2_fmap_r, Forall_Forall2_diag, Forall_forall.
    intros [path pathItem] _. exists (map_to_list pathItem).
    split; [by unfold ranges_over|done].
  - clear Hpaths. induction paths as [|entry paths IH]; [done|].
    cbn [concat mbind list_bind fmap list_fmap]. by rewrite IH.
Qed.

(** The builder cannot fail: it has a run on every document. *)
Lemma processPathsIntoTools_total (doc : Document) :
  processPathsIntoTools doc (allRegistrations doc).
Proof. apply processPathsIntoTools_order. by unfold ranges_over. Qed.

(** C3 (as amended). Two invocations on the same document produce the same
    tool definitions, with the same field values, up to the order of the
    sequence: the order is that of Go's map iteration. *)
Theorem processPathsIntoTools_deterministic_up_to_order
    (doc : Document) (regs1 regs2 : list Registration) :
  processPathsIntoTools doc regs1 ->
  processPathsIntoTools doc regs2 ->
  regs1 ≡ₚ regs2.
Proof.
  intros H1 H2.
  rewrite (processPathsIntoTools_Permutation _ _ H1).
  by rewrite (processPathsIntoTools_Permutation _ _ H2).
Qed.

(** ** The live handler *)

(** C10. With an empty service URL the handler issues no HTTP request and
    returns, with a nil error, the text [Mock response for <METHOD> <path>]
    followed by the arguments. *)
Theorem mock_response_without_service_url
    (config : Config) (Do : Request -> result Response) (op : Operation)
    (path method : string) (arguments : gmap string json) :
  service_url config = "" ->
  createToolHandler config Do op path method arguments =
  ([], Ok (NewToolResultText
             ("Mock response for " +:+ method +:+ " " +:+ path +:+ newline +:+
              "Params: " +:+ Sprint_v (JObj arguments)))).
Proof. intros Hurl. unfold createToolHandler. by rewrite Hurl. Qed.

(** ** Request bodies *)

Lemma isPathOrQuery_spec (op : Operation) (name : string) :
  isPathOrQuery op name = true <->
  exists param, Some param ∈ op_Parameters op /\
                (param_In param = "path" \/ param_In param = "query") /\
                param_Name param = name.
Proof.
  unfold isPathOrQuery. rewrite existsb_exists. split.
  - intros ([param|] & Hin & Hparam); [|done].
    apply andb_true_iff in Hparam as [Hloc Hname].
    apply orb_true_iff in Hloc. rewrite !String.eqb_eq in Hloc.
    apply String.eqb_eq in Hname. apply list_elem_of_In in Hin. eauto.
  - intros (param & Hin & Hloc & Hname). exists (Some param).
    split; [by apply list_elem_of_In|].
    apply andb_true_iff. rewrite orb_true_iff, !String.eqb_eq. done.
Qed.

Lemma extraArguments_lookup (op : Operation) (args : gmap string json) (name : string) :
  extraArguments op args !! name = if isPathOrQuery op name then None else args !! name.
Proof.
  unfold extraArguments. rewrite map_lookup_filter.
  destruct (args !! name) as [v|] eqn:Hv; simpl; [|by destruct (isPathOrQuery op name)].
  destruct (isPathOrQuery op name) eqn:Hclaimed;
    [by rewrite option_guard_False by (simpl; congruence)|
     by rewrite option_guard_True by (simpl; congruence)].
Qed.

Lemma extraArguments_nonempty (op : Operation) (args : gmap string json) :
  (0 <? size (extraArguments op args))%nat = true <->
  exists name, is_Some (args !! name) /\ isPathOrQuery op name = false.
Proof.
  rewrite Nat.ltb_lt. split.
  - intros Hsize.
    destruct (map_choose (extraArguments op args)) as (name & v & Hv).
    { apply map_size_non_empty_iff. lia. }
    rewrite extraArguments_lookup in Hv. exists name.
    destruct (isPathOrQuery op name); [done|]. eauto.
  - intros (name & [v Hv] & Hfree).
    assert (extraArguments op args <> ∅) as Hne.
    { intros Hempty. apply (f_equal (fun m => m !! name)) in Hempty.
      rewrite extraArguments_lookup, Hfree, Hv, lookup_empty in Hempty. done. }
    apply map_size_non_empty_iff in Hne. lia.
Qed.

Lemma createHTTPRequest_body (method url : string) (args : gmap string json)
    (op : Operation) (req : Request) :
  createHTTPRequest method url args op = Ok req ->
  req_Body req =
  if methodCarriesBody method then
    match args !! "body" with
    | Some (JStr bodyStr) => Some (BodyBytes bodyStr)
    | Some bodyArg => Some (BodyJSON bodyArg)
    | None =>
        if (0 <? size (extraArguments op args))%nat
        then Some (BodyJSON (JObj (extraArguments op args))) else None
    end
  else None.
Proof.
  unfold createHTTPRequest, NewRequest, methodCarriesBody, extraArguments.
  destruct (negb _); [done|]. destruct (url_Parse url); [|done].
  intros Hreq. simplify_eq. reflexivity.
Qed.

(** C7 (as amended). [createHTTPRequest] builds a request body exactly when
    the method is POST, PUT or PATCH and the arguments hold a ["body"] entry
    or an entry that no path or query parameter claims.  The request body
    declared by the operation is not consulted. *)
Theorem body_built_iff (method url : string) (args : gmap string json)
    (op : Operation) (req : Request) :
  createHTTPRequest method url args op = Ok req ->
  (is_Some (req_Body req) <->
   methodCarriesBody method = true /\
   (is_Some (args !! "body") \/
    exists name, is_Some (args !! name) /\ isPathOrQuery op name = false)).
Proof.
  intros Hreq. rewrite (createHTTPRequest_body _ _ _ _ _ Hreq).
  destruct (methodCarriesBody method); [|split; [by intros [? ?]|by intros [? _]]].
  destruct (args !! "body") as [bodyArg|] eqn:Hbody.
  - split; [eauto|]. intros _. destruct bodyArg; eauto.
  - destruct (0 <? size (extraArguments op args))%nat eqn:Hextra.
    + apply extraArguments_nonempty in Hextra. split; [eauto|eauto].
    + split; [by intros [? ?]|]. intros [_ [[? ?]|Hname]]; [done|].
      apply extraArguments_nonempty in Hname. congruence.
Qed.

(** C8 (as amended). For POST, PUT and PATCH: a string under ["body"] is
    sent as it is; any other value under ["body"] is sent JSON-encoded;
    without a ["body"] entry the body is the JSON encoding of exactly the
    entries that no path or query parameter claims, and there is no body
    when there is no such entry. *)
Theorem body_three_tiers (method url : string) (args : gmap string json)
    (op : Operation) (req : Request) :
  methodCarriesBody method = true ->
  createHTTPRequest method url args op = Ok req ->
  req_Body req =
    match args !! "body" with
    | Some (JStr bodyStr) => Some (BodyBytes bodyStr)
    | Some bodyArg => Some (BodyJSON bodyArg)
    | None =>
        if decide (extraArguments op args = ∅) then None
        else Some (BodyJSON (JObj (extraArguments op args)))
    end /\
  forall name,
    extraArguments op args !! name =
    if isPathOrQuery op name then None else args !! name.
Proof.
  intros Hmethod Hreq. split; [|apply extraArguments_lookup].
  rewrite (createHTTPRequest_body _ _ _ _ _ Hreq), Hmethod.
  destruct (args !! "body") as [bodyArg|]; [done|].
  case_decide as Hempty.
  - by rewrite Hempty, map_size_empty.
  - apply map_size_non_empty_iff in Hempty.
    destruct (size (extraArguments op args)); [done|reflexivity].
Qed.

(** ** The query string *)

Lemma filter_key_chunk (name key : string) (values : list string) :
  filter (has_key name) ((fun value => (key, value)) <$> values) =
  if decide (key = name) then (fun value => (key, value)) <$> values else [].
Proof.
  induction values as [|value values IH]; [by case_decide|].
  cbn [fmap list_fmap]. rewrite filter_cons, IH. unfold has_key. simpl.
  by destruct (decide (key = name)).
Qed.

Lemma filter_key_flat_map (name : string) (values : string -> list string)
    (keys : list string) :
  NoDup keys ->
  filter (has_key name)
    (flat_map (fun key => (fun value => (key, value)) <$> values key) keys) =
  if decide (name ∈ keys) then (fun value => (name, value)) <$> values name else [].
Proof.
  induction 1 as [|key keys Hfresh _ IH]; [done|].
  cbn [flat_map]. rewrite filter_app, IH, filter_key_chunk.
  destruct (decide (key = name)) as [->|Hne].
  - rewrite decide_False by done. rewrite decide_True by left. by rewrite app_nil_r.
  - simpl. case_decide as Hin.
    + rewrite decide_True by (by right). done.
    + rewrite decide_False; [done|]. rewrite elem_of_cons. naive_solver.
Qed.

Lemma Values_keys_NoDup (v : gmap string (list string)) :
  NoDup (merge_sort string_le (elements (dom v))).
Proof. rewrite merge_sort_Permutation. apply NoDup_elements. Qed.

Lemma Values_keys_elem (v : gmap string (list string)) (name : string) :
  name ∈ merge_sort string_le (elements (dom v)) <-> is_Some (v !! name).
Proof. by rewrite merge_sort_Permutation, elem_of_elements, elem_of_dom. Qed.

(** The pairs written for one name are its values, in their order. *)
Lemma Values_pairs_filter (v : gmap string (list string)) (name : string) :
  filter (has_key name) (Values_pairs v) =
  (fun value => (name, value)) <$> default [] (v !! name).
Proof.
  unfold Values_pairs. rewrite filter_key_flat_map by apply Values_keys_NoDup.
  case_decide as Hin; [done|].
  rewrite Values_keys_elem in Hin. apply eq_None_not_Some in Hin. by rewrite Hin.
Qed.

(** [Encode] writes the pairs by ascending name. *)
Lemma Values_pairs_sorted (v : gmap string (list string)) :
  StronglySorted (fun x y : string * string => string_le x.1 y.1) (Values_pairs v).
Proof.
  unfold Values_pairs.
  pose proof (StronglySorted_merge_sort string_le (elements (dom v))) as Hsorted.
  induction Hsorted as [|key keys _ IH Hle]; [constructor|].
  cbn [flat_map]. apply StronglySorted_app_2; [| |done].
  - intros x1 x2 Hx1 Hx2.
    apply list_elem_of_fmap in Hx1 as (? & -> & _).
    apply list_elem_of_In, in_flat_map in Hx2 as (key' & Hkey' & Hx2).
    apply list_elem_of_In, list_elem_of_fmap in Hx2 as (? & -> & _). simpl.
    rewrite Forall_forall in Hle. apply Hle. by apply list_elem_of_In.
  - induction (default [] (v !! key)) as [|value values IHv]; constructor; [done|].
    apply Forall_forall. intros x Hx.
    apply list_elem_of_fmap in Hx as (? & -> & _). simpl. reflexivity.
Qed.

Lemma Values_Add_lookup (v : gmap string (list string)) (key value name : string) :
  default [] (Values_Add v key value !! name) =
  default [] (v !! name) ++ (if decide (key = name) then [value] else []).
Proof.
  unfold Values_Add. rewrite lookup_insert.
  case_decide as Hkey; [by subst|by rewrite app_nil_r].
Qed.

Lemma addQueryParams_lookup (q : gmap string (list string)) (args : gmap string json)
    (parameters : list (option Param)) (name : string) :
  (fun value => (name, value)) <$> default [] (addQueryParams q args parameters !! name) =
  ((fun value => (name, value)) <$> default [] (q !! name))
  ++ filter (has_key name) (queryArgs args parameters).
Proof.
  unfold addQueryParams, queryArgs. revert q.
  induction parameters as [|paramRef parameters IH]; intros q; [by rewrite app_nil_r|].
  cbn [foldl omap list_omap]. rewrite IH. clear IH.
  destruct paramRef as [param|]; [|done].
  destruct (String.eqb (param_In param) "query"); [|done].
  destruct (args !! param_Name param) as [val|]; [|done].
  cbn [fmap option_fmap option_map]. rewrite Values_Add_lookup, fmap_app, <- app_assoc.
  f_equal. rewrite filter_cons. unfold has_key at 2. simpl.
  destruct (decide (param_Name param = name)) as [Hname|Hname]; simpl; [|done].
  by rewrite Hname.
Qed.

(** C9 (as amended). When the joined URL parses, the query parameters
    present in [args] are appended percent-encoded, by ascending parameter
    name; under one name the values already in the URL come first and the
    supplied ones follow in declaration order. *)
Theorem query_parameters_sorted_by_name (baseURL path : string)
    (args : gmap string json) (parameters : list (option Param)) (u : URL) :
  url_Parse (joinURL baseURL (substitutePath path args parameters)) = Some u ->
  exists pairs : list (string * string),
    buildURL baseURL path args parameters =
      URL_String u (String.concat "&" (encode_pair <$> pairs)) /\
    StronglySorted (fun x y : string * string => string_le x.1 y.1) pairs /\
    forall name,
      filter (has_key name) pairs =
      filter (has_key name) (Values_pairs (URL_Query u) ++ queryArgs args parameters).
Proof.
  intros Hparse.
  exists (Values_pairs (addQueryParams (URL_Query u) args parameters)). split_and!.
  - unfold buildURL. by rewrite Hparse.
  - apply Values_pairs_sorted.
  - intros name. by rewrite filter_app, !Values_pairs_filter, addQueryParams_lookup.
Qed.

(** When the joined URL does not parse, it is returned without any query
    parameter. *)
Lemma buildURL_parse_error (baseURL path : string)
    (args : gmap string json) (parameters : list (option Param)) :
  url_Parse (joinURL baseURL (substitutePath path args parameters)) = None ->
  buildURL baseURL path args parameters =
  joinURL baseURL (substitutePath path args parameters).
Proof. intros Hparse. unfold buildURL. by rewrite Hparse. Qed.

(** ** The live path and the emitted code *)

(** Both paths join the base URL and the path in the same way. *)
Lemma build_url_join (base_url path : string) :
  build_url base_url path [] = joinURL base_url path.
Proof.
  unfold build_url, joinURL, endswith, startswith, HasPrefix.
  by destruct (HasSuffix base_url "/"), (String.prefix "/" path).
Qed.

Lemma substitutePath_absent (path : string) (args : gmap string json)
    (parameters : list (option Param)) :
  (forall param, Some param ∈ parameters -> args !! param_Name param = None) ->
  substitutePath path args parameters = path.
Proof.
  unfold substitutePath. revert path.
  induction parameters as [|[param|] parameters IH]; intros path Habsent; [done| |].
  - cbn [foldl]. rewrite Habsent by left.
    destruct (String.eqb (param_In param) "path");
      apply IH; intros param' Hin; apply Habsent; by right.
  - cbn [foldl]. apply IH. intros param' Hin. apply Habsent. by right.
Qed.

Lemma addQueryParams_absent (q : gmap string (list string)) (args : gmap string json)
    (parameters : list (option Param)) :
  (forall param, Some param ∈ parameters -> args !! param_Name param = None) ->
  addQueryParams q args parameters = q.
Proof.
  unfold addQueryParams. revert q.
  induction parameters as [|[param|] parameters IH]; intros q Habsent; [done| |].
  - cbn [foldl]. rewrite Habsent by left.
    destruct (String.eqb (param_In param) "query");
      apply IH; intros param' Hin; apply Habsent; by right.
  - cbn [foldl]. apply IH. intros param' Hin. apply Habsent. by right.
Qed.

Lemma hex_digit_not_space (n : nat) : Ascii.eqb (hex_digit n) " " = false.
Proof. do 16 (destruct n as [|n]; [done|]). done. Qed.

(** [quote] with the space kept, then the spaces turned into [+], is Go's
    [QueryEscape]. *)
Lemma QueryEscape_quote (s : string) :
  ReplaceAll (py_quote " " s) " " "+" = QueryEscape s.
Proof.
  unfold ReplaceAll. induction s as [|c s IH]; [done|].
  cbn [py_quote QueryEscape existsb list_ascii_of_string].
  destruct (Ascii.eqb c " ") eqn:Hspace.
  - rewrite orb_true_r. rewrite replace_space_cons, Hspace. by rewrite IH.
  - rewrite !orb_false_r.
    destruct (shouldEscape c) eqn:Hesc; cbn [negb].
    + rewrite !replace_space_cons, !hex_digit_not_space. by rewrite IH.
    + by rewrite replace_space_cons, Hspace, IH.
Qed.

Lemma Contains_cons (c : ascii) (s substr : string) :
  Contains (String c s) substr = false -> Contains s substr = false.
Proof. cbn [Contains]. by intros [_ ?]%orb_false_iff. Qed.

Lemma QueryEscape_quote_no_space (s : string) :
  Contains s " " = false -> py_quote "" s = QueryEscape s.
Proof.
  induction s as [|c s IH]; intros Hno; [done|].
  cbn [py_quote QueryEscape existsb list_ascii_of_string].
  assert (Ascii.eqb c " " = false) as ->.
  { cbn [Contains] in Hno. apply orb_false_iff in Hno as [Hno _].
    by rewrite prefix_single in Hno. }
  rewrite orb_false_r, (IH (Contains_cons _ _ _ Hno)).
  by destruct (shouldEscape c).
Qed.

(** Python's [quote_plus] and Go's [QueryEscape] escape alike. *)
Lemma quote_plus_QueryEscape (s : string) : quote_plus s = QueryEscape s.
Proof.
  unfold quote_plus. destruct (Contains s " ") eqn:Hspace.
  - apply QueryEscape_quote.
  - by apply QueryEscape_quote_no_space.
Qed.

Lemma Contains_drop1 (s substr : string) :
  Contains s substr = false -> Contains (drop1 s) substr = false.
Proof. destruct s as [|c s]; [done|]. apply Contains_cons. Qed.

Lemma filter_all {A} (f : A -> bool) (l : list A) :
  (forall x, x ∈ l -> f x = true) -> List.filter f l = l.
Proof.
  induction l as [|x l IH]; intros Hall; [done|].
  cbn [List.filter]. rewrite Hall by left. f_equal. apply IH.
  intros y Hy. apply Hall. by right.
Qed.

(** Without a placeholder to fill, [build_url] is the join followed by
    the parameters in the order of the dictionary. *)
Lemma build_url_no_placeholder (base_url path : string) (params : list (string * pyval)) :
  (forall kv, kv ∈ params -> Contains path (placeholder kv.1) = false) ->
  build_url base_url path params =
  match params with
  | [] => joinURL base_url path
  | _ => (joinURL base_url path +:+ "?") +:+ urlencode params
  end.
Proof.
  intros Hfree. unfold build_url.
  assert (Hsubst : foldl (fun path kv =>
                            if Contains path (placeholder kv.1)
                            then ReplaceAll path (placeholder kv.1) (py_str kv.2)
                            else path) path params = path).
  { clear base_url. induction params as [|kv params IH]; [done|].
    cbn [foldl]. rewrite Hfree by left. apply IH.
    intros kv' Hkv'. apply Hfree. by right. }
  assert (Hpath : match params with [] => path | _ => foldl (fun path kv =>
                            if Contains path (placeholder kv.1)
                            then ReplaceAll path (placeholder kv.1) (py_str kv.2)
                            else path) path params end = path)
    by (by destruct params).
  rewrite Hpath. clear Hsubst Hpath.
  unfold joinURL, endswith, startswith, HasPrefix.
  destruct params as [|kv params];
    [by destruct (HasSuffix base_url "/"), (String.prefix "/" path)|].
  set (all := kv :: params) in *.
  destruct (HasSuffix base_url "/"), (String.prefix "/" path); cbn [andb negb];
    rewrite filter_all;
    try (intros x Hx; apply negb_true_iff; auto using Contains_drop1);
    by subst all.
Qed.

Lemma dict_set_fresh {A} (d : list (string * A)) (k : string) (v : A) :
  k ∉ d.*1 -> dict_set d k v = d ++ [(k, v)].
Proof.
  induction d as [|[k' v'] d IH]; intros Hfresh; [done|].
  cbn [dict_set]. rewrite fmap_cons, not_elem_of_cons in Hfresh.
  destruct Hfresh as [Hne Hfresh].
  destruct (String.eqb k' k) eqn:Heq; [apply String.eqb_eq in Heq; by subst|].
  cbn. f_equal. by apply IH.
Qed.

Lemma loadable_NoDup (path method : string) (op : Operation) :
  loadable path method op = true -> NoDup (parameterNames op).
Proof.
  unfold loadable. rewrite !andb_true_iff. intros ((((_ & Hnodup) & _) & _) & _).
  by apply bool_decide_eq_true in Hnodup.
Qed.

(** With distinct Python names, the supplied arguments have distinct names. *)
Lemma pyArgs_NoDup (op : Operation) (kwargs : gmap string pyval) :
  NoDup (parameterNames op) -> NoDup (pyArgs op kwargs).*1.
Proof.
  unfold parameterNames. intros Hnodup. apply NoDup_app in Hnodup as (Hnodup & _ & _).
  revert Hnodup. unfold pyArgs.
  induction (op_Parameters op) as [|[param|] parameters IH]; cbn [omap list_omap];
    intros Hnodup; [constructor| |by apply IH].
  cbn [fmap option_fmap option_map] in Hnodup. apply NoDup_cons in Hnodup as [Hfresh Hnodup].
  destruct (kwargs !! sanitizeParamName (param_Name param)) as [v|]; [|by apply IH].
  cbn [fmap option_fmap option_map list_fmap]. apply NoDup_cons. split; [|by apply IH].
  intros Hin. apply Hfresh.
  apply list_elem_of_fmap in Hin as (kv & Hname & Hkv).
  apply list_elem_of_omap in Hkv as ([param'|] & Hparam' & Hkv); [|done].
  destruct (kwargs !! sanitizeParamName (param_Name param')); [|done].
  simplify_eq/=. apply list_elem_of_omap. exists (Some param'). split; [done|].
  cbn. by rewrite Hname.
Qed.

(** A loadable tool function calls [build_url] with the supplied
    arguments, in declaration order. *)
Lemma py_tool_calls_build_url (py_service_url path method : string) (op : Operation)
    (kwargs : gmap string pyval) :
  loadable path method op = true ->
  py_url <$> py_tool py_service_url path method op kwargs
  = Some (build_url py_service_url path (pyArgs op kwargs)).
Proof.
  intros Hload. pose proof (pyArgs_NoDup op kwargs (loadable_NoDup _ _ _ Hload)) as Hnodup.
  unfold py_tool. rewrite Hload. cbn [fmap option_fmap option_map py_url]. do 2 f_equal.
  revert Hnodup. unfold pyArgs.
  change (omap _ (op_Parameters op)) with ([] ++ omap (fun paramRef =>
          match paramRef with
          | None => None
          | Some param =>
              (fun v => (param_Name param, v))
                <$> kwargs !! sanitizeParamName (param_Name param)
          end) (op_Parameters op)).
  generalize (@nil (string * pyval)).
  induction (op_Parameters op) as [|[param|] parameters IH]; intros params Hnodup;
    [by rewrite app_nil_r| |by apply IH].
  cbn [foldl omap list_omap] in *.
  destruct (kwargs !! sanitizeParamName (param_Name param)) as [v|]; [|by apply IH].
  cbn [fmap option_fmap option_map] in *.
  rewrite dict_set_fresh.
  - rewrite IH; [by rewrite <- app_assoc|]. by rewrite <- app_assoc.
  - rewrite fmap_app, NoDup_app in Hnodup. destruct Hnodup as (_ & Hdisj & _).
    intros Hin. apply (Hdisj _ Hin). rewrite fmap_cons. left.
Qed.

Lemma pyArgs_absent (op : Operation) (kwargs : gmap string pyval) :
  (forall param, Some param ∈ op_Parameters op ->
                 kwargs !! sanitizeParamName (param_Name param) = None) ->
  pyArgs op kwargs = [].
Proof.
  unfold pyArgs.
  induction (op_Parameters op) as [|[param|] parameters IH]; intros Habsent; [done| |].
  - cbn [omap list_omap]. rewrite Habsent by left. apply IH.
    intros param' Hin. apply Habsent. by right.
  - cbn [omap list_omap]. apply IH. intros param' Hin. apply Habsent. by right.
Qed.

(** On a call that supplies none of the declared parameters, the emitted
    code requests exactly the join of base URL and path, and the live path
    requests what [net/url] prints for it. *)
Lemma urls_without_arguments (baseURL path method : string) (op : Operation)
    (args : gmap string json) (kwargs : gmap string pyval) :
  loadable path method op = true ->
  (forall param, Some param ∈ op_Parameters op -> args !! param_Name param = None) ->
  (forall param, Some param ∈ op_Parameters op ->
                 kwargs !! sanitizeParamName (param_Name param) = None) ->
  py_url <$> py_tool baseURL path method op kwargs = Some (joinURL baseURL path) /\
  buildURL baseURL path args (op_Parameters op) =
    match url_Parse (joinURL baseURL path) with
    | Some u => URL_String u (Values_Encode (URL_Query u))
    | None => joinURL baseURL path
    end.
Proof.
  intros Hload Hargs Hkwargs. split.
  - rewrite py_tool_calls_build_url by done. rewrite pyArgs_absent by done.
    f_equal. apply build_url_join.
  - unfold buildURL. rewrite substitutePath_absent by done.
    destruct (url_Parse (joinURL baseURL path)); [|done].
    by rewrite addQueryParams_absent.
Qed.

Lemma append_not_empty (a b : string) : a <> "" -> a +:+ b <> "".
Proof. destruct a; [done|]. intros _ Heq. inversion Heq. Qed.

Lemma encode_pair_not_empty (kv : string * string) : encode_pair kv <> "".
Proof.
  unfold encode_pair. destruct (QueryEscape kv.1) as [|c s];
    intros Heq; inversion Heq.
Qed.

Lemma concat_pairs_not_empty (pairs : list (string * string)) :
  pairs <> [] -> String.concat "&" (encode_pair <$> pairs) <> "".
Proof.
  destruct pairs as [|kv pairs]; [done|]. intros _.
  cbn [fmap list_fmap String.concat].
  destruct (encode_pair <$> pairs); [apply encode_pair_not_empty|].
  apply append_not_empty, encode_pair_not_empty.
Qed.

(** Two lists sorted by name that agree name by name are equal. *)
Lemma sorted_by_name_unique (l1 l2 : list (string * string)) :
  StronglySorted (fun x y : string * string => string_le x.1 y.1) l1 ->
  StronglySorted (fun x y : string * string => string_le x.1 y.1) l2 ->
  (forall name, filter (has_key name) l1 = filter (has_key name) l2) ->
  l1 = l2.
Proof.
  intros Hs1. revert l2. induction Hs1 as [|x l1 Hs1 IH Hx]; intros l2 Hs2 Hfilter.
  - destruct l2 as [|y l2]; [done|].
    specialize (Hfilter y.1). rewrite filter_cons_True in Hfilter by done. done.
  - destruct Hs2 as [|y l2 Hs2 Hy].
    { specialize (Hfilter x.1). rewrite filter_cons_True in Hfilter by done. done. }
    assert (Hxin : x ∈ y :: l2).
    { apply (list_elem_of_filter (has_key x.1)).
      rewrite <- Hfilter, filter_cons_True by done. left. }
    assert (Hyin : y ∈ x :: l1).
    { apply (list_elem_of_filter (has_key y.1)).
      rewrite Hfilter, filter_cons_True by done. left. }
    assert (Hname : x.1 = y.1).
    { apply (anti_symm string_le).
      - apply elem_of_cons in Hyin as [->|Hyin]; [reflexivity|].
        rewrite Forall_forall in Hx. by apply Hx.
      - apply elem_of_cons in Hxin as [->|Hxin]; [reflexivity|].
        rewrite Forall_forall in Hy. by apply Hy. }
    assert (x = y) as <-.
    { specialize (Hfilter x.1).
      rewrite !filter_cons_True in Hfilter by (unfold has_key; congruence).
      congruence. }
    f_equal. apply IH; [done|]. intros name. specialize (Hfilter name).
    rewrite !filter_cons in Hfilter. case_decide; congruence.
Qed.

(** With no query in the parsed URL and the supplied parameters declared
    by ascending name, [Encode] writes them in declaration order. *)
Lemma Values_pairs_queryArgs (args : gmap string json) (parameters : list (option Param)) :
  StronglySorted (fun x y : string * string => string_le x.1 y.1)
    (queryArgs args parameters) ->
  Values_pairs (addQueryParams ∅ args parameters) = queryArgs args parameters.
Proof.
  intros Hsorted. apply sorted_by_name_unique; [apply Values_pairs_sorted|done|].
  intros name. by rewrite Values_pairs_filter, addQueryParams_lookup, lookup_empty.
Qed.

Lemma substitutePath_no_path_argument (path : string) (args : gmap string json)
    (parameters : list (option Param)) :
  (forall param, Some param ∈ parameters -> param_In param = "path" ->
                 args !! param_Name param = None) ->
  substitutePath path args parameters = path.
Proof.
  unfold substitutePath. revert path.
  induction parameters as [|[param|] parameters IH]; intros path Habsent; [done| |].
  - cbn [foldl].
    destruct (String.eqb (param_In param) "path") eqn:Hin.
    + apply String.eqb_eq in Hin. rewrite Habsent by (done || left).
      apply IH. intros param' ? ?. apply Habsent; [by right|done].
    + apply IH. intros param' ? ?. apply Habsent; [by right|done].
  - cbn [foldl]. apply IH. intros param' ? ?. apply Habsent; [by right|done].
Qed.

Lemma pyArgs_queryArgs (path : string) (op : Operation)
    (args : gmap string json) (kwargs : gmap string pyval) :
  string_query_call path op args kwargs ->
  pyArgs op kwargs =
  (fun kv : string * string => (kv.1, PyStr kv.2)) <$> queryArgs args (op_Parameters op).
Proof.
  unfold string_query_call, pyArgs, queryArgs.
  induction (op_Parameters op) as [|[param|] parameters IH]; intros Hcall; [done| |].
  - cbn [omap list_omap]. rewrite IH by (intros ? ?; apply Hcall; by right).
    specialize (Hcall param ltac:(left)).
    destruct (args !! param_Name param) as [[| ? | ? |s| ? | ? ]|]; try done.
    + destruct Hcall as (-> & _ & ->). done.
    + rewrite Hcall. by destruct (String.eqb (param_In param) "query").
  - cbn [omap list_omap]. apply IH. intros ? ?. apply Hcall. by right.
Qed.

Lemma queryArgs_elem (args : gmap string json) (parameters : list (option Param))
    (kv : string * string) :
  kv ∈ queryArgs args parameters ->
  exists param val, Some param ∈ parameters /\ args !! param_Name param = Some val /\
                    kv.1 = param_Name param.
Proof.
  unfold queryArgs. intros Hin. apply list_elem_of_omap in Hin as ([param|] & Hin & Hkv); [|done].
  destruct (String.eqb (param_In param) "query"); [|done].
  destruct (args !! param_Name param) as [val|] eqn:Hval; [|done].
  simplify_eq/=. eauto.
Qed.

(** Apart from the path arguments, the two paths agree on the calls that
    supply string values for query parameters declared by ascending name. *)
Lemma urls_agree_on_sorted_query_calls (baseURL path method : string) (op : Operation)
    (args : gmap string json) (kwargs : gmap string pyval) (u : URL) :
  loadable path method op = true ->
  string_query_call path op args kwargs ->
  StronglySorted (fun x y : string * string => string_le x.1 y.1)
    (queryArgs args (op_Parameters op)) ->
  url_Parse (joinURL baseURL path) = Some u ->
  URL_Query u = ∅ ->
  (forall q, URL_String u q =
             joinURL baseURL path +:+ (if String.eqb q "" then "" else "?" +:+ q)) ->
  py_url <$> py_tool baseURL path method op kwargs
  = Some (buildURL baseURL path args (op_Parameters op)).
Proof.
  intros Hload Hcall Hsorted Hparse Hquery Hprint.
  pose proof (pyArgs_queryArgs _ _ _ _ Hcall) as Hargs.
  rewrite py_tool_calls_build_url by done. f_equal. rewrite Hargs.
  rewrite build_url_no_placeholder.
  2:{ intros kv Hkv. apply list_elem_of_fmap in Hkv as (kv' & -> & Hkv').
      apply queryArgs_elem in Hkv' as (param & val & Hparam & Hval & ->).
      specialize (Hcall param Hparam). rewrite Hval in Hcall.
      destruct val; try done. apply Hcall. }
  unfold buildURL. rewrite substitutePath_no_path_argument.
  2:{ intros param Hparam Hin. specialize (Hcall param Hparam).
      destruct (args !! param_Name param) as [[| ? | ? |s| ? | ? ]|]; try done.
      destruct Hcall as (Hq & _). congruence. }
  rewrite Hparse, Hquery, Hprint. unfold Values_Encode.
  rewrite Values_pairs_queryArgs by done.
  destruct (queryArgs args (op_Parameters op)) as [|kv pairs] eqn:Hpairs.
  - simpl. symmetry. apply append_nil_r.
  - rewrite (proj2 (String.eqb_neq _ _)) by (by apply concat_pairs_not_empty).
    transitivity ((joinURL baseURL path +:+ "?") +:+
                  urlencode ((fun kv0 : string * string => (kv0.1, PyStr kv0.2))
                               <$> kv :: pairs)); [done|].
    rewrite append_assoc. do 2 f_equal.
    unfold urlencode. rewrite <- list_fmap_compose. f_equal.
    apply list_fmap_ext. intros ? [k v] _. unfold encode_pair. simpl.
    by rewrite !quote_plus_QueryEscape.
Qed.

(** C1. On [GET /users/{id}] with [id = "7"], where [net/url] parses the
    joined URL without a query and prints it back as written, the live path
    requests [/users/7], and [build_url] of the emitted module, called with
    the same base URL, path and argument, returns [/users/7?id=7]: it
    repeats the path argument in the query string, and the two URLs
    differ. *)
Theorem build_url_repeats_path_argument (param : Param) (u : URL) :
  param_Name param = "id" ->
  param_In param = "path" ->
  url_Parse "https://api.example.com/users/7" = Some u ->
  URL_Query u = ∅ ->
  URL_String u "" = "https://api.example.com/users/7" ->
  buildURL "https://api.example.com" "/users/{id}" {[ "id" := JStr "7" ]} [Some param]
  = "https://api.example.com/users/7" /\
  build_url "https://api.example.com" "/users/{id}" [("id", PyStr "7")]
  = "https://api.example.com/users/7?id=7" /\
  buildURL "https://api.example.com" "/users/{id}" {[ "id" := JStr "7" ]} [Some param]
  <> build_url "https://api.example.com" "/users/{id}" [("id", PyStr "7")].
Proof.
  intros Hname Hin Hparse Hquery Hprint.
  assert (Hlive : buildURL "https://api.example.com" "/users/{id}" {[ "id" := JStr "7" ]}
                    [Some param] = "https://api.example.com/users/7").
  { unfold buildURL, substitutePath, addQueryParams. cbn [foldl].
    rewrite Hname, Hin. cbn [String.eqb Ascii.eqb Bool.eqb].
    rewrite lookup_singleton_eq.
    change (joinURL _ _) with "https://api.example.com/users/7".
    by rewrite Hparse, Hquery. }
  assert (Hemitted : build_url "https://api.example.com" "/users/{id}" [("id", PyStr "7")]
                     = "https://api.example.com/users/7?id=7") by (vm_compute; reflexivity).
  split; [exact Hlive|]. split; [exact Hemitted|].
  rewrite Hlive, Hemitted. discriminate.
Qed.

End Properties.

(** * Further properties of the generator *)

(** ** Strings, character by character *)

Ltac each_byte c :=
  destruct c as [[] [] [] [] [] [] [] []]; try reflexivity; try discriminate.

Lemma append_length (a b : string) :
  String.length (a +:+ b) = String.length a + String.length b.
Proof.
  induction a as [|x a IH]; [done|].
  change (S (String.length (a +:+ b)) = S (String.length a + String.length b)). by rewrite IH.
Qed.

Lemma all_chars_append (p : ascii -> bool) (a b : string) :
  all_chars p (a +:+ b) = all_chars p a && all_chars p b.
Proof.
  induction a as [|x a IH]; [done|].
  change (p x && all_chars p (a +:+ b) = p x && all_chars p a && all_chars p b).
  rewrite IH. by destruct (p x).
Qed.

Lemma all_chars_string_map (p : ascii -> bool) (f : ascii -> ascii) (s : string) :
  all_chars p (string_map f s) = all_chars (fun c => p (f c)) s.
Proof. induction s as [|x s IH]; [done|]. simpl. by rewrite IH. Qed.

Lemma all_chars_impl (p q : ascii -> bool) (s : string) :
  (forall c, p c = true -> q c = true) -> all_chars p s = true -> all_chars q s = true.
Proof.
  intros Hpq. induction s as [|x s IH]; [done|]. simpl.
  rewrite !andb_true_iff. intros [Hx Hs]. auto.
Qed.

Lemma all_chars_true (p : ascii -> bool) (s : string) :
  (forall c, p c = true) -> all_chars p s = true.
Proof. intros Hp. induction s as [|x s IH]; [done|]. simpl. by rewrite Hp, IH. Qed.

Lemma string_map_fixed (f : ascii -> ascii) (s : string) :
  string_map f s = s <-> all_chars (fun c => Ascii.eqb (f c) c) s = true.
Proof.
  induction s as [|x s IH]; [done|]. simpl. rewrite andb_true_iff, <- IH, Ascii.eqb_eq.
  split; [intros [= -> ->]; done|intros [-> ->]; done].
Qed.

Lemma string_map_length (f : ascii -> ascii) (s : string) :
  String.length (string_map f s) = String.length s.
Proof. induction s as [|x s IH]; [done|]. simpl. by rewrite IH. Qed.

Lemma string_map_compose (f g : ascii -> ascii) (s : string) :
  string_map f (string_map g s) = string_map (fun c => f (g c)) s.
Proof. induction s as [|x s IH]; [done|]. simpl. by rewrite IH. Qed.

Lemma string_map_ext (f g : ascii -> ascii) (s : string) :
  (forall c, f c = g c) -> string_map f s = string_map g s.
Proof. intros Hfg. induction s as [|x s IH]; [done|]. simpl. by rewrite Hfg, IH. Qed.

Lemma string_flat_map_append (f : ascii -> string) (a b : string) :
  string_flat_map f (a +:+ b) = string_flat_map f a +:+ string_flat_map f b.
Proof.
  induction a as [|x a IH]; [done|].
  change (f x +:+ string_flat_map f (a +:+ b)
          = (f x +:+ string_flat_map f a) +:+ string_flat_map f b).
  by rewrite IH, append_assoc.
Qed.

Lemma string_flat_map_compose (f g : ascii -> string) (s : string) :
  string_flat_map f (string_flat_map g s) =
  string_flat_map (fun c => string_flat_map f (g c)) s.
Proof.
  induction s as [|x s IH]; [done|]. simpl. by rewrite string_flat_map_append, IH.
Qed.

Lemma string_flat_map_ext (f g : ascii -> string) (s : string) :
  (forall c, f c = g c) -> string_flat_map f s = string_flat_map g s.
Proof. intros Hfg. induction s as [|x s IH]; [done|]. simpl. by rewrite Hfg, IH. Qed.

Lemma all_chars_flat_map (p : ascii -> bool) (f : ascii -> string) (s : string) :
  all_chars p (string_flat_map f s) = all_chars (fun c => all_chars p (f c)) s.
Proof.
  induction s as [|x s IH]; [done|]. simpl. by rewrite all_chars_append, IH.
Qed.

(** *** Replacing one character *)

Lemma replace_char_cons (c x : ascii) (new s : string) :
  replace_from (String c "") new 0 (String x s) =
  if Ascii.eqb x c then new +:+ replace_from (String c "") new 0 s
  else String x (replace_from (String c "") new 0 s).
Proof. cbn [replace_from]. rewrite prefix_single. reflexivity. Qed.

Lemma ReplaceAll_char (c d : ascii) (s : string) :
  ReplaceAll s (String c "") (String d "") =
  string_map (fun x => if Ascii.eqb x c then d else x) s.
Proof.
  unfold ReplaceAll. induction s as [|x s IH]; [done|].
  rewrite replace_char_cons, IH. simpl. by destruct (Ascii.eqb x c).
Qed.

Lemma ReplaceAll_flat_map (c : ascii) (new s : string) :
  ReplaceAll s (String c "") new =
  string_flat_map (fun x => if Ascii.eqb x c then new else String x "") s.
Proof.
  unfold ReplaceAll. induction s as [|x s IH]; [done|].
  rewrite replace_char_cons, IH. simpl. by destruct (Ascii.eqb x c).
Qed.

(** *** Prefixes and suffixes *)

Lemma string_rev_app_spec (s acc : string) :
  string_rev_app s acc = string_rev s +:+ acc.
Proof.
  unfold string_rev. revert acc. induction s as [|x s IH]; intros acc; [done|].
  simpl. rewrite IH, (IH (String x "")), append_assoc. done.
Qed.

Lemma string_rev_append (a b : string) :
  string_rev (a +:+ b) = string_rev b +:+ string_rev a.
Proof.
  induction a as [|x a IH]; [by rewrite append_nil_r|].
  change (string_rev_app (a +:+ b) (String x "")
          = string_rev b +:+ string_rev_app a (String x "")).
  rewrite !string_rev_app_spec, IH, append_assoc. done.
Qed.

Lemma prefix_append (a b : string) : String.prefix a (a +:+ b) = true.
Proof.
  induction a as [|x a IH]; [by destruct b|].
  change (String.prefix (String x a) (String x (a +:+ b)) = true).
  simpl. destruct (ascii_dec x x); [done|congruence].
Qed.

Lemma HasSuffix_append (a b : string) : HasSuffix (a +:+ b) b = true.
Proof. unfold HasSuffix. rewrite string_rev_append. apply prefix_append. Qed.

Lemma HasSuffix_last (a b : string) (c d : ascii) :
  HasSuffix (a +:+ String c "") (b +:+ String d "") = true -> c = d.
Proof.
  unfold HasSuffix. rewrite !string_rev_append.
  change (string_rev (String c "")) with (String c "").
  change (string_rev (String d "")) with (String d "").
  change (String.prefix (String d (string_rev b)) (String c (string_rev a)) = true -> c = d).
  simpl. destruct (ascii_dec d c); [done|discriminate].
Qed.

Lemma substring_full (s : string) : String.substring 0 (String.length s) s = s.
Proof. induction s as [|x s IH]; [done|]. simpl. by rewrite IH. Qed.

Lemma TrimPrefix_char (c : ascii) (s : string) :
  TrimPrefix s (String c "") =
  match s with
  | String x s' => if Ascii.eqb x c then s' else s
  | EmptyString => EmptyString
  end.
Proof.
  unfold TrimPrefix, HasPrefix. destruct s as [|x s]; [done|].
  rewrite prefix_single. destruct (Ascii.eqb x c); [|done].
  cbn [String.length]. rewrite Nat.sub_succ, Nat.sub_0_r. cbn [String.substring].
  apply substring_full.
Qed.

Lemma all_chars_TrimPrefix (p : ascii -> bool) (c : ascii) (s : string) :
  all_chars p s = true -> all_chars p (TrimPrefix s (String c "")) = true.
Proof.
  rewrite TrimPrefix_char. destruct s as [|x s]; [done|].
  destruct (Ascii.eqb x c); [|done]. simpl. rewrite andb_true_iff. tauto.
Qed.

Lemma all_chars_title_from (p : ascii -> bool) (prev : ascii) (s : string) :
  (forall c, p c = true -> p (to_upper c) = true) ->
  all_chars p s = true -> all_chars p (title_from prev s) = true.
Proof.
  intros Hupper. revert prev. induction s as [|x s IH]; intros prev; [done|].
  simpl. rewrite !andb_true_iff. intros [Hx Hs]. split; [|by apply IH].
  destruct (isSeparator prev); auto.
Qed.

(** *** Replacing a placeholder *)

Lemma placeholder_cons (name : string) : placeholder name = String "{" (name +:+ "}").
Proof. reflexivity. Qed.

Lemma replace_from_absent (old new s : string) :
  Contains s old = false -> replace_from old new 0 s = s.
Proof.
  induction s as [|c s IH]; [done|]. cbn [Contains replace_from].
  rewrite orb_false_iff. intros [-> Hrest]. by rewrite IH.
Qed.

Lemma Contains_brace (s rest : string) :
  Contains s "{" = false -> Contains s (String "{" rest) = false.
Proof.
  induction s as [|c s IH]; [done|]. cbn [Contains].
  rewrite prefix_single, !orb_false_iff. intros [Hc Hs]. split; [|by apply IH].
  cbn [String.prefix]. destruct (ascii_dec "{" c) as [<-|Hne]; [|done].
  by rewrite Ascii.eqb_refl in Hc.
Qed.

Lemma replace_from_skip (old new skipped s : string) :
  replace_from old new (String.length skipped) (skipped +:+ s) = replace_from old new 0 s.
Proof. induction skipped as [|c skipped IH]; [done|]. exact IH. Qed.

Lemma replace_from_occurrence (c : ascii) (rest new s : string) :
  replace_from (String c rest) new 0 (String c rest +:+ s) =
  new +:+ replace_from (String c rest) new 0 s.
Proof.
  change (String c rest +:+ s) with (String c (rest +:+ s)). cbn [replace_from].
  change (String c (rest +:+ s)) with (String c rest +:+ s). rewrite prefix_append.
  cbn [String.length]. rewrite Nat.sub_succ, Nat.sub_0_r. by rewrite replace_from_skip.
Qed.

Lemma replace_from_before (c : ascii) (rest new pre s : string) :
  Contains pre (String c "") = false ->
  replace_from (String c rest) new 0 (pre +:+ s) =
  pre +:+ replace_from (String c rest) new 0 s.
Proof.
  induction pre as [|x pre IH]; [done|]. cbn [Contains].
  rewrite prefix_single, orb_false_iff. intros [Hx Hpre].
  change (String x pre +:+ s) with (String x (pre +:+ s)). cbn [replace_from].
  assert (String.prefix (String c rest) (String x (pre +:+ s)) = false) as ->.
  { simpl. destruct (ascii_dec c x) as [->|Hne]; [|done]. by rewrite Ascii.eqb_refl in Hx. }
  rewrite IH by done. done.
Qed.

Lemma ReplaceAll_placeholder (pre post name new : string) :
  Contains pre "{" = false -> Contains post "{" = false ->
  ReplaceAll (pre +:+ placeholder name +:+ post) (placeholder name) new =
  pre +:+ new +:+ post.
Proof.
  intros Hpre Hpost. rewrite placeholder_cons. unfold ReplaceAll.
  rewrite replace_from_before by done. rewrite replace_from_occurrence.
  rewrite (replace_from_absent _ _ post); [done|]. by apply Contains_brace.
Qed.

(** ** Parameter names *)

Lemma sanitizeParamName_map (name : string) :
  sanitizeParamName name =
  string_map (fun r => if isIdentifierRune r then r else "_"%char) name.
Proof.
  unfold sanitizeParamName. rewrite (ReplaceAll_char "-" "_"), string_map_compose.
  apply string_map_ext. intros c. each_byte c.
Qed.

(** X1. On an ASCII parameter name, [sanitizeParamName] keeps the length
    of the name and returns only letters, digits and underscores. *)
Theorem sanitizeParamName_identifier_characters (name : string) :
  isASCII name = true ->
  String.length (sanitizeParamName name) = String.length name /\
  all_chars isIdentifierRune (sanitizeParamName name) = true.
Proof.
  intros _. rewrite sanitizeParamName_map. split; [apply string_map_length|].
  rewrite all_chars_string_map. apply all_chars_true. intros c. each_byte c.
Qed.

(** X2. [sanitizeParamName] leaves exactly the names made of letters,
    digits and underscores as they are, and sanitizing twice is sanitizing
    once. *)
Theorem sanitizeParamName_fixes_identifiers (name : string) :
  isASCII name = true ->
  (sanitizeParamName name = name <-> all_chars isIdentifierRune name = true) /\
  sanitizeParamName (sanitizeParamName name) = sanitizeParamName name.
Proof.
  intros _. rewrite !sanitizeParamName_map. split.
  - rewrite string_map_fixed. split; apply all_chars_impl; intros c; each_byte c.
  - rewrite string_map_compose. apply string_map_ext. intros c. each_byte c.
Qed.

(** ** Package and folder names *)

Lemma sanitizeForPackageName_map (name : string) :
  sanitizeForPackageName name =
  match string_map packageRune name with
  | String c rest => if is_lower c then String c rest else "mcp_" +:+ String c rest
  | EmptyString => EmptyString
  end.
Proof.
  unfold sanitizeForPackageName, ToLower.
  rewrite (ReplaceAll_char " " "_"), !string_map_compose.
  change (string_map _ name) with (string_map packageRune name).
  destruct name as [|c name]; [done|]. simpl.
  assert (is_upper (packageRune c) = false) as ->; [each_byte c|].
  rewrite orb_false_r. by destruct (is_lower (packageRune c)).
Qed.

Lemma packageRune_valid (name : string) :
  all_chars isPackageRune (string_map packageRune name) = true.
Proof. rewrite all_chars_string_map. apply all_chars_true. intros c. each_byte c. Qed.

Lemma sanitizeForPackageName_shape (name : string) :
  all_chars isPackageRune (sanitizeForPackageName name) = true /\
  match sanitizeForPackageName name with
  | EmptyString => name = ""
  | String c _ => is_lower c = true
  end.
Proof.
  rewrite sanitizeForPackageName_map.
  pose proof (packageRune_valid name) as Hvalid.
  destruct name as [|x name]; [done|]. simpl in *.
  destruct (is_lower (packageRune x)) eqn:Hx; [done|].
  split; [|done]. exact Hvalid.
Qed.

(** A name that is already a package name is returned as it is. *)
Lemma sanitizeForPackageName_fixed (name : string) :
  all_chars isPackageRune name = true ->
  match name with EmptyString => True | String c _ => is_lower c = true end ->
  sanitizeForPackageName name = name.
Proof.
  intros Hchars Hfirst. rewrite sanitizeForPackageName_map.
  assert (string_map packageRune name = name) as ->.
  { apply string_map_fixed. revert Hchars. apply all_chars_impl. intros c. each_byte c. }
  destruct name as [|c name]; [done|]. by rewrite Hfirst.
Qed.

(** X3. On an ASCII title, [sanitizeForPackageName] returns lower-case
    letters, digits and underscores only; the result starts with a
    lower-case letter, and it is empty only for the empty title. *)
Theorem sanitizeForPackageName_valid (name : string) :
  isASCII name = true ->
  all_chars isPackageRune (sanitizeForPackageName name) = true /\
  match sanitizeForPackageName name with
  | EmptyString => name = ""
  | String c _ => is_lower c = true
  end.
Proof. intros _. apply sanitizeForPackageName_shape. Qed.

(** X4. [sanitizeForPackageName] is idempotent: a sanitized name is not
    changed, nor prefixed, again. *)
Theorem sanitizeForPackageName_idempotent (name : string) :
  isASCII name = true ->
  sanitizeForPackageName (sanitizeForPackageName name) = sanitizeForPackageName name.
Proof.
  intros _. destruct (sanitizeForPackageName_shape name) as [Hchars Hfirst].
  apply sanitizeForPackageName_fixed; [done|].
  by destruct (sanitizeForPackageName name).
Qed.

(** X5. The project name written to [pyproject.toml] is never empty: it
    starts with a lower-case letter and holds lower-case letters, digits and
    underscores only, whatever the (ASCII) title of the document. *)
Theorem projectName_is_a_package_name (title : string) :
  isASCII title = true ->
  all_chars isPackageRune (projectName title) = true /\
  exists c rest, projectName title = String c rest /\ is_lower c = true.
Proof.
  intros _. destruct (sanitizeForPackageName_shape title) as [Hchars Hfirst].
  unfold projectName. destruct (sanitizeForPackageName title) as [|c rest] eqn:Hname.
  - simpl. split; [done|]. by eexists _, _.
  - simpl. split; [done|]. by eexists _, _.
Qed.

(** X6. The folder of the generated project holds no space and no
    upper-case letter, and it is as long as the title and the eleven
    characters of [_mcp_server] together: no character of the title is
    dropped. *)
Theorem folderName_has_no_space (title : string) :
  isASCII title = true ->
  all_chars (fun c => negb (Ascii.eqb c " ") && negb (is_upper c)) (folderName title) = true /\
  String.length (folderName title) = String.length title + 11.
Proof.
  intros _. unfold folderName, ToLower.
  rewrite (ReplaceAll_char " " "_"), string_map_compose. split.
  - rewrite all_chars_append, all_chars_string_map, andb_true_iff. split; [|done].
    apply all_chars_true. intros c. each_byte c.
  - by rewrite append_length, string_map_length.
Qed.

(** ** Tool identifiers, on every path *)

Lemma sanitized_flat_map (path : string) :
  ReplaceAll (ReplaceAll (ReplaceAll (ReplaceAll path "{" "") "}" "") "/" "_") "-" "_" =
  string_flat_map sanitizeRune path.
Proof.
  rewrite !ReplaceAll_flat_map, !string_flat_map_compose.
  apply string_flat_map_ext. intros c. each_byte c.
Qed.

Lemma sanitizePathForToolID_flat_map (path method : string) :
  sanitizePathForToolID path method =
  ToLower method +:+ Title (TrimPrefix (string_flat_map sanitizeRune path) "_").
Proof. unfold sanitizePathForToolID. by rewrite sanitized_flat_map. Qed.

(** X7. A tool ID is the lower-cased method followed by a remainder that
    holds no brace, no slash and no hyphen, whatever the (ASCII) path. *)
Theorem toolID_has_no_path_punctuation (path method : string) :
  isASCII path = true ->
  exists rest,
    sanitizePathForToolID path method = ToLower method +:+ rest /\
    all_chars (fun c => negb (isPathPunctuation c)) rest = true.
Proof.
  intros _. rewrite sanitizePathForToolID_flat_map. eexists. split; [reflexivity|].
  unfold Title. apply all_chars_title_from; [intros c; each_byte c|].
  apply all_chars_TrimPrefix. rewrite all_chars_flat_map.
  apply all_chars_true. intros c. each_byte c.
Qed.

(** X8. Tool IDs do not tell a hyphen or a slash from an underscore, nor a
    placeholder from a plain segment: writing [_] for every [-] or for every
    [/] of a path, or dropping its braces, gives the same ID. *)
Theorem toolID_ignores_separator_kind (path method : string) :
  sanitizePathForToolID (ReplaceAll path "-" "_") method = sanitizePathForToolID path method /\
  sanitizePathForToolID (ReplaceAll path "/" "_") method = sanitizePathForToolID path method /\
  sanitizePathForToolID (ReplaceAll path "{" "") method = sanitizePathForToolID path method /\
  sanitizePathForToolID (ReplaceAll path "}" "") method = sanitizePathForToolID path method.
Proof.
  rewrite !sanitizePathForToolID_flat_map, !ReplaceAll_flat_map, !string_flat_map_compose.
  split_and!; do 3 f_equal; apply string_flat_map_ext; intros c; each_byte c.
Qed.

Section Generator.
Context `{!GoLib}.

(** ** What the normalizer changes *)

Lemma normalized_lookup (spec : gmap string json) (k : string) :
  fixParameters (fixComponents (fixVersion spec)) !! k =
  if decide (k = "paths") then
    on_obj (fmap (on_obj (fmap (on_obj
      (alter (on_arr (on_obj (alter (on_obj fixAnyOf) "schema"))) "parameters")))))
    <$> spec !! k
  else if decide (k = "components") then
    on_obj (alter (on_obj (fmap (on_obj (fun schema =>
      removeNonStandardFields (fixNullTypes schema))))) "schemas") <$> spec !! k
  else if decide (k = "openapi") then
    (fun v => match v with
              | JStr version => JStr (normalized_version version)
              | _ => v
              end) <$> spec !! k
  else spec !! k.
Proof.
  rewrite fixVersion_alter. unfold fixParameters, fixComponents.
  rewrite !lookup_alter. repeat case_decide; simplify_eq; try done.
  destruct (spec !! "openapi") as [[| ? | ? |version| ? | ? ]|]; try done.
  simpl. unfold normalized_version. by destruct (HasPrefix version "3.1").
Qed.

(** X9. The normalizer never returns a 3.1 document: a version string
    that starts with [3.1] is rewritten to [3.0.0], and every other version
    is kept. *)
Theorem normalized_version_is_not_3_1 (d d' : jsonbytes) :
  preprocessOpenAPISpec d = Ok d' ->
  version_of d' = normalized_version <$> version_of d /\
  forall version, version_of d' = Some version -> HasPrefix version "3.1" = false.
Proof.
  intros Hout.
  assert (Hversion : version_of d' = normalized_version <$> version_of d).
  { unfold preprocessOpenAPISpec in Hout.
    destruct d as [|[| ? | ? | ? | ? |spec]]; simpl in Hout; simplify_eq; try done.
    unfold version_of. rewrite normalized_lookup. simpl.
    by destruct (spec !! "openapi") as [[| ? | ? |version| ? | ? ]|]. }
  split; [done|]. intros version. rewrite Hversion.
  destruct (version_of d) as [v|]; [|done]. simpl. intros [= <-].
  unfold normalized_version. by destruct (HasPrefix v "3.1") eqn:Hv.
Qed.

(** X10. On a JSON object the normalizer succeeds, keeps the set of
    top-level keys, and leaves every entry other than [openapi],
    [components] and [paths] as it is. *)
Theorem normalizer_touches_three_keys (spec : gmap string json) :
  exists out : gmap string json,
    preprocessOpenAPISpec (Text (JObj spec)) = Ok (Text (JObj out)) /\
    dom out = dom spec /\
    forall k, k <> "openapi" -> k <> "components" -> k <> "paths" -> out !! k = spec !! k.
Proof.
  eexists. split; [reflexivity|]. split.
  - apply set_eq. intros k. rewrite !elem_of_dom, normalized_lookup.
    repeat case_decide; by rewrite ?fmap_is_Some.
  - intros k ? ? ?. rewrite normalized_lookup. by rewrite !decide_False by done.
Qed.

Lemma removeNonStandardFields_fuel_fields (n : nat) (schema node : gmap string json)
    (field : string) :
  depth (JObj schema) <= n ->
  rtc visited_child (removeNonStandardFields_fuel n schema) node ->
  field ∈ nonStandardFields ->
  node !! field = None.
Proof.
  intros Hdepth Hreach Hfield. revert schema node Hdepth Hreach.
  induction n as [|n IH]; intros schema node Hdepth Hreach.
  { pose proof (depth_obj_pos schema). lia. }
  inversion Hreach as [|? child ? Hchild Hrest]; subst.
  - rewrite removeNonStandardFields_fuel_lookup. rewrite decide_True; [done|].
    unfold nonStandardFields in Hfield. rewrite !elem_of_cons, elem_of_nil in Hfield. tauto.
  - destruct Hchild as [Hchild|Hchild].
    + apply property_of_removeNonStandardFields in Hchild as (child0 & Hchild0 & ->).
      destruct Hchild0 as (properties & name & Hprops & Hname).
      pose proof (depth_lookup _ _ _ Hprops). pose proof (depth_lookup _ _ _ Hname).
      apply (IH child0); [lia|done].
    + unfold items_of in Hchild. rewrite removeNonStandardFields_fuel_lookup in Hchild.
      rewrite decide_False in Hchild by (intros [?|?]; done).
      rewrite decide_False in Hchild by done. rewrite decide_True in Hchild by done.
      destruct (schema !! "items") as [[| ? | ? | ? | ? |items]|] eqn:Hitems; simplify_eq.
      pose proof (depth_lookup _ _ _ Hitems).
      apply (IH items); [lia|done].
Qed.

(** X11. After normalization, neither an entry of [components.schemas]
    nor any schema reached from it through [properties] entries and [items],
    at any depth, holds the vendor fields [error_messages] or
    [hide_error_details]. *)
Theorem normalized_schemas_have_no_non_standard_fields
    (spec out components schemas schema node : gmap string json) (name field : string) :
  preprocessOpenAPISpec (Text (JObj spec)) = Ok (Text (JObj out)) ->
  out !! "components" = Some (JObj components) ->
  components !! "schemas" = Some (JObj schemas) ->
  schemas !! name = Some (JObj schema) ->
  rtc visited_child schema node ->
  field ∈ nonStandardFields ->
  node !! field = None.
Proof.
  unfold preprocessOpenAPISpec. simpl. intros Hout Hcomponents Hschemas Hname Hreach Hfield.
  simplify_eq. rewrite normalized_lookup in Hcomponents.
  rewrite decide_False, decide_True in Hcomponents by done.
  apply fmap_Some in Hcomponents as (v & _ & Hv). symmetry in Hv.
  apply on_obj_JObj in Hv as (components0 & -> & ->).
  rewrite lookup_alter_eq in Hschemas.
  apply fmap_Some in Hschemas as (v & _ & Hv). symmetry in Hv.
  apply on_obj_JObj in Hv as (schemas0 & -> & ->).
  apply lookup_fmap_Some in Hname as (v & Hv & _).
  apply on_obj_JObj in Hv as (schema0 & -> & ->).
  by eapply (removeNonStandardFields_fuel_fields _ (fixNullTypes schema0)).
Qed.

Lemma on_arr_elem (f : json -> json) (v : json) (l : list json) (x : json) :
  on_arr f v = JArr l -> x ∈ l -> exists x0, x = f x0.
Proof.
  destruct v; simpl; intros Hl Hx; simplify_eq.
  apply list_elem_of_fmap in Hx as (x0 & -> & _). eauto.
Qed.

(** X12. After normalization, no schema of an operation parameter
    ([paths.<path>.<method>.parameters[i].schema]) is a null-union. *)
Theorem normalized_parameter_schemas_not_null_union
    (spec out paths pathItem operation param schema : gmap string json)
    (parameters : list json) (path method : string) :
  preprocessOpenAPISpec (Text (JObj spec)) = Ok (Text (JObj out)) ->
  out !! "paths" = Some (JObj paths) ->
  paths !! path = Some (JObj pathItem) ->
  pathItem !! method = Some (JObj operation) ->
  operation !! "parameters" = Some (JArr parameters) ->
  JObj param ∈ parameters ->
  param !! "schema" = Some (JObj schema) ->
  null_union schema = false.
Proof.
  unfold preprocessOpenAPISpec. simpl.
  intros Hout Hpaths Hpath Hmethod Hparameters Hparam Hschema.
  simplify_eq. rewrite normalized_lookup, decide_True in Hpaths by done.
  apply fmap_Some in Hpaths as (v & _ & Hv). symmetry in Hv.
  apply on_obj_JObj in Hv as (paths0 & -> & ->).
  apply lookup_fmap_Some in Hpath as (v & Hv & _).
  apply on_obj_JObj in Hv as (pathItem0 & -> & ->).
  apply lookup_fmap_Some in Hmethod as (v & Hv & _).
  apply on_obj_JObj in Hv as (operation0 & -> & ->).
  rewrite lookup_alter_eq in Hparameters.
  apply fmap_Some in Hparameters as (v & _ & Hv). symmetry in Hv.
  destruct (on_arr_elem _ _ _ _ Hv Hparam) as (x0 & Hx0). symmetry in Hx0.
  apply on_obj_JObj in Hx0 as (param0 & -> & ->).
  rewrite lookup_alter_eq in Hschema.
  apply fmap_Some in Hschema as (w & _ & Hw). symmetry in Hw.
  apply on_obj_JObj in Hw as (schema0 & -> & ->).
  apply null_union_false, fixAnyOf_main_None.
Qed.

(** X13. [fixAnyOf] changes a schema exactly when it is a null-union; it
    never drops a field other than [anyOf], and every field of its result is
    [nullable], a field of the schema or a field of the non-null
    alternative. *)
Theorem fixAnyOf_changes_exactly_null_unions (schema : gmap string json) :
  (fixAnyOf schema = schema <-> null_union schema = false) /\
  (forall k, k <> "anyOf" -> is_Some (schema !! k) -> is_Some (fixAnyOf schema !! k)) /\
  (forall k, is_Some (fixAnyOf schema !! k) ->
             k = "nullable" \/ is_Some (schema !! k) \/
             exists mainType, main_alternative schema = Some mainType /\
                              is_Some (mainType !! k)).
Proof.
  rewrite null_union_false, fixAnyOf_main.
  destruct (main_alternative schema) as [mainType|] eqn:Hmain.
  - destruct (main_alternative_elem _ _ Hmain) as (anyOf & Hany & _). split_and!.
    + split; [|done]. intros Heq. apply (f_equal (fun m => m !! "anyOf")) in Heq.
      rewrite lookup_delete_eq, Hany in Heq. done.
    + intros k Hk [v Hv]. rewrite lookup_delete_ne by done.
      destruct (decide (k = "nullable")) as [->|Hnullable];
        [by rewrite lookup_insert_eq|].
      rewrite lookup_insert_ne by done.
      rewrite lookup_union. destruct (mainType !! k); rewrite Hv; done.
    + intros k [v Hv]. apply lookup_delete_Some in Hv as [_ Hv].
      apply lookup_insert_Some in Hv as [[<- _]|[_ Hv]]; [by left|].
      apply lookup_union_Some_raw in Hv as [Hv|[_ Hv]]; eauto 6.
  - split_and!; [done|done|]. intros k Hk. eauto.
Qed.

(** ** The registered tools *)

Lemma elem_of_pathRegistrations (path : string) (pathItem : gmap string (option Operation))
    (reg : Registration) :
  reg ∈ pathRegistrations path (map_to_list pathItem) <->
  exists method op, pathItem !! method = Some (Some op) /\
                    reg = AddTool (buildTool path method op) op path method.
Proof.
  unfold pathRegistrations. rewrite list_elem_of_omap. split.
  - intros ([method [op|]] & Hin & Hreg); [|done].
    apply elem_of_map_to_list in Hin. simplify_eq. eauto.
  - intros (method & op & Hin & ->). exists (method, Some op).
    split; [by apply elem_of_map_to_list|done].
Qed.

Lemma elem_of_allRegistrations (doc : Document) (reg : Registration) :
  reg ∈ allRegistrations doc <->
  exists path method op, declares doc path method op /\
                         reg = AddTool (buildTool path method op) op path method.
Proof.
  unfold allRegistrations, declares. rewrite list_elem_of_bind. split.
  - intros ([path pathItem] & Hreg & Hin). apply elem_of_map_to_list in Hin.
    apply elem_of_pathRegistrations in Hreg as (method & op & Hop & ->). simpl. eauto 8.
  - intros (path & method & op & (pathItem & Hpath & Hop) & ->).
    exists (path, pathItem). split; [|by apply elem_of_map_to_list].
    apply elem_of_pathRegistrations. eauto.
Qed.

Lemma NoDup_pathRegistrations (path : string) (pathItem : gmap string (option Operation)) :
  NoDup (pathRegistrations path (map_to_list pathItem)).
Proof.
  unfold pathRegistrations.
  apply (NoDup_fmap_1 reg_Method).
  pose proof (NoDup_fst_map_to_list pathItem) as Hkeys.
  induction (map_to_list pathItem) as [|[method [op|]] l IH]; [constructor| |].
  - cbn [omap list_omap fmap list_fmap]. inversion Hkeys as [|? ? Hfresh Hrest]; subst.
    cbn [fmap list_fmap] in *. constructor; [|by apply IH].
    intros Hin. apply Hfresh. simpl.
    apply list_elem_of_fmap in Hin as (reg & Hmethod & Hreg).
    apply list_elem_of_omap in Hreg as ([method' [op'|]] & Hin' & Hreg); [|done].
    simplify_eq. simpl. apply list_elem_of_fmap. by exists (method', Some op').
  - cbn [omap list_omap]. inversion Hkeys; subst. by apply IH.
Qed.

Lemma NoDup_allRegistrations (doc : Document) : NoDup (allRegistrations doc).
Proof.
  unfold allRegistrations.
  pose proof (NoDup_fst_map_to_list (doc_Paths doc)) as Hkeys.
  induction (map_to_list (doc_Paths doc)) as [|[path pathItem] l IH]; [constructor|].
  cbn [mbind list_bind]. inversion Hkeys as [|? ? Hfresh Hrest]; subst.
  apply NoDup_app. split_and!; [apply NoDup_pathRegistrations| |by apply IH].
  intros reg Hreg Hin. apply Hfresh.
  apply elem_of_pathRegistrations in Hreg as (method & op & _ & ->).
  apply list_elem_of_bind in Hin as ([path' pathItem'] & Hreg & Hin).
  apply elem_of_pathRegistrations in Hreg as (method' & op' & _ & Heq).
  simplify_eq. apply list_elem_of_fmap. by exists (path', pathItem').
Qed.

(** X14. Every run of [processPathsIntoTools] registers each operation of
    the document once and nothing else: the registered tools are exactly the
    tools built for the declared operations, each handed to [AddTool] with
    its own operation, path and method. *)
Theorem registered_tools_are_the_declared_operations (doc : Document)
    (regs : list Registration) :
  processPathsIntoTools doc regs ->
  NoDup regs /\
  forall reg, reg ∈ regs <->
    exists path method op, declares doc path method op /\
                           reg = AddTool (buildTool path method op) op path method.
Proof.
  intros Hrun. apply processPathsIntoTools_Permutation in Hrun. split.
  - rewrite Hrun. apply NoDup_allRegistrations.
  - intros reg. rewrite Hrun. apply elem_of_allRegistrations.
Qed.

Lemma parameterOption_name (paramRef : option Param) (opt : ToolOption) :
  parameterOption paramRef = Some opt ->
  exists param, paramRef = Some param /\ optionName opt = Some (param_Name param).
Proof.
  unfold parameterOption. destruct paramRef as [param|]; [|done].
  destruct (param_Schema param); [|done]. intros [= <-]. exists param. split; [done|].
  repeat case_match; done.
Qed.

(** X15. The properties a tool declares are, in declaration order, the
    names of the parameters that carry a schema, whatever their location and
    type, followed by [body] exactly when a media type of the request body
    carries a schema; a parameter without schema is not exposed. *)
Theorem tool_properties (path method : string) (op : Operation) :
  omap optionName (tool_Opts (buildTool path method op)) =
  omap exposedName (op_Parameters op) ++ (if hasBody op then ["body"] else []).
Proof.
  unfold buildTool. cbn [tool_Opts]. rewrite !omap_app. cbn [omap list_omap optionName app].
  f_equal.
  - induction (op_Parameters op) as [|paramRef parameters IH]; [done|].
    cbn [omap list_omap]. destruct (parameterOption paramRef) as [opt|] eqn:Hopt.
    + apply parameterOption_name in Hopt as Hname. destruct Hname as (param & -> & Hname).
      cbn [omap list_omap]. rewrite Hname. unfold exposedName.
      unfold parameterOption in Hopt. destruct (param_Schema param); [|done]. by rewrite IH.
    + rewrite IH. unfold parameterOption, exposedName in *.
      destruct paramRef as [param|]; [|done]. by destruct (param_Schema param).
  - unfold bodyOption. destruct (hasBody op) eqn:Hbody.
    + unfold hasBody in Hbody. destruct (op_RequestBody op); [done|done].
    + by destruct (op_RequestBody op).
Qed.

(** ** The URL of a live call *)

(** X16. Base URL and path are joined with exactly one slash, whether the
    base ends with a slash or not and whether the path starts with one or
    not. *)
Theorem joinURL_one_slash (base rest : string) :
  HasSuffix base "/" = false ->
  HasPrefix rest "/" = false ->
  joinURL base rest = base +:+ "/" +:+ rest /\
  joinURL (base +:+ "/") rest = base +:+ "/" +:+ rest /\
  joinURL base ("/" +:+ rest) = base +:+ "/" +:+ rest /\
  joinURL (base +:+ "/") ("/" +:+ rest) = base +:+ "/" +:+ rest.
Proof.
  intros Hbase Hrest. unfold joinURL.
  assert (Hslash : HasPrefix ("/" +:+ rest) "/" = true).
  { unfold HasPrefix. apply (prefix_append "/" rest). }
  rewrite Hbase, Hrest, Hslash, HasSuffix_append. simpl.
  by rewrite !append_assoc.
Qed.

Lemma substitutePath_ext (path : string) (args args' : gmap string json)
    (parameters : list (option Param)) :
  (forall param, Some param ∈ parameters -> param_In param = "path" ->
                 args !! param_Name param = args' !! param_Name param) ->
  substitutePath path args parameters = substitutePath path args' parameters.
Proof.
  unfold substitutePath. revert path.
  induction parameters as [|[param|] parameters IH]; intros path Hsame; [done| |].
  - cbn [foldl]. destruct (String.eqb (param_In param) "path") eqn:Hin.
    + rewrite <- (Hsame param) by (by left || by apply String.eqb_eq).
      apply IH. intros p Hp. apply Hsame. by right.
    + apply IH. intros p Hp. apply Hsame. by right.
  - cbn [foldl]. apply IH. intros p Hp. apply Hsame. by right.
Qed.

Lemma addQueryParams_ext (q : gmap string (list string)) (args args' : gmap string json)
    (parameters : list (option Param)) :
  (forall param, Some param ∈ parameters -> param_In param = "query" ->
                 args !! param_Name param = args' !! param_Name param) ->
  addQueryParams q args parameters = addQueryParams q args' parameters.
Proof.
  unfold addQueryParams. revert q.
  induction parameters as [|[param|] parameters IH]; intros q Hsame; [done| |].
  - cbn [foldl]. destruct (String.eqb (param_In param) "query") eqn:Hin.
    + rewrite <- (Hsame param) by (by left || by apply String.eqb_eq).
      apply IH. intros p Hp. apply Hsame. by right.
    + apply IH. intros p Hp. apply Hsame. by right.
  - cbn [foldl]. apply IH. intros p Hp. apply Hsame. by right.
Qed.

(** X17. The URL of a live call depends on the arguments of the declared
    path and query parameters only: header and cookie parameters, [body] and
    undeclared arguments never reach it. *)
Theorem buildURL_reads_declared_arguments_only (baseURL path : string)
    (args args' : gmap string json) (parameters : list (option Param)) :
  (forall param, Some param ∈ parameters ->
                 param_In param = "path" \/ param_In param = "query" ->
                 args !! param_Name param = args' !! param_Name param) ->
  buildURL baseURL path args parameters = buildURL baseURL path args' parameters.
Proof.
  intros Hsame. unfold buildURL.
  rewrite (substitutePath_ext path args args') by (intros; apply Hsame; auto).
  destruct (url_Parse _) as [u|]; [|done].
  by rewrite (addQueryParams_ext _ args args') by (intros; apply Hsame; auto).
Qed.

Lemma substitutePath_app (path : string) (args : gmap string json)
    (l1 l2 : list (option Param)) :
  substitutePath path args (l1 ++ l2) =
  substitutePath (substitutePath path args l1) args l2.
Proof. unfold substitutePath. apply foldl_app. Qed.

(** X18. A supplied path parameter replaces its placeholder by the value
    as [%v] prints it, without any escaping, and the text before and after
    the placeholder is kept. *)
Theorem substitutePath_replaces_placeholder (pre post : string) (param : Param)
    (val : json) (args : gmap string json) (before after : list (option Param)) :
  Contains pre "{" = false ->
  Contains post "{" = false ->
  param_In param = "path" ->
  args !! param_Name param = Some val ->
  (forall other, Some other ∈ before ++ after -> param_In other = "path" ->
                 args !! param_Name other = None) ->
  substitutePath (pre +:+ placeholder (param_Name param) +:+ post) args
    (before ++ Some param :: after) =
  pre +:+ Sprint_v val +:+ post.
Proof.
  intros Hpre Hpost Hin Hval Hothers.
  rewrite substitutePath_app, (substitutePath_no_path_argument _ _ before).
  2: { intros other Hother Hpath. apply Hothers; [|done]. apply elem_of_app. by left. }
  change (Some param :: after) with ([Some param] ++ after).
  rewrite substitutePath_app, (substitutePath_no_path_argument _ _ after).
  2: { intros other Hother Hpath. apply Hothers; [|done]. apply elem_of_app. by right. }
  unfold substitutePath. cbn [foldl]. rewrite Hin, Hval. simpl.
  by apply ReplaceAll_placeholder.
Qed.

(** X19. A path is left as it is when it holds the placeholder of none of
    the supplied path parameters. *)
Theorem substitutePath_leaves_other_paths (path : string) (args : gmap string json)
    (parameters : list (option Param)) :
  (forall param, Some param ∈ parameters -> param_In param = "path" ->
                 is_Some (args !! param_Name param) ->
                 Contains path (placeholder (param_Name param)) = false) ->
  substitutePath path args parameters = path.
Proof.
  unfold substitutePath.
  induction parameters as [|[param|] parameters IH]; intros Habsent; [done| |].
  - cbn [foldl]. destruct (String.eqb (param_In param) "path") eqn:Hin.
    + destruct (args !! param_Name param) as [val|] eqn:Hval.
      * rewrite placeholder_cons. unfold ReplaceAll.
        rewrite replace_from_absent.
        -- apply IH. intros p Hp. apply Habsent. by right.
        -- rewrite <- placeholder_cons. apply Habsent; [by left|by apply String.eqb_eq|].
           by rewrite Hval.
      * apply IH. intros p Hp. apply Habsent. by right.
    + apply IH. intros p Hp. apply Habsent. by right.
  - cbn [foldl]. apply IH. intros p Hp. apply Habsent. by right.
Qed.

(** *** The query string *)

Lemma hex_digit_query (n : nat) : isQueryRune (hex_digit n) = true.
Proof. do 16 (destruct n as [|n]; [done|]). done. Qed.

Lemma QueryEscape_query (s : string) : all_chars isQueryRune (QueryEscape s) = true.
Proof.
  induction s as [|c s IH]; [done|]. cbn [QueryEscape].
  destruct (Ascii.eqb c " "); [by cbn [all_chars]; rewrite IH|].
  destruct (shouldEscape c) eqn:Hc.
  - cbn [all_chars]. by rewrite !hex_digit_query, IH.
  - cbn [all_chars]. rewrite IH. unfold isQueryRune. by rewrite Hc.
Qed.

Lemma all_chars_concat (p : ascii -> bool) (sep : string) (l : list string) :
  all_chars p sep = true -> Forall (fun s => all_chars p s = true) l ->
  all_chars p (String.concat sep l) = true.
Proof.
  intros Hsep. induction 1 as [|s l Hs Hl IH]; [done|].
  cbn [String.concat]. destruct l as [|s' l]; [done|].
  change (all_chars p (s +:+ sep +:+ String.concat sep (s' :: l)) = true).
  by rewrite !all_chars_append, Hs, Hsep, IH.
Qed.

Lemma Values_Encode_query (v : gmap string (list string)) :
  all_chars isQueryRune (Values_Encode v) = true.
Proof.
  unfold Values_Encode. apply all_chars_concat; [done|].
  apply Forall_fmap, Forall_forall. intros kv _. unfold encode_pair. simpl.
  by rewrite !all_chars_append, !QueryEscape_query.
Qed.

(** X30. Unlike the path, the query string of a live call is escaped:
    whatever the arguments, the query that [buildURL] writes holds
    unreserved characters, [%] escapes, [+], [=] and [&] only, so that no
    value can add a parameter or a fragment of its own. *)
Theorem query_string_is_escaped (baseURL path : string)
    (args : gmap string json) (parameters : list (option Param)) (u : URL) :
  url_Parse (joinURL baseURL (substitutePath path args parameters)) = Some u ->
  exists query,
    buildURL baseURL path args parameters = URL_String u query /\
    all_chars isQueryRune query = true.
Proof.
  intros Hparse. unfold buildURL. rewrite Hparse.
  eexists. split; [reflexivity|]. apply Values_Encode_query.
Qed.

(** ** Requests and responses of a live call *)

Lemma createHTTPRequest_Ok (method url : string) (args : gmap string json)
    (op : Operation) (req : Request) :
  createHTTPRequest method url args op = Ok req ->
  req_Method req = (if String.eqb method "" then "GET" else method) /\
  url_Parse url = Some (req_URL req) /\
  req_Header req = ∅.
Proof.
  unfold createHTTPRequest, NewRequest.
  destruct (validMethod (if String.eqb method "" then "GET" else method)); [|done].
  simpl. destruct (url_Parse url) as [u|]; [|done]. by intros [= <-].
Qed.

(** X20. [createHTTPRequest] fails exactly when the method is not an HTTP
    token or the URL does not parse, whatever the arguments; a request it
    returns has the method (GET for the empty method), the parsed URL and no
    header. *)
Theorem createHTTPRequest_fails_iff (method url : string) (args : gmap string json)
    (op : Operation) :
  ((exists msg, createHTTPRequest method url args op = Err msg) <->
   validMethod (if String.eqb method "" then "GET" else method) = false \/
   url_Parse url = None) /\
  (forall req, createHTTPRequest method url args op = Ok req ->
     req_Method req = (if String.eqb method "" then "GET" else method) /\
     url_Parse url = Some (req_URL req) /\
     req_Header req = ∅).
Proof.
  split; [|apply createHTTPRequest_Ok].
  unfold createHTTPRequest, NewRequest.
  destruct (validMethod (if String.eqb method "" then "GET" else method)); simpl.
  - destruct (url_Parse url) as [u|].
    + split; [by intros [? ?]|by intros [?|?]].
    + split; eauto.
  - split; eauto.
Qed.

Lemma handler_cases (config : Config) (Do : Request -> result Response)
    (op : Operation) (path method : string) (arguments : gmap string json) :
  service_url config <> "" ->
  match createHTTPRequest method
          (buildURL (service_url config) path arguments (op_Parameters op)) arguments op with
  | Err err =>
      createToolHandler config Do op path method arguments =
      ([], Err ("failed to create request: " +:+ err))
  | Ok req0 =>
      exists req,
        req_Method req = req_Method req0 /\ req_URL req = req_URL req0 /\
        req_Body req = req_Body req0 /\
        req_Header req = handlerHeaders config ∪ req_Header req0 /\
        createToolHandler config Do op path method arguments =
        ([req],
         match Do req with
         | Err err => Err ("API request failed: " +:+ err)
         | Ok resp =>
             match resp_Body resp with
             | Err err => Err ("failed to read response: " +:+ err)
             | Ok body =>
                 if (400 <=? resp_StatusCode resp)%Z then
                   Err ("API returned error status: " +:+
                        NilZero.string_of_int (Z.to_int (resp_StatusCode resp)) +:+
                        " - " +:+ body)
                 else Ok (NewToolResultText body)
             end
         end)
  end.
Proof.
  intros Hurl. apply String.eqb_neq in Hurl. unfold createToolHandler. rewrite Hurl.
  destruct (createHTTPRequest _ _ _ _) as [req0|err]; [|done].
  exists (Header_Set "Accept" "application/json"
            (Header_Set "Content-Type" "application/json"
               (if String.eqb (service_authorization config) "" then req0
                else Header_Set "Authorization" (service_authorization config) req0))).
  split_and!.
  - by destruct (String.eqb (service_authorization config) "").
  - by destruct (String.eqb (service_authorization config) "").
  - by destruct (String.eqb (service_authorization config) "").
  - unfold handlerHeaders.
    destruct (String.eqb (service_authorization config) ""); simpl.
    + by rewrite <- !insert_union_l, (left_id_L ∅ (∪)).
    + by rewrite <- !insert_union_l, <- insert_union_singleton_l.
  - cbv zeta. destruct (Do _) as [resp|]; [|done].
    destruct (resp_Body resp); [|done]. by destruct (400 <=? resp_StatusCode resp)%Z.
Qed.

(** X21. The handler sends at most one request per call.  It is the
    request [createHTTPRequest] built for the URL of [buildURL], and its
    headers are [Content-Type] and [Accept], both [application/json], and
    [Authorization] when one is configured: no argument of the call is sent
    as a header. *)
Theorem handler_request_headers (config : Config) (Do : Request -> result Response)
    (op : Operation) (path method : string) (arguments : gmap string json) (req : Request) :
  req ∈ (createToolHandler config Do op path method arguments).1 ->
  req_Header req = handlerHeaders config /\
  (createToolHandler config Do op path method arguments).1 = [req] /\
  exists req0,
    createHTTPRequest method
      (buildURL (service_url config) path arguments (op_Parameters op)) arguments op = Ok req0 /\
    req_Method req = req_Method req0 /\ req_URL req = req_URL req0 /\
    req_Body req = req_Body req0.
Proof.
  destruct (decide (service_url config = "")) as [Hurl|Hurl].
  { unfold createToolHandler. rewrite Hurl. simpl. by intros ?%elem_of_nil. }
  pose proof (handler_cases config Do op path method arguments Hurl) as Hcases.
  destruct (createHTTPRequest _ _ _ _) as [req0|err] eqn:Hreq0.
  - destruct Hcases as (req' & Hmethod & Hu & Hbody & Hheader & ->). simpl.
    intros ->%list_elem_of_singleton.
    destruct (createHTTPRequest_Ok _ _ _ _ _ Hreq0) as (_ & _ & Hempty).
    rewrite Hempty, (right_id_L ∅ (∪)) in Hheader. eauto 10.
  - rewrite Hcases. simpl. by intros ?%elem_of_nil.
Qed.

(** X22. With a service URL, the handler returns a result exactly when it
    sent its request, the transport answered, the body could be read and the
    status is below 400; the result is then the body, as it is. *)
Theorem handler_succeeds_iff (config : Config) (Do : Request -> result Response)
    (op : Operation) (path method : string) (arguments : gmap string json) (text : string) :
  service_url config <> "" ->
  ((createToolHandler config Do op path method arguments).2 = Ok (NewToolResultText text) <->
   exists req resp,
     (createToolHandler config Do op path method arguments).1 = [req] /\
     Do req = Ok resp /\ resp_Body resp = Ok text /\ (resp_StatusCode resp < 400)%Z).
Proof.
  intros Hurl.
  pose proof (handler_cases config Do op path method arguments Hurl) as Hcases.
  destruct (createHTTPRequest _ _ _ _) as [req0|err] eqn:Hreq0.
  - destruct Hcases as (req & _ & _ & _ & _ & ->). simpl. split.
    + intros Hok. exists req.
      destruct (Do req) as [resp|]; [|done]. exists resp.
      destruct (resp_Body resp) as [body|] eqn:Hbody; [|done].
      destruct (400 <=? resp_StatusCode resp)%Z eqn:Hstatus; [done|].
      apply Z.leb_gt in Hstatus. by simplify_eq.
    + intros (req' & resp & [= <-] & -> & -> & Hstatus).
      apply Z.leb_gt in Hstatus. by rewrite Hstatus.
  - rewrite Hcases. simpl. split; [done|]. by intros (? & ? & ? & _).
Qed.

(** X23. When the joined URL does not parse, the handler fails before
    sending anything: [buildURL] returns the unparsed join, and
    [createHTTPRequest] rejects it. *)
Theorem handler_fails_on_unparsable_url (config : Config) (Do : Request -> result Response)
    (op : Operation) (path method : string) (arguments : gmap string json) :
  service_url config <> "" ->
  url_Parse (joinURL (service_url config)
               (substitutePath path arguments (op_Parameters op))) = None ->
  exists err,
    createToolHandler config Do op path method arguments =
    ([], Err ("failed to create request: " +:+ err)).
Proof.
  intros Hurl Hparse.
  pose proof (handler_cases config Do op path method arguments Hurl) as Hcases.
  rewrite (buildURL_parse_error _ _ _ _ Hparse) in Hcases.
  destruct (createHTTPRequest _ _ _ _) as [req0|err] eqn:Hreq0; [|eauto].
  apply createHTTPRequest_Ok in Hreq0 as (_ & Hparsed & _). congruence.
Qed.

(** ** The signature of an emitted tool function *)

Lemma paramType_cases (param : Param) :
  paramType param = "int" \/ paramType param = "float" \/
  paramType param = "bool" \/ paramType param = "str".
Proof. unfold paramType. repeat case_match; tauto. Qed.

Lemma required_entry_no_default (name : string) (param : Param) :
  hasDefault (name +:+ ": " +:+ paramType param) = false.
Proof.
  apply not_true_is_false. intros Hsuffix. unfold hasDefault in Hsuffix.
  destruct (paramType_cases param) as [Hty|[Hty|[Hty|Hty]]]; rewrite Hty in Hsuffix.
  - change (name +:+ ": " +:+ "int") with (name +:+ (": in" +:+ "t")) in Hsuffix.
    rewrite <- append_assoc in Hsuffix.
    by apply (HasSuffix_last _ " = Non") in Hsuffix.
  - change (name +:+ ": " +:+ "float") with (name +:+ (": floa" +:+ "t")) in Hsuffix.
    rewrite <- append_assoc in Hsuffix.
    by apply (HasSuffix_last _ " = Non") in Hsuffix.
  - change (name +:+ ": " +:+ "bool") with (name +:+ (": boo" +:+ "l")) in Hsuffix.
    rewrite <- append_assoc in Hsuffix.
    by apply (HasSuffix_last _ " = Non") in Hsuffix.
  - change (name +:+ ": " +:+ "str") with (name +:+ (": st" +:+ "r")) in Hsuffix.
    rewrite <- append_assoc in Hsuffix.
    by apply (HasSuffix_last _ " = Non") in Hsuffix.
Qed.

Lemma optional_entry_default (name ty : string) :
  hasDefault (name +:+ ": Optional[" +:+ ty +:+ "] = None") = true.
Proof.
  unfold hasDefault.
  change "] = None" with ("]" +:+ " = None").
  rewrite <- !append_assoc. apply HasSuffix_append.
Qed.

Lemma buildParameterLists_defaults (op : Operation) :
  Forall (fun entry => hasDefault entry = false) (buildParameterLists op).1 /\
  Forall (fun entry => hasDefault entry = true) (buildParameterLists op).2.
Proof.
  unfold buildParameterLists.
  set (step := fun (lists : list string * list string) (paramRef : option Param) => _).
  assert (Hfold : forall parameters lists,
            Forall (fun entry => hasDefault entry = false) lists.1 ->
            Forall (fun entry => hasDefault entry = true) lists.2 ->
            Forall (fun entry => hasDefault entry = false) (foldl step lists parameters).1 /\
            Forall (fun entry => hasDefault entry = true) (foldl step lists parameters).2).
  { induction parameters as [|[param|] parameters IH]; intros lists H1 H2; [done| |].
    - cbn [foldl]. apply IH; unfold step; destruct (param_Required param); simpl; try done.
      + apply Forall_app. split; [done|]. constructor; [|done]. apply required_entry_no_default.
      + apply Forall_app. split; [done|]. constructor; [|done]. apply optional_entry_default.
    - cbn [foldl]. by apply IH. }
  destruct (Hfold (op_Parameters op) ([], [])) as [H1 H2]; [done|done|].
  destruct (op_RequestBody op) as [reqBody|]; [|done].
  destruct (body_Required reqBody); simpl; split; try done.
  - apply Forall_app. split; [done|]. constructor; [|done]. vm_compute. reflexivity.
  - apply Forall_app. split; [done|]. constructor; [|done]. vm_compute. reflexivity.
Qed.

(** X24. In the signature of an emitted tool function, every parameter
    that follows a parameter with a default value has a default value too:
    required parameters come first, in whatever order they are declared. *)
Theorem python_parameters_defaults_last (op : Operation) (i j : nat) (p q : string) :
  toolParams op !! i = Some p ->
  toolParams op !! j = Some q ->
  i < j ->
  hasDefault p = true ->
  hasDefault q = true.
Proof.
  unfold toolParams. destruct (buildParameterLists_defaults op) as [Hreq Hopt].
  intros Hp Hq Hij Hdefault.
  apply lookup_app_Some in Hp as [Hp|[Hi Hp]].
  { rewrite Forall_lookup in Hreq. specialize (Hreq _ _ Hp). simpl in Hreq. congruence. }
  apply lookup_app_Some in Hq as [Hq|[_ Hq]].
  { apply lookup_lt_Some in Hq. lia. }
  rewrite Forall_lookup in Hopt. exact (Hopt _ _ Hq).
Qed.

Lemma buildParameterLists_entries (op : Operation) (param : Param) :
  Some param ∈ op_Parameters op ->
  exists entry, entry ∈ toolParams op /\
                HasPrefix entry (sanitizeParamName (param_Name param) +:+ ": ") = true.
Proof.
  unfold toolParams, buildParameterLists.
  set (step := fun (lists : list string * list string) (paramRef : option Param) => _).
  assert (Hmono : forall parameters lists entry,
            entry ∈ lists.1 ++ lists.2 ->
            entry ∈ (foldl step lists parameters).1 ++ (foldl step lists parameters).2).
  { induction parameters as [|[p|] parameters IH]; intros lists entry Hin; [done| |].
    - cbn [foldl]. apply IH. unfold step. destruct (param_Required p); simpl; set_solver.
    - cbn [foldl]. by apply IH. }
  assert (Hfold : forall parameters lists,
            Some param ∈ parameters ->
            exists entry,
              entry ∈ (foldl step lists parameters).1 ++ (foldl step lists parameters).2 /\
              HasPrefix entry (sanitizeParamName (param_Name param) +:+ ": ") = true).
  { induction parameters as [|paramRef parameters IH]; intros lists Hin;
      [by apply elem_of_nil in Hin|].
    apply elem_of_cons in Hin as [<-|Hin]; [|by apply IH].
    cbn [foldl].
    assert (Hnew : exists entry,
              entry ∈ (step lists (Some param)).1 ++ (step lists (Some param)).2 /\
              HasPrefix entry (sanitizeParamName (param_Name param) +:+ ": ") = true).
    { unfold step, HasPrefix. destruct (param_Required param); simpl.
      - exists (sanitizeParamName (param_Name param) +:+ ": " +:+ paramType param).
        split; [set_solver|]. rewrite <- append_assoc. apply prefix_append.
      - exists (sanitizeParamName (param_Name param) +:+
                ": Optional[" +:+ paramType param +:+ "] = None").
        split; [set_solver|].
        change ": Optional[" with (": " +:+ "Optional[").
        rewrite (append_assoc ": " "Optional["), <- append_assoc. apply prefix_append. }
    destruct Hnew as (entry & Hentry & Hprefix). exists entry. split; [by apply Hmono|done]. }
  intros Hin. destruct (Hfold (op_Parameters op) ([], []) Hin) as (entry & Hentry & Hprefix).
  exists entry. split; [|done].
  destruct (op_RequestBody op) as [reqBody|]; [|done].
  destruct (body_Required reqBody); simpl; set_solver.
Qed.

Lemma buildParameterLists_body (op : Operation) :
  is_Some (op_RequestBody op) ->
  exists entry, entry ∈ toolParams op /\ HasPrefix entry "body: " = true.
Proof.
  unfold toolParams, buildParameterLists. intros [reqBody ->].
  destruct (body_Required reqBody); simpl.
  - exists "body: Union[str, Dict[str, Any]]". split; [set_solver|reflexivity].
  - exists "body: Optional[Union[str, Dict[str, Any]]] = None". split; [set_solver|reflexivity].
Qed.

(** X25. Every property the live tool declares is a parameter of the
    emitted tool function, under its sanitized name. *)
Theorem live_properties_are_python_parameters
    (path method name : string) (op : Operation) :
  Some name ∈ optionName <$> tool_Opts (buildTool path method op) ->
  exists entry, entry ∈ toolParams op /\
                HasPrefix entry (sanitizeParamName name +:+ ": ") = true.
Proof.
  unfold buildTool. cbn [tool_Opts]. rewrite !fmap_app, !elem_of_app.
  intros [Hdesc|[Hparam|Hbody]].
  - apply list_elem_of_fmap in Hdesc as (opt & Hname & Hopt).
    apply list_elem_of_singleton in Hopt as ->. done.
  - apply list_elem_of_fmap in Hparam as (opt & Hname & Hopt).
    apply list_elem_of_omap in Hopt as (paramRef & Hin & Hopt).
    apply parameterOption_name in Hopt as (param & -> & Hopt).
    rewrite Hopt in Hname. injection Hname as ->.
    by apply buildParameterLists_entries.
  - apply list_elem_of_fmap in Hbody as (opt & Hname & Hopt).
    unfold bodyOption in Hopt.
    destruct (op_RequestBody op) as [reqBody|] eqn:Hbody; [|by apply elem_of_nil in Hopt].
    destruct (hasBody op); [|by apply elem_of_nil in Hopt].
    apply list_elem_of_singleton in Hopt as ->. injection Hname as ->.
    apply buildParameterLists_body. by rewrite Hbody.
Qed.

(** X26. The docstring of an emitted tool function is never empty, and it
    is the description of the live tool whenever that one is not empty. *)
Theorem emitted_description_never_empty (path method : string) (op : Operation) :
  toolDescription path method op <> "" /\
  forall desc,
    tool_Opts (buildTool path method op) !! 0 = Some (WithDescription desc) ->
    desc <> "" -> toolDescription path method op = desc.
Proof.
  unfold toolDescription, buildTool. cbn [tool_Opts]. split.
  - destruct (String.eqb (op_Summary op) "") eqn:Hsummary.
    + destruct (String.eqb (op_Description op) "") eqn:Hdescription.
      * intros Hempty. apply (f_equal String.length) in Hempty.
        rewrite !append_length in Hempty. simpl in Hempty. lia.
      * by apply String.eqb_neq.
    + rewrite Hsummary. by apply String.eqb_neq.
  - intros desc [= <-] Hdesc.
    destruct (String.eqb (op_Summary op) "") eqn:Hsummary.
    + apply String.eqb_neq in Hdesc. by rewrite Hdesc.
    + by rewrite Hsummary.
Qed.

Lemma dict_get_set {A} (d : list (string * A)) (k k' : string) (v : A) :
  dict_get (dict_set d k v) k' = if String.eqb k k' then Some v else dict_get d k'.
Proof.
  induction d as [|[j w] d IH]; [done|]. cbn [dict_set].
  destruct (String.eqb j k) eqn:Hjk.
  - apply String.eqb_eq in Hjk as ->. cbn [dict_get]. by destruct (String.eqb k k').
  - cbn [dict_get]. rewrite IH. destruct (String.eqb j k') eqn:Hjk'; [|done].
    apply String.eqb_eq in Hjk' as ->. by rewrite String.eqb_sym, Hjk.
Qed.

(** X27. A tool function that loads puts every supplied parameter that
    fills no placeholder into the query string, in declaration order and
    whatever its location: a header parameter is sent in the URL too. *)
Theorem emitted_url_carries_every_supplied_parameter (baseURL path method : string)
    (op : Operation) (kwargs : gmap string pyval) :
  loadable path method op = true ->
  (forall kv, kv ∈ pyArgs op kwargs -> Contains path (placeholder kv.1) = false) ->
  py_url <$> py_tool baseURL path method op kwargs =
  Some match pyArgs op kwargs with
       | [] => joinURL baseURL path
       | _ => (joinURL baseURL path +:+ "?") +:+ urlencode (pyArgs op kwargs)
       end.
Proof.
  intros Hload Hplain. rewrite py_tool_calls_build_url by done. f_equal.
  by apply build_url_no_placeholder.
Qed.

(** X28. A tool function that loads sends, under the name of a header
    parameter, the text of the value supplied for it; a name under which no
    header parameter is supplied is absent, except [Content-Type], which is
    then [application/json]. *)
Theorem emitted_headers_carry_header_parameters (baseURL path method : string)
    (op : Operation) (kwargs : gmap string pyval) :
  loadable path method op = true ->
  exists request,
    py_tool baseURL path method op kwargs = Some request /\
    (forall param v,
       Some param ∈ op_Parameters op -> param_In param = "header" ->
       kwargs !! sanitizeParamName (param_Name param) = Some v ->
       dict_get (py_headers request) (param_Name param) = Some (py_str v)) /\
    (forall name,
       (forall param, Some param ∈ op_Parameters op -> param_In param = "header" ->
                      param_Name param = name ->
                      kwargs !! sanitizeParamName name = None) ->
       dict_get (py_headers request) name =
       if String.eqb name "Content-Type" then Some "application/json" else None).
Proof.
  intros Hload. unfold py_tool. rewrite Hload. eexists. split; [reflexivity|].
  cbn [py_headers]. split.
  - intros param v Hparam Hin Hv. generalize [("Content-Type", "application/json")].
    assert (Hkeep : forall parameters headers,
              dict_get headers (param_Name param) = Some (py_str v) ->
              dict_get (foldl (fun headers paramRef =>
                 match paramRef with
                 | None => headers
                 | Some param =>
                     if String.eqb (param_In param) "header" then
                       match kwargs !! sanitizeParamName (param_Name param) with
                       | Some v => dict_set headers (param_Name param) (py_str v)
                       | None => headers
                       end
                     else headers
                 end) headers parameters) (param_Name param) = Some (py_str v)).
    { induction parameters as [|[param'|] parameters IH]; intros headers' Hget;
        [done| |by apply IH].
      cbn [foldl]. apply IH.
      destruct (String.eqb (param_In param') "header"); [|done].
      destruct (kwargs !! sanitizeParamName (param_Name param')) as [v'|] eqn:Hv'; [|done].
      rewrite dict_get_set.
      destruct (String.eqb (param_Name param') (param_Name param)) eqn:Hsame; [|done].
      apply String.eqb_eq in Hsame. rewrite Hsame in Hv'. congruence. }
    induction (op_Parameters op) as [|paramRef parameters IH];
      intros headers; [by apply elem_of_nil in Hparam|].
    apply elem_of_cons in Hparam as [<-|Hparam]; [|by apply IH].
    cbn [foldl]. apply Hkeep.
    rewrite (proj2 (String.eqb_eq _ _) Hin), Hv, dict_get_set.
    by rewrite String.eqb_refl.
  - intros name Habsent.
    replace (if String.eqb name "Content-Type" then Some "application/json" else None)
      with (dict_get [("Content-Type", "application/json")] name)
      by (cbn [dict_get]; by rewrite String.eqb_sym).
    generalize [("Content-Type", "application/json")].
    induction (op_Parameters op) as [|[param|] parameters IH]; intros headers; [done| |].
    + cbn [foldl]. rewrite IH by (intros ? ?; apply Habsent; by right).
      destruct (String.eqb (param_In param) "header") eqn:Hin; [|done].
      destruct (kwargs !! sanitizeParamName (param_Name param)) as [v|] eqn:Hv; [|done].
      rewrite dict_get_set.
      destruct (String.eqb (param_Name param) name) eqn:Hsame; [|done].
      apply String.eqb_eq in Hin, Hsame.
      rewrite <- Hsame in Habsent. rewrite (Habsent param) in Hv; [done|left|done|done].
    + cbn [foldl]. apply IH. intros ? ?. apply Habsent. by right.
Qed.

(** X29. The emitted tool function declares what its body reads: every
    parameter of the operation has an entry in the signature under its
    sanitized name, and [body] has one whenever the request statement passes
    [body]. *)
Theorem emitted_function_declares_what_it_reads (method : string) (op : Operation) :
  (forall param, Some param ∈ op_Parameters op ->
     exists entry, entry ∈ toolParams op /\
                   HasPrefix entry (sanitizeParamName (param_Name param) +:+ ": ") = true) /\
  (forall httpx_method, writeRequestCode method op = CallWithBody httpx_method ->
     exists entry, entry ∈ toolParams op /\ HasPrefix entry "body: " = true).
Proof.
  split; [apply buildParameterLists_entries|].
  intros httpx_method Hcode. apply buildParameterLists_body.
  unfold writeRequestCode in Hcode. destruct (String.eqb method "GET"); [done|].
  by destruct (op_RequestBody op).
Qed.

End Generator.

(** * The properties on concrete documents and calls *)

Section Concrete.
Local Existing Instance reference.

(** ** Normalizer *)

Lemma normalize_idempotent_witness :
  version_of plain_document = Some "3.0.0" /\
  no_null_unions plain_document = true /\
  preprocess_twice plain_document = preprocessOpenAPISpec plain_document.
Proof.
  split; [reflexivity|]. split; [vm_compute; reflexivity|].
  apply normalize_idempotent; [reflexivity|vm_compute; reflexivity].
Defined.


(** The walk of [fixNullTypes] visits neither [items] nor the entry
    itself: a null-union under [items] survives normalization. *)
Lemma items_not_visited :
  match preprocessOpenAPISpec nullable_items_document with
  | Ok (Text out) =>
      match at_path ["components"; "schemas"; "Tags"; "items"] out with
      | Some (JObj node) => null_union node = true
      | _ => False
      end
  | _ => False
  end.
Proof. vm_compute. reflexivity. Qed.

(** An entry of [components.schemas] that is a null-union stays one. *)
Example entry_not_rewritten :
  match preprocessOpenAPISpec nullable_entry_document with
  | Ok (Text out) =>
      match at_path ["components"; "schemas"; "Nick"] out with
      | Some (JObj node) => null_union node = true
      | _ => False
      end
  | _ => False
  end.
Proof. vm_compute. reflexivity. Qed.


(** [User.nick] of [nullable_spec], a null-union of a string of at most
    eight characters, and what the normalizer makes of it *)
Example nick_is_rewritten :
  source_at ["nick"] {[ "type" := JStr "object";
                        "properties" := JObj {[ "nick" := JObj {[
                          "anyOf" := JArr [JObj {[ "type" := JStr "string";
                                                   "maxLength" := JNum 8%Z ]};
                                           JObj {[ "type" := JStr "null" ]}] ]} ]} ]}
  = Some {[ "anyOf" := JArr [JObj {[ "type" := JStr "string"; "maxLength" := JNum 8%Z ]};
                             JObj {[ "type" := JStr "null" ]}] ]} /\
  property_at ["nick"] nullable_User
  = Some {[ "type" := JStr "string"; "maxLength" := JNum 8%Z; "nullable" := JBool true ]}.
Proof. split; reflexivity. Qed.

(** Below a null-union the walk follows the properties of the non-null
    alternative: [address.zip] is rewritten, and the property [old] of the
    union itself is dropped with the union's [properties]. *)
Example nested_null_unions :
  match preprocessOpenAPISpec (Text (JObj nested_spec)) with
  | Ok (Text out) =>
      match at_path ["components"; "schemas"; "User"] out with
      | Some (JObj schema) =>
          property_at ["address"; "zip"] schema
          = Some {[ "type" := JStr "string"; "pattern" := JStr "[0-9]+";
                    "nullable" := JBool true; "description" := JStr "zip code" ]} /\
          property_at ["address"; "old"] schema = None
      | _ => False
      end
  | _ => False
  end /\
  source_at ["address"; "zip"] nested_User = Some nested_zip /\
  source_at ["address"; "old"] nested_User = None.
Proof. split; [split; reflexivity|split; reflexivity]. Qed.

(** A JSON array is a JSON text, and the normalizer rejects it. *)
Lemma array_is_rejected :
  decodable (Text (JArr [])) = true /\
  exists msg, preprocessOpenAPISpec (Text (JArr [])) = Err msg.
Proof. split; [reflexivity|]. eexists. reflexivity. Qed.

Lemma preprocess_absent_keys_witness :
  preprocessOpenAPISpec (Text (JObj bare_spec)) = Ok (Text (JObj bare_spec)).
Proof.
  apply (proj2 (preprocess_fails_iff_not_a_map (Text (JObj bare_spec))) bare_spec);
    reflexivity.
Defined.

(** ** Tool model builder *)

(** Two runs on the same document that register the tools in different
    orders. *)
Lemma tool_order_not_determined :
  processPathsIntoTools two_paths (allRegistrations two_paths) /\
  processPathsIntoTools two_paths
    (reverse (map_to_list (doc_Paths two_paths)) ≫= registrationsOf) /\
  allRegistrations two_paths
    <> reverse (map_to_list (doc_Paths two_paths)) ≫= registrationsOf.
Proof.
  split; [apply processPathsIntoTools_total|].
  split; [apply processPathsIntoTools_order, reverse_Permutation|].
  intros Heq. apply (f_equal (fmap reg_Path)) in Heq.
  vm_compute in Heq. discriminate.
Qed.

Lemma deterministic_up_to_order_witness :
  processPathsIntoTools two_paths (allRegistrations two_paths) /\
  processPathsIntoTools two_paths
    (reverse (map_to_list (doc_Paths two_paths)) ≫= registrationsOf) /\
  allRegistrations two_paths
    ≡ₚ reverse (map_to_list (doc_Paths two_paths)) ≫= registrationsOf.
Proof.
  assert (H1 : processPathsIntoTools two_paths (allRegistrations two_paths))
    by apply processPathsIntoTools_total.
  assert (H2 : processPathsIntoTools two_paths
                 (reverse (map_to_list (doc_Paths two_paths)) ≫= registrationsOf))
    by apply processPathsIntoTools_order, reverse_Permutation.
  split; [exact H1|]. split; [exact H2|].
  exact (processPathsIntoTools_deterministic_up_to_order two_paths _ _ H1 H2).
Defined.

(** ** The live handler *)

Lemma mock_response_witness :
  service_url mock_config = "" /\
  createToolHandler mock_config no_transport get_user "/users/{id}" "GET"
    {[ "id" := JStr "7" ]} =
  ([], Ok (NewToolResultText
             ("Mock response for GET /users/{id}" +:+ newline +:+ "Params: map[id:7]"))).
Proof.
  split; [reflexivity|].
  etrans; [apply mock_response_without_service_url; reflexivity|].
  reflexivity.
Defined.

(** ** Request bodies *)

(** A POST operation that declares no request body still gets one. *)
Lemma body_without_declared_request_body :
  hasBody post_plain = false /\
  createHTTPRequest "POST" "https://api.example.com/orders"
    {[ "body" := JStr "hi" ]} post_plain
  = Ok (orders_request (Some (BodyBytes "hi"))).
Proof. split; reflexivity. Qed.

Lemma body_built_iff_witness :
  createHTTPRequest "POST" "https://api.example.com/orders"
    {[ "body" := JStr "hi" ]} post_plain
  = Ok (orders_request (Some (BodyBytes "hi"))) /\
  (is_Some (req_Body (orders_request (Some (BodyBytes "hi")))) <->
   methodCarriesBody "POST" = true /\
   (is_Some (({[ "body" := JStr "hi" ]} : gmap string json) !! "body") \/
    exists name, is_Some (({[ "body" := JStr "hi" ]} : gmap string json) !! name) /\
                 isPathOrQuery post_plain name = false)).
Proof.
  split; [reflexivity|].
  apply (body_built_iff "POST" "https://api.example.com/orders"). reflexivity.
Defined.

(** A body-carrying POST whose only argument is its path parameter is sent
    without a body, not with the JSON encoding of the empty set of extra
    arguments. *)
Lemma no_body_without_extra_arguments :
  hasBody post_activate = true /\
  ({[ "id" := JStr "7" ]} : gmap string json) !! "body" = None /\
  createHTTPRequest "POST" "https://api.example.com/users/7/activate"
    {[ "id" := JStr "7" ]} post_activate
  = Ok (activate_request None) /\
  req_Body (activate_request None)
  <> Some (BodyJSON (JObj (extraArguments post_activate {[ "id" := JStr "7" ]}))).
Proof. split_and!; [vm_compute; reflexivity|reflexivity|reflexivity|discriminate]. Qed.

Lemma body_three_tiers_witness :
  methodCarriesBody "POST" = true /\
  createHTTPRequest "POST" "https://api.example.com/orders"
    {[ "body" := JStr "[1,2]" ]} post_plain
  = Ok (orders_request (Some (BodyBytes "[1,2]"))) /\
  req_Body (orders_request (Some (BodyBytes "[1,2]")))
  = Some (BodyBytes "[1,2]").
Proof.
  split; [reflexivity|]. split; [reflexivity|].
  etrans; [apply (body_three_tiers "POST" "https://api.example.com/orders"
                    {[ "body" := JStr "[1,2]" ]} post_plain); reflexivity|].
  reflexivity.
Defined.

(** ** The query string *)

(** Declared [b] before [a], written [a] before [b]. *)
Lemma query_not_in_declaration_order :
  queryArgs {[ "a" := JStr "1"; "b" := JStr "2" ]} (op_Parameters list_items)
  = [("b", "2"); ("a", "1")] /\
  buildURL "https://api.example.com" "/items" {[ "a" := JStr "1"; "b" := JStr "2" ]}
    (op_Parameters list_items)
  = "https://api.example.com/items?a=1&b=2" /\
  buildURL "https://api.example.com" "/items" {[ "a" := JStr "1"; "b" := JStr "2" ]}
    (op_Parameters list_items)
  <> "https://api.example.com/items?b=2&a=1".
Proof. split_and!; [vm_compute; reflexivity..|vm_compute; discriminate]. Qed.

Lemma query_parameters_sorted_witness :
  url_Parse (joinURL "https://api.example.com"
               (substitutePath "/items" {[ "a" := JStr "1"; "b" := JStr "2" ]}
                  (op_Parameters list_items)))
  = Some {| url_Prefix := "https://api.example.com/items"; url_ForceQuery := false;
            url_RawQuery := ""; url_Fragment := "" |} /\
  exists pairs : list (string * string),
    buildURL "https://api.example.com" "/items" {[ "a" := JStr "1"; "b" := JStr "2" ]}
      (op_Parameters list_items)
    = URL_String {| url_Prefix := "https://api.example.com/items"; url_ForceQuery := false;
                    url_RawQuery := ""; url_Fragment := "" |}
        (String.concat "&" (encode_pair <$> pairs)) /\
    StronglySorted (fun x y : string * string => string_le x.1 y.1) pairs /\
    forall name,
      filter (has_key name) pairs =
      filter (has_key name)
        (Values_pairs (URL_Query {| url_Prefix := "https://api.example.com/items";
                                    url_ForceQuery := false;
                                    url_RawQuery := ""; url_Fragment := "" |})
         ++ queryArgs {[ "a" := JStr "1"; "b" := JStr "2" ]} (op_Parameters list_items)).
Proof.
  split; [vm_compute; reflexivity|].
  apply query_parameters_sorted_by_name. vm_compute. reflexivity.
Defined.

(** ** The live path and the emitted code *)

Lemma build_url_repeats_witness :
  buildURL "https://api.example.com" "/users/{id}" {[ "id" := JStr "7" ]}
    (op_Parameters get_user)
  = "https://api.example.com/users/7" /\
  build_url "https://api.example.com" "/users/{id}" [("id", PyStr "7")]
  = "https://api.example.com/users/7?id=7" /\
  buildURL "https://api.example.com" "/users/{id}" {[ "id" := JStr "7" ]}
    (op_Parameters get_user)
  <> build_url "https://api.example.com" "/users/{id}" [("id", PyStr "7")].
Proof.
  apply (@build_url_repeats_path_argument reference path_id
           {| url_Prefix := "https://api.example.com/users/7"; url_ForceQuery := false;
              url_RawQuery := ""; url_Fragment := "" |}); vm_compute; reflexivity.
Defined.

(** The tool function emitted for [GET /users/{id}] loads, and called with
    [id = "7"] it makes this call of [build_url]. *)
Example emitted_tool_repeats_path_argument :
  loadable "/users/{id}" "GET" get_user = true /\
  py_url <$> py_tool "https://api.example.com" "/users/{id}" "GET" get_user
               {[ "id" := PyStr "7" ]}
  = Some "https://api.example.com/users/7?id=7".
Proof. split; vm_compute; reflexivity. Qed.

(** Operations for which the text of the tool function is no Python: a
    keyword as parameter name, a dot in the tool ID, two parameters of one
    sanitized name, a leading digit *)
Example not_loadable :
  loadable "/items" "GET"
    {| op_Summary := ""; op_Description := "";
       op_Parameters := [Some (query_param "from")]; op_RequestBody := None |} = false /\
  loadable "/v1.0/items" "GET" list_items = false /\
  loadable "/items" "GET"
    {| op_Summary := ""; op_Description := "";
       op_Parameters := [Some (query_param "a-b"); Some (query_param "a_b")];
       op_RequestBody := None |} = false /\
  loadable "/items" "GET"
    {| op_Summary := ""; op_Description := "";
       op_Parameters := [Some (query_param "2fa")]; op_RequestBody := None |} = false.
Proof. repeat split; vm_compute; reflexivity. Qed.

Example urls_agree_example :
  py_url <$> py_tool "https://api.example.com" "/items" "GET" search_items
               {[ "a" := PyStr "1"; "b" := PyStr "x y" ]}
  = Some (buildURL "https://api.example.com" "/items" {[ "a" := JStr "1"; "b" := JStr "x y" ]}
            (op_Parameters search_items)) /\
  buildURL "https://api.example.com" "/items" {[ "a" := JStr "1"; "b" := JStr "x y" ]}
    (op_Parameters search_items)
  = "https://api.example.com/items?a=1&b=x+y".
Proof.
  split; [|vm_compute; reflexivity].
  apply (@urls_agree_on_sorted_query_calls reference _ _ _ _ _ _
           {| url_Prefix := "https://api.example.com/items"; url_ForceQuery := false;
              url_RawQuery := ""; url_Fragment := "" |}).
  - vm_compute. reflexivity.
  - intros param Hin.
    change (Some param ∈ [Some (query_param "a"); Some (query_param "b")]) in Hin.
    rewrite !elem_of_cons in Hin.
    destruct Hin as [Hin|[Hin|Hin]]; [| |by apply elem_of_nil in Hin];
      injection Hin as ->; repeat split; vm_compute; reflexivity.
  - vm_compute. repeat constructor.
  - vm_compute. reflexivity.
  - vm_compute. reflexivity.
  - intros q. unfold URL_String, reference, plain_String. cbn [url_Prefix url_ForceQuery url_Fragment orb].
    destruct (String.eqb q ""); cbn [negb String.eqb]; by rewrite append_nil_r.
Qed.

Example urls_without_arguments_example :
  py_url <$> py_tool "https://api.example.com/" "/users/{id}" "GET" get_user ∅
  = Some (joinURL "https://api.example.com/" "/users/{id}").
Proof.
  refine (proj1 (urls_without_arguments _ _ _ _ ∅ _ _ _ _));
    [vm_compute; reflexivity|intros param _; apply lookup_empty..].
Qed.

(** ** Further checks against the examples of the specification *)

Example path_substitution :
  buildURL "https://api.example.com" "/users/{id}/posts" {[ "id" := JNum 42%Z ]}
    [Some path_id]
  = "https://api.example.com/users/42/posts".
Proof. vm_compute. reflexivity. Qed.

Example large_number_in_path :
  buildURL "https://api.example.com" "/users/{id}/posts" {[ "id" := JNum 1234567%Z ]}
    [Some path_id]
  = "https://api.example.com/users/1.234567e+06/posts".
Proof. vm_compute. reflexivity. Qed.

Example query_escaping :
  buildURL "https://api.example.com/" "/items"
    {[ "b" := JStr "x y"; "a" := JStr "1&2" ]} (op_Parameters list_items)
  = "https://api.example.com/items?a=1%262&b=x+y".
Proof. vm_compute. reflexivity. Qed.

Example parameter_names :
  sanitizeParamName "user-id" = "user_id" /\ sanitizeParamName "x.y" = "x_y".
Proof. vm_compute. auto. Qed.

Example delete_with_request_body :
  writeRequestCode "DELETE" post_activate = CallWithBody "delete" /\
  methodCarriesBody "DELETE" = false.
Proof. vm_compute. auto. Qed.

(** ** Names *)

Lemma sanitizeParamName_identifier_witness :
  isASCII "user-id" = true /\
  String.length (sanitizeParamName "user-id") = String.length "user-id" /\
  all_chars isIdentifierRune (sanitizeParamName "user-id") = true.
Proof.
  split; [reflexivity|]. apply sanitizeParamName_identifier_characters. reflexivity.
Defined.

Lemma sanitizeParamName_fixes_witness :
  isASCII "x.y" = true /\
  (sanitizeParamName "x.y" = "x.y" <-> all_chars isIdentifierRune "x.y" = true) /\
  sanitizeParamName (sanitizeParamName "x.y") = sanitizeParamName "x.y".
Proof. split; [reflexivity|]. apply sanitizeParamName_fixes_identifiers. reflexivity. Defined.

Lemma sanitizeForPackageName_witness :
  isASCII "Pet Store API" = true /\
  sanitizeForPackageName "Pet Store API" = "pet_store_api" /\
  all_chars isPackageRune (sanitizeForPackageName "Pet Store API") = true.
Proof.
  split; [reflexivity|]. split; [reflexivity|].
  apply (sanitizeForPackageName_valid "Pet Store API"). reflexivity.
Defined.

Lemma sanitizeForPackageName_idempotent_witness :
  isASCII "3D Models!" = true /\
  sanitizeForPackageName "3D Models!" = "mcp_3d_models_" /\
  sanitizeForPackageName (sanitizeForPackageName "3D Models!") =
  sanitizeForPackageName "3D Models!".
Proof.
  split; [reflexivity|]. split; [reflexivity|].
  apply sanitizeForPackageName_idempotent. reflexivity.
Defined.

Lemma projectName_witness :
  isASCII "" = true /\ projectName "" = "mcp_server" /\
  all_chars isPackageRune (projectName "") = true.
Proof.
  split; [reflexivity|]. split; [reflexivity|].
  apply (projectName_is_a_package_name ""). reflexivity.
Defined.

Lemma folderName_witness :
  isASCII "Pet Store" = true /\ folderName "Pet Store" = "pet_store_mcp_server" /\
  String.length (folderName "Pet Store") = String.length "Pet Store" + 11.
Proof.
  split; [reflexivity|]. split; [reflexivity|].
  apply (folderName_has_no_space "Pet Store"). reflexivity.
Defined.

Lemma toolID_punctuation_witness :
  isASCII "/users/{id}/posts" = true /\
  exists rest,
    sanitizePathForToolID "/users/{id}/posts" "GET" = ToLower "GET" +:+ rest /\
    all_chars (fun c => negb (isPathPunctuation c)) rest = true.
Proof.
  split; [reflexivity|]. apply toolID_has_no_path_punctuation. reflexivity.
Defined.

Example toolID_collision :
  sanitizePathForToolID "/a-b/{c}" "GET" = sanitizePathForToolID "/a/b_c" "GET".
Proof. reflexivity. Qed.

(** ** What the normalizer changes *)

Lemma normalized_version_witness :
  preprocessOpenAPISpec (Text (JObj nullable_spec)) = Ok (Text (JObj nullable_normalized)) /\
  version_of (Text (JObj nullable_spec)) = Some "3.1.0" /\
  version_of (Text (JObj nullable_normalized)) = Some "3.0.0".
Proof.
  assert (Hout : preprocessOpenAPISpec (Text (JObj nullable_spec))
                 = Ok (Text (JObj nullable_normalized))) by reflexivity.
  split; [exact Hout|]. split; [reflexivity|].
  etrans; [apply (proj1 (@normalized_version_is_not_3_1 reference _ _ Hout))|]. reflexivity.
Defined.

Lemma no_non_standard_fields_witness :
  preprocessOpenAPISpec plain_document = Ok (Text (JObj plain_normalized)) /\
  at_path ["components"; "schemas"; "User"; "error_messages"] (JObj plain_normalized) = None.
Proof.
  assert (Hout : preprocessOpenAPISpec plain_document = Ok (Text (JObj plain_normalized)))
    by reflexivity.
  split; [exact Hout|].
  change (plain_User !! "error_messages" = None).
  apply (@normalized_schemas_have_no_non_standard_fields reference _ plain_normalized
           {[ "schemas" := JObj {[ "User" := JObj plain_User ]} ]}
           {[ "User" := JObj plain_User ]} plain_User plain_User "User" "error_messages" Hout);
    [reflexivity|reflexivity|reflexivity|apply rtc_refl|].
  unfold nonStandardFields. apply list_elem_of_here.
Defined.

Lemma normalized_parameter_witness :
  preprocessOpenAPISpec (Text (JObj (items_spec string_or_null)))
  = Ok (Text (JObj (items_spec nullable_string))) /\
  null_union string_or_null = true /\
  null_union nullable_string = false.
Proof.
  assert (Hout : preprocessOpenAPISpec (Text (JObj (items_spec string_or_null)))
                 = Ok (Text (JObj (items_spec nullable_string)))) by reflexivity.
  split; [exact Hout|]. split; [vm_compute; reflexivity|].
  apply (@normalized_parameter_schemas_not_null_union reference _ _
           {[ "/items" := JObj {[ "get" := JObj {[
                "parameters" := JArr [JObj (items_parameter nullable_string)] ]} ]} ]}
           {[ "get" := JObj {[
                "parameters" := JArr [JObj (items_parameter nullable_string)] ]} ]}
           {[ "parameters" := JArr [JObj (items_parameter nullable_string)] ]}
           (items_parameter nullable_string) nullable_string
           [JObj (items_parameter nullable_string)] "/items" "get" Hout);
    [reflexivity|reflexivity|reflexivity|reflexivity|apply list_elem_of_here|reflexivity].
Defined.

(** ** The registered tools *)

Lemma registered_tools_witness :
  processPathsIntoTools two_paths (allRegistrations two_paths) /\
  NoDup (allRegistrations two_paths) /\
  (AddTool (buildTool "/items" "GET" list_items) list_items "/items" "GET"
     ∈ allRegistrations two_paths <->
   exists path method op,
     declares two_paths path method op /\
     AddTool (buildTool "/items" "GET" list_items) list_items "/items" "GET"
     = AddTool (buildTool path method op) op path method).
Proof.
  assert (Hrun : processPathsIntoTools two_paths (allRegistrations two_paths))
    by apply processPathsIntoTools_total.
  split; [exact Hrun|].
  destruct (@registered_tools_are_the_declared_operations reference _ _ Hrun) as [Hnodup Hiff].
  split; [exact Hnodup|apply Hiff].
Defined.

Lemma tool_properties_witness :
  omap optionName (tool_Opts (buildTool "/users/{id}/activate" "POST" post_activate))
  = ["id"; "body"].
Proof. etrans; [apply tool_properties|]. vm_compute. reflexivity. Defined.

(** ** The URL of a live call *)

Lemma joinURL_witness :
  HasSuffix "https://api.example.com" "/" = false /\
  HasPrefix "users" "/" = false /\
  joinURL "https://api.example.com/" "/users" = "https://api.example.com/users".
Proof.
  split; [reflexivity|]. split; [reflexivity|].
  exact (proj2 (proj2 (proj2
           (joinURL_one_slash "https://api.example.com" "users" eq_refl eq_refl)))).
Defined.

Lemma buildURL_declared_witness :
  buildURL "https://api.example.com" "/users/{id}"
    {[ "id" := JStr "7"; "body" := JStr "x" ]} (op_Parameters get_user)
  = buildURL "https://api.example.com" "/users/{id}"
      {[ "id" := JStr "7" ]} (op_Parameters get_user).
Proof.
  apply buildURL_reads_declared_arguments_only.
  intros param Hin _. apply list_elem_of_singleton in Hin. injection Hin as ->. reflexivity.
Defined.

Lemma substitutePath_witness :
  substitutePath ("/users/" +:+ placeholder "id" +:+ "/posts") {[ "id" := JStr "a b" ]}
    ([Some (query_param "a")] ++ [Some path_id])
  = "/users/a b/posts".
Proof.
  apply (@substitutePath_replaces_placeholder reference "/users/" "/posts" path_id
           (JStr "a b") {[ "id" := JStr "a b" ]} [Some (query_param "a")] []);
    [reflexivity|reflexivity|reflexivity|reflexivity|].
  intros other Hother. rewrite app_nil_r in Hother.
  apply list_elem_of_singleton in Hother. injection Hother as ->. discriminate.
Defined.

Lemma substitutePath_other_witness :
  substitutePath "/items" {[ "id" := JStr "7" ]} [Some path_id] = "/items".
Proof.
  apply substitutePath_leaves_other_paths.
  intros param Hin _ _. apply list_elem_of_singleton in Hin. injection Hin as ->. reflexivity.
Defined.

Lemma query_string_witness :
  url_Parse (joinURL "https://api.example.com/"
               (substitutePath "/items" {[ "b" := JStr "x y"; "a" := JStr "1&2" ]}
                  (op_Parameters list_items)))
  = Some {| url_Prefix := "https://api.example.com/items"; url_ForceQuery := false;
            url_RawQuery := ""; url_Fragment := "" |} /\
  exists query,
    buildURL "https://api.example.com/" "/items" {[ "b" := JStr "x y"; "a" := JStr "1&2" ]}
      (op_Parameters list_items)
    = URL_String {| url_Prefix := "https://api.example.com/items"; url_ForceQuery := false;
                    url_RawQuery := ""; url_Fragment := "" |} query /\
    all_chars isQueryRune query = true.
Proof.
  split; [vm_compute; reflexivity|].
  apply query_string_is_escaped. vm_compute. reflexivity.
Defined.

(** ** Requests and responses of a live call *)

(** A method with a space is not an HTTP token. *)
Lemma createHTTPRequest_fails_witness :
  exists msg, createHTTPRequest "GET IT" "https://api.example.com/items" ∅ post_plain = Err msg.
Proof.
  apply (proj2 (proj1 (createHTTPRequest_fails_iff "GET IT" "https://api.example.com/items"
                         ∅ post_plain))).
  left. reflexivity.
Defined.

Lemma handler_request_witness :
  user_request ∈
    (createToolHandler live_config found_transport get_user "/users/{id}" "GET"
       {[ "id" := JStr "7" ]}).1 /\
  req_Header user_request = handlerHeaders live_config.
Proof.
  assert (Hin : user_request ∈
    (createToolHandler live_config found_transport get_user "/users/{id}" "GET"
       {[ "id" := JStr "7" ]}).1).
  { apply list_elem_of_here. }
  split; [exact Hin|].
  exact (proj1 (@handler_request_headers reference _ _ _ _ _ _ _ Hin)).
Defined.

Lemma handler_succeeds_witness :
  service_url live_config <> "" /\
  ((createToolHandler live_config found_transport get_user "/users/{id}" "GET"
      {[ "id" := JStr "7" ]}).2 = Ok (NewToolResultText "ok") <->
   exists req resp,
     (createToolHandler live_config found_transport get_user "/users/{id}" "GET"
        {[ "id" := JStr "7" ]}).1 = [req] /\
     found_transport req = Ok resp /\ resp_Body resp = Ok "ok" /\
     (resp_StatusCode resp < 400)%Z).
Proof.
  assert (Hurl : service_url live_config <> "") by discriminate.
  split; [exact Hurl|].
  exact (@handler_succeeds_iff reference _ _ _ _ _ _ _ Hurl).
Defined.

(** A line feed in a path argument: [net/url] rejects the control byte. *)
Lemma handler_unparsable_witness :
  service_url live_config <> "" /\
  url_Parse (joinURL (service_url live_config)
               (substitutePath "/users/{id}" {[ "id" := JStr newline ]}
                  (op_Parameters get_user))) = None /\
  exists err,
    createToolHandler live_config found_transport get_user "/users/{id}" "GET"
      {[ "id" := JStr newline ]}
    = ([], Err ("failed to create request: " +:+ err)).
Proof.
  assert (Hurl : service_url live_config <> "") by discriminate.
  assert (Hparse : url_Parse (joinURL (service_url live_config)
               (substitutePath "/users/{id}" {[ "id" := JStr newline ]}
                  (op_Parameters get_user))) = None) by (vm_compute; reflexivity).
  split; [exact Hurl|]. split; [exact Hparse|].
  exact (@handler_fails_on_unparsable_url reference _ found_transport _ _ "GET" _ Hurl Hparse).
Defined.

(** ** The emitted tool function *)

Lemma python_parameters_witness :
  toolParams list_items !! 0 = Some "b: Optional[str] = None" /\
  toolParams list_items !! 1 = Some "a: Optional[str] = None" /\
  hasDefault "a: Optional[str] = None" = true.
Proof.
  assert (H0 : toolParams list_items !! 0 = Some "b: Optional[str] = None") by reflexivity.
  assert (H1 : toolParams list_items !! 1 = Some "a: Optional[str] = None") by reflexivity.
  split; [exact H0|]. split; [exact H1|].
  apply (@python_parameters_defaults_last reference list_items 0 1 _ _ H0 H1); [lia|reflexivity].
Defined.

Example required_parameters_first :
  toolParams {| op_Summary := ""; op_Description := "";
                op_Parameters := [Some (query_param "a"); Some path_id];
                op_RequestBody := Some json_body |}
  = ["id: str"; "body: Union[str, Dict[str, Any]]"; "a: Optional[str] = None"].
Proof. reflexivity. Qed.

Lemma live_properties_witness :
  Some "id" ∈ optionName <$> tool_Opts (buildTool "/users/{id}" "GET" get_user) /\
  exists entry, entry ∈ toolParams get_user /\
                HasPrefix entry (sanitizeParamName "id" +:+ ": ") = true.
Proof.
  assert (Hin : Some "id" ∈ optionName <$> tool_Opts (buildTool "/users/{id}" "GET" get_user)).
  { apply list_elem_of_further, list_elem_of_here. }
  split; [exact Hin|].
  exact (@live_properties_are_python_parameters reference _ _ _ _ Hin).
Defined.

Example emitted_description_example :
  toolDescription "/items" "GET" traced_items = "GET /items".
Proof. reflexivity. Qed.

Lemma emitted_url_witness :
  loadable "/items" "GET" traced_items = true /\
  py_url <$> py_tool "https://api.example.com" "/items" "GET" traced_items
               {[ "X_Trace" := PyStr "abc" ]}
  = Some "https://api.example.com/items?X-Trace=abc".
Proof.
  split; [vm_compute; reflexivity|]. etrans.
  - apply emitted_url_carries_every_supplied_parameter; [vm_compute; reflexivity|].
    intros kv Hin. change (kv ∈ [("X-Trace", PyStr "abc")]) in Hin.
    apply list_elem_of_singleton in Hin as ->. reflexivity.
  - vm_compute. reflexivity.
Defined.

Lemma emitted_headers_witness :
  loadable "/items" "GET" traced_items = true /\
  exists request,
    py_tool "https://api.example.com" "/items" "GET" traced_items
      {[ "X_Trace" := PyStr "abc" ]} = Some request /\
    dict_get (py_headers request) "X-Trace" = Some "abc" /\
    dict_get (py_headers request) "Content-Type" = Some "application/json".
Proof.
  assert (Hload : loadable "/items" "GET" traced_items = true) by (vm_compute; reflexivity).
  split; [exact Hload|].
  destruct (@emitted_headers_carry_header_parameters reference "https://api.example.com"
              "/items" "GET" traced_items {[ "X_Trace" := PyStr "abc" ]} Hload)
    as (request & Hrun & Hsupplied & Habsent).
  exists request. split; [exact Hrun|]. split.
  - apply (Hsupplied (header_param "X-Trace") (PyStr "abc")); [left|reflexivity|reflexivity].
  - apply (Habsent "Content-Type"). intros param Hin _ Hname.
    change (Some param ∈ [Some (header_param "X-Trace")]) in Hin.
    apply list_elem_of_singleton in Hin. injection Hin as ->. discriminate Hname.
Defined.

End Concrete.
